(** * BuchlaLowPassGate: a shallow embedding of the low pass gate node

    Source: BuchlaBongo/Source/BuchlaBongo/Private/BuchlaLowPassGate.cpp

    The node keeps an attack/decay envelope ([FEnvelopeState], advanced by
    [Envelope.GetNextEnvelopeOutput]) and a state variable filter, and
    combines them per audio block according to [ELowPassGateMode].

    Numbers are modelled as the code has them: [int32] as [Z] with the
    wrap-around written out, [float] as IEEE binary32 on the Standard
    Library's [spec_float] (24 bits of precision, round to nearest even). *)

From Stdlib Require Import ZArith Bool Lia.
From Stdlib Require Import SpecFloat.
From stdpp Require Import base list sorting strings gmap.

Local Open Scope Z_scope.

(** ** int32 *)

Module Int32.

Definition min_int : Z := -2147483648.
Definition max_int : Z := 2147483647.

Definition in_range (z : Z) : Prop := min_int <= z <= max_int.

(** Two's complement wrap-around of a mathematical integer. *)
Definition wrap (z : Z) : Z := (z + 2147483648) mod 4294967296 - 2147483648.

Definition add (a b : Z) : Z := wrap (a + b).
Definition sub (a b : Z) : Z := wrap (a - b).
Definition incr (a : Z) : Z := wrap (a + 1).

End Int32.

(** [INDEX_NONE] of the engine's core headers. *)
Definition INDEX_NONE : Z := -1.

(** ** float (IEEE binary32) *)

Module F32.

Definition prec : Z := 24.
Definition emax : Z := 128.

Definition float : Type := spec_float.

Definition add : float -> float -> float := SFadd prec emax.
Definition sub : float -> float -> float := SFsub prec emax.
Definition mul : float -> float -> float := SFmul prec emax.
Definition div : float -> float -> float := SFdiv prec emax.
Definition abs : float -> float := SFabs.

Definition ltb : float -> float -> bool := SFltb.
Definition leb : float -> float -> bool := SFleb.
Definition eqb : float -> float -> bool := SFeqb.

Definition valid : float -> bool := valid_binary prec emax.

Definition is_nan (x : float) : bool :=
  match x with S754_nan => true | _ => false end.

(** Zero or a finite number: neither an infinity nor a NaN. *)
Definition is_finite (x : float) : bool :=
  match x with
  | S754_zero _ | S754_finite _ _ _ => true
  | _ => false
  end.

(** [(float)n] for an integer [n]: rounded to nearest even. *)
Definition of_int (n : Z) : float := binary_normalize prec emax n 0 false.

(** [(int32)x]: truncation toward zero.  Out of range and NaN inputs are
    undefined behaviour in C++; the model returns what the SSE conversion
    instruction gives there, the "integer indefinite" value. *)
Definition to_int32 (x : float) : Z :=
  match x with
  | S754_zero _ => 0
  | S754_finite s m e =>
      let t := Z.shiftl (Zpos m) e in
      let r := if s then - t else t in
      if (Int32.min_int <=? r) && (r <=? Int32.max_int) then r
      else Int32.min_int
  | _ => Int32.min_int
  end.

Definition zero : float := S754_zero false.
Definition one : float := Eval vm_compute in of_int 1.
Definition half : float := Eval vm_compute in div (of_int 1) (of_int 2).
Definition minus_one : float := Eval vm_compute in of_int (-1).

(** 2^31, the first value past the range of [int32]. *)
Definition two31 : float := Eval vm_compute in of_int 2147483648.

(** +0, or a well-formed number above 0 and at most 1. *)
Definition unit_value (x : float) : Prop :=
  x = zero \/ (valid x = true /\ ltb zero x = true /\ leb x one = true).

End F32.

Abbreviation float := F32.float.

(** ** FMath

    The engine's math helpers used by the node (UnrealMathUtility.h). They
    are generic templates there; here they are instantiated at [float]. *)

Module FMath.

(** [KINDA_SMALL_NUMBER] is [1.e-4f], [SMALL_NUMBER] is [1.e-8f]. Both
    literals denote the binary32 nearest to the decimal, which is the
    correctly rounded quotient of two exactly representable integers. *)
Definition KINDA_SMALL_NUMBER : float :=
  Eval vm_compute in F32.div (F32.of_int 1) (F32.of_int 10000).
Definition SMALL_NUMBER : float :=
  Eval vm_compute in F32.div (F32.of_int 1) (F32.of_int 100000000).

(** [Max(A, B) = (B < A) ? A : B] and [Min(A, B) = (A < B) ? A : B]. *)
Definition Max (A B : float) : float := if F32.ltb B A then A else B.
Definition Min (A B : float) : float := if F32.ltb A B then A else B.

(** [Clamp(X, Min, Max) = Max(Min(X, MaxValue), MinValue)]. *)
Definition Clamp (X MinValue MaxValue : float) : float :=
  Max (Min X MaxValue) MinValue.

Definition Abs (A : float) : float := F32.abs A.

(** [IsNearlyEqual(A, B, ErrorTolerance = SMALL_NUMBER)]. *)
Definition IsNearlyEqual (A B : float) : bool :=
  F32.leb (Abs (F32.sub A B)) SMALL_NUMBER.

Definition IsNearlyZero (A : float) : bool :=
  F32.leb (Abs A) SMALL_NUMBER.

(** [GetRangePct(MinValue, MaxValue, Value)]. *)
Definition GetRangePct (MinValue MaxValue Value : float) : float :=
  let Divisor := F32.sub MaxValue MinValue in
  if IsNearlyZero Divisor
  then (if F32.leb MaxValue Value then F32.one else F32.zero)
  else F32.div (F32.sub Value MinValue) Divisor.

(** [Lerp(A, B, Alpha) = A + Alpha * (B - A)]. *)
Definition Lerp (A B Alpha : float) : float :=
  F32.add A (F32.mul Alpha (F32.sub B A)).

(** [GetMappedRangeValueClamped(InputRange, OutputRange, Value)], with the
    two ranges given by their bounds. *)
Definition GetMappedRangeValueClamped
    (InLo InHi OutLo OutHi Value : float) : float :=
  let ClampedPct := Clamp (GetRangePct InLo InHi Value) F32.zero F32.one in
  Lerp OutLo OutHi ClampedPct.

End FMath.

(** ** Audio::FExponentialEase

    The smoothing helper of the engine's DSP library (DSP/Dsp.h) held by the
    envelope state. Only construction, [SetEaseFactor] and [SetValue] are
    used by the node. *)

Module FExponentialEase.

Record t : Type := Build {
  CurrentValue : float;
  Threshold : float;
  TargetValue : float;
  EaseFactor : float;
  OneMinusEase : float;
  EaseTimesTarget : float
}.

(** Default construction: [FExponentialEase(0.0f, 0.001f, KINDA_SMALL_NUMBER)]. *)
Definition Default : t :=
  let InEaseFactor := F32.div (F32.of_int 1) (F32.of_int 1000) in
  Build F32.zero FMath.KINDA_SMALL_NUMBER F32.zero InEaseFactor
        (F32.sub F32.one InEaseFactor) (F32.mul InEaseFactor F32.zero).

Definition SetEaseFactor (InEaseFactor : float) (e : t) : t :=
  Build (CurrentValue e) (Threshold e) (TargetValue e) InEaseFactor
        (F32.sub F32.one InEaseFactor) (EaseTimesTarget e).

Definition SetValue (InValue : float) (bIsInit : bool) (e : t) : t :=
  Build (if bIsInit then InValue else CurrentValue e) (Threshold e) InValue
        (EaseFactor e) (OneMinusEase e) (F32.mul (EaseFactor e) InValue).

(** [Init(InInitValue, InEaseFactor)]: every member but the threshold is
    set anew. *)
Definition Init (InInitValue InEaseFactor : float) (e : t) : t :=
  Build InInitValue (Threshold e) InInitValue InEaseFactor
        (F32.sub F32.one InEaseFactor) (F32.mul InInitValue InEaseFactor).

End FExponentialEase.

(** ** FEnvelopeState (lines 53-83) *)

Module FEnvelopeState.

Record t : Type := Build {
  CurrentSampleIndex : Z;
  AttackSampleCount : Z;
  DecaySampleCount : Z;
  AttackCurveFactor : float;
  DecayCurveFactor : float;
  EnvelopeEase : FExponentialEase.t;
  StartingEnvelopeValue : float;
  CurrentEnvelopeValue : float;
  bLooping : bool;
  bHardReset : bool
}.

(** The member initialisers of the struct. *)
Definition Default : t :=
  Build INDEX_NONE 1 1 F32.zero F32.zero FExponentialEase.Default
        F32.zero F32.zero false false.

Definition set_CurrentSampleIndex (v : Z) (s : t) : t :=
  Build v (AttackSampleCount s) (DecaySampleCount s) (AttackCurveFactor s)
        (DecayCurveFactor s) (EnvelopeEase s) (StartingEnvelopeValue s)
        (CurrentEnvelopeValue s) (bLooping s) (bHardReset s).

Definition set_AttackSampleCount (v : Z) (s : t) : t :=
  Build (CurrentSampleIndex s) v (DecaySampleCount s) (AttackCurveFactor s)
        (DecayCurveFactor s) (EnvelopeEase s) (StartingEnvelopeValue s)
        (CurrentEnvelopeValue s) (bLooping s) (bHardReset s).

Definition set_DecaySampleCount (v : Z) (s : t) : t :=
  Build (CurrentSampleIndex s) (AttackSampleCount s) v (AttackCurveFactor s)
        (DecayCurveFactor s) (EnvelopeEase s) (StartingEnvelopeValue s)
        (CurrentEnvelopeValue s) (bLooping s) (bHardReset s).

Definition set_AttackCurveFactor (v : float) (s : t) : t :=
  Build (CurrentSampleIndex s) (AttackSampleCount s) (DecaySampleCount s) v
        (DecayCurveFactor s) (EnvelopeEase s) (StartingEnvelopeValue s)
        (CurrentEnvelopeValue s) (bLooping s) (bHardReset s).

Definition set_DecayCurveFactor (v : float) (s : t) : t :=
  Build (CurrentSampleIndex s) (AttackSampleCount s) (DecaySampleCount s)
        (AttackCurveFactor s) v (EnvelopeEase s) (StartingEnvelopeValue s)
        (CurrentEnvelopeValue s) (bLooping s) (bHardReset s).

Definition set_EnvelopeEase (v : FExponentialEase.t) (s : t) : t :=
  Build (CurrentSampleIndex s) (AttackSampleCount s) (DecaySampleCount s)
        (AttackCurveFactor s) (DecayCurveFactor s) v (StartingEnvelopeValue s)
        (CurrentEnvelopeValue s) (bLooping s) (bHardReset s).

Definition set_StartingEnvelopeValue (v : float) (s : t) : t :=
  Build (CurrentSampleIndex s) (AttackSampleCount s) (DecaySampleCount s)
        (AttackCurveFactor s) (DecayCurveFactor s) (EnvelopeEase s) v
        (CurrentEnvelopeValue s) (bLooping s) (bHardReset s).

(** [Reset()] (lines 67-82). *)
Definition Reset (s : t) : t :=
  Build INDEX_NONE 1 1 F32.zero F32.zero
        (FExponentialEase.Init F32.zero (F32.div (F32.of_int 1) (F32.of_int 100))
           (EnvelopeEase s))
        F32.zero F32.zero false false.

(** The fields hold [int32] values and the total length of the envelope,
    attack plus decay, does not overflow. *)
Definition counts_fit (st : t) : Prop :=
  Int32.in_range (CurrentSampleIndex st)
  /\ Int32.in_range (AttackSampleCount st)
  /\ Int32.in_range (DecaySampleCount st)
  /\ Int32.in_range (AttackSampleCount st + DecaySampleCount st).

End FEnvelopeState.

(** ** Envelope (lines 85-131) *)

Module Envelope.
Section WithPow.

(** [FMath::Pow], the C library's [powf]; it is not part of the node and
    stays a parameter of the development. *)
Variable Pow : float -> float -> float.

Import FEnvelopeState.

(** [GetNextEnvelopeOutput(InState, StartFrame, EndFrame, OutFinishedFrames,
    OutEnvelopeValue)]. The three reference parameters are returned;
    [OutEnvelopeValue] is written on every path, so its incoming value is
    not an input. *)
Definition GetNextEnvelopeOutput (InState : t) (StartFrame EndFrame : Z)
    (OutFinishedFrames : list Z) : t * list Z * float :=
  if (0 <? StartFrame) || (CurrentSampleIndex InState =? INDEX_NONE) then
    (InState, OutFinishedFrames, F32.zero)
  else if CurrentSampleIndex InState <? AttackSampleCount InState then
    if 1 <? AttackSampleCount InState then
      let AttackFraction :=
        F32.div (F32.of_int (CurrentSampleIndex InState))
                (F32.of_int (AttackSampleCount InState)) in
      (set_CurrentSampleIndex (Int32.incr (CurrentSampleIndex InState)) InState,
       OutFinishedFrames,
       F32.add (StartingEnvelopeValue InState)
               (F32.mul (F32.sub F32.one (StartingEnvelopeValue InState))
                        (Pow AttackFraction (AttackCurveFactor InState))))
    else
      (set_CurrentSampleIndex (Int32.incr (CurrentSampleIndex InState)) InState,
       OutFinishedFrames, F32.one)
  else
    let TotalEnvSampleCount :=
      Int32.add (AttackSampleCount InState) (DecaySampleCount InState) in
    if CurrentSampleIndex InState <? TotalEnvSampleCount then
      let SampleCountInDecayState :=
        Int32.sub (CurrentSampleIndex InState) (AttackSampleCount InState) in
      let DecayFraction :=
        F32.div (F32.of_int SampleCountInDecayState)
                (F32.of_int (DecaySampleCount InState)) in
      (set_CurrentSampleIndex (Int32.incr (CurrentSampleIndex InState)) InState,
       OutFinishedFrames,
       F32.sub F32.one (Pow DecayFraction (DecayCurveFactor InState)))
    else
      (set_CurrentSampleIndex INDEX_NONE InState,
       OutFinishedFrames ++ [0],
       F32.zero).

Definition GetInitialOutputEnvelope : float := F32.zero.

(** [n] consecutive calls that start at frame 0, as a run of blocks
    without triggers makes them. Every call gets a fresh
    [FinishedFrames] array, as at the two call sites; the result lists,
    per call, the finished frames and the envelope value. *)
Fixpoint Run (EndFrame : Z) (n : nat) (st : t) : t * list (list Z * float) :=
  match n with
  | O => (st, [])
  | S n' =>
      let '(st1, fin, out) := GetNextEnvelopeOutput st 0 EndFrame [] in
      let '(st2, calls) := Run EndFrame n' st1 in
      (st2, (fin, out) :: calls)
  end.

End WithPow.
End Envelope.

(** ** FTrigger

    The host's block-scoped trigger stream (MetasoundTrigger.h): the sorted
    frame indices at which the trigger fires, relative to the start of the
    current block. The type belongs to the host, not to the node; the
    model keeps the three operations the node calls. *)

Module FTrigger.

Record t : Type := Build {
  TriggeredFrames : list Z;
  NumFramesPerBlock : Z
}.

Definition Empty (InNumFramesPerBlock : Z) : t := Build [] InNumFramesPerBlock.

(** Insertion that keeps the frames sorted. *)
Fixpoint insert_sorted (f : Z) (l : list Z) : list Z :=
  match l with
  | [] => [f]
  | g :: r => if g <? f then g :: insert_sorted f r else f :: l
  end.

Definition TriggerFrame (InFrameToTrigger : Z) (tr : t) : t :=
  Build (insert_sorted InFrameToTrigger (TriggeredFrames tr))
        (NumFramesPerBlock tr).

(** Moves to the next block: the frames of the finished block are dropped
    and later ones are shifted back by one block. *)
Definition AdvanceBlock (tr : t) : t :=
  Build ((fun f => f - NumFramesPerBlock tr) <$>
           filter (fun f => NumFramesPerBlock tr <= f) (TriggeredFrames tr))
        (NumFramesPerBlock tr).

(** The frames that fall in the current block. *)
Definition FramesInBlock (tr : t) : list Z :=
  filter (fun f => f < NumFramesPerBlock tr) (TriggeredFrames tr).

(** The sub-ranges a block is cut into: every trigger frame starts one,
    which ends at the next trigger frame or at the end of the block; the
    frames before the first trigger (the whole block when there is none)
    form one more. The flag tells whether the sub-range starts at a
    trigger. *)
Fixpoint TriggerRanges (EndOfBlock f : Z) (rest : list Z) : list (bool * Z * Z) :=
  match rest with
  | [] => [(true, f, EndOfBlock)]
  | g :: rest' => (true, f, g) :: TriggerRanges EndOfBlock g rest'
  end.

Definition SubRanges (tr : t) : list (bool * Z * Z) :=
  if NumFramesPerBlock tr <=? 0 then []
  else
    match FramesInBlock tr with
    | [] => [(false, 0, NumFramesPerBlock tr)]
    | f :: rest =>
        (if 0 <? f then [(false, 0, f)] else [])
          ++ TriggerRanges (NumFramesPerBlock tr) f rest
    end.

(** One sub-range goes to [InOnTrigger] when it starts at a trigger and to
    [InPreTrigger] otherwise. *)
Definition Dispatch {S : Type} (InPreTrigger InOnTrigger : Z -> Z -> S -> S)
    (r : bool * Z * Z) (s : S) : S :=
  let '(IsTrigger, StartFrame, EndFrame) := r in
  if IsTrigger then InOnTrigger StartFrame EndFrame s
  else InPreTrigger StartFrame EndFrame s.

(** [ExecuteBlock(InPreTrigger, InOnTrigger)]: the sub-ranges of the block,
    in order. *)
Definition ExecuteBlock {S : Type} (InPreTrigger InOnTrigger : Z -> Z -> S -> S)
    (tr : t) (s : S) : S :=
  foldl (fun s r => Dispatch InPreTrigger InOnTrigger r s) s (SubRanges tr).

End FTrigger.

(** ** Audio::FStateVariableFilter

    The filter of the engine's DSP library (DSP/Filter.h) is a black box to
    the node; what the node relies on is this interface. *)

Class StateVariableFilter (F : Type) : Type := {
  (** default construction *)
  FilterNew : F;
  FilterInit : float -> Z -> F -> F;
  SetQ : float -> F -> F;
  SetFrequency : float -> F -> F;
  SetBandStopControl : float -> F -> F;
  (** commits the pending parameters *)
  Update : F -> F;
  (** [ProcessAudio(InBuffer, NumSamples, OutBuffer)]: the new filter and
      the output buffer after the call *)
  ProcessAudio : list float -> Z -> list float -> F -> F * list float
}.

(** ** ELowPassGateMode (lines 22-27) *)

Inductive ELowPassGateMode : Type :=
  | LowPass
  | VCA
  | Both.

(** [for (int i = 0; i < Count; ++i) Body(i)], from index [i]. *)
Fixpoint for_range {S : Type} (i Count : nat) (Body : nat -> S -> S) (s : S) : S :=
  match Count with
  | O => s
  | Datatypes.S c => for_range (Datatypes.S i) c Body (Body i s)
  end.

(** ** FLowPassGateOperator (lines 133-453) *)

Module FLowPassGateOperator.

(** The read references bound at construction; the host writes the values
    they point to between two blocks. [AttackTime] and [DecayTime] hold
    what [GetSeconds()] yields once stored in a [float]. *)
Record Inputs : Type := BuildInputs {
  TriggerAttackIn : FTrigger.t;
  AttackTime : float;
  DecayTime : float;
  AttackCurveFactor : float;
  DecayCurveFactor : float;
  AudioInput : list float;
  CutOffFrequency : float;
  Mode : ELowPassGateMode
}.

Section Operator.

Variable Pow : float -> float -> float.
Context {Filter : Type} `{!StateVariableFilter Filter}.

Record t : Type := Build {
  In : Inputs;
  OnAttackTrigger : FTrigger.t;
  OnDone : FTrigger.t;
  OutEnvelope : float;
  AudioOutput : list float;
  SampleRate : float;
  NumFramesPerBlock : Z;
  EnvelopeState : FEnvelopeState.t;
  VariableFilter : Filter;
  PreviousFrequency : float;
  PreviousResonance : float;
  PreviousBandStopControl : float
}.

Definition set_In (v : Inputs) (op : t) : t :=
  Build v (OnAttackTrigger op) (OnDone op) (OutEnvelope op) (AudioOutput op)
        (SampleRate op) (NumFramesPerBlock op) (EnvelopeState op)
        (VariableFilter op) (PreviousFrequency op) (PreviousResonance op)
        (PreviousBandStopControl op).

Definition set_OnAttackTrigger (v : FTrigger.t) (op : t) : t :=
  Build (In op) v (OnDone op) (OutEnvelope op) (AudioOutput op)
        (SampleRate op) (NumFramesPerBlock op) (EnvelopeState op)
        (VariableFilter op) (PreviousFrequency op) (PreviousResonance op)
        (PreviousBandStopControl op).

Definition set_OnDone (v : FTrigger.t) (op : t) : t :=
  Build (In op) (OnAttackTrigger op) v (OutEnvelope op) (AudioOutput op)
        (SampleRate op) (NumFramesPerBlock op) (EnvelopeState op)
        (VariableFilter op) (PreviousFrequency op) (PreviousResonance op)
        (PreviousBandStopControl op).

Definition set_OutEnvelope (v : float) (op : t) : t :=
  Build (In op) (OnAttackTrigger op) (OnDone op) v (AudioOutput op)
        (SampleRate op) (NumFramesPerBlock op) (EnvelopeState op)
        (VariableFilter op) (PreviousFrequency op) (PreviousResonance op)
        (PreviousBandStopControl op).

Definition set_AudioOutput (v : list float) (op : t) : t :=
  Build (In op) (OnAttackTrigger op) (OnDone op) (OutEnvelope op) v
        (SampleRate op) (NumFramesPerBlock op) (EnvelopeState op)
        (VariableFilter op) (PreviousFrequency op) (PreviousResonance op)
        (PreviousBandStopControl op).

Definition set_EnvelopeState (v : FEnvelopeState.t) (op : t) : t :=
  Build (In op) (OnAttackTrigger op) (OnDone op) (OutEnvelope op)
        (AudioOutput op) (SampleRate op) (NumFramesPerBlock op) v
        (VariableFilter op) (PreviousFrequency op) (PreviousResonance op)
        (PreviousBandStopControl op).

Definition set_VariableFilter (v : Filter) (op : t) : t :=
  Build (In op) (OnAttackTrigger op) (OnDone op) (OutEnvelope op)
        (AudioOutput op) (SampleRate op) (NumFramesPerBlock op)
        (EnvelopeState op) v (PreviousFrequency op) (PreviousResonance op)
        (PreviousBandStopControl op).

Definition set_Previous (f r b : float) (op : t) : t :=
  Build (In op) (OnAttackTrigger op) (OnDone op) (OutEnvelope op)
        (AudioOutput op) (SampleRate op) (NumFramesPerBlock op)
        (EnvelopeState op) (VariableFilter op) f r b.

(** The constructor (lines 250-275), from the operator settings and the
    input references. The output buffer has one sample per frame. *)
Definition Construct (InSampleRate : float) (InNumFramesPerBlock : Z)
    (InInputs : Inputs) : t :=
  Build InInputs
        (FTrigger.Empty InNumFramesPerBlock)
        (FTrigger.Empty InNumFramesPerBlock)
        F32.zero
        (replicate (Z.to_nat InNumFramesPerBlock) F32.zero)
        InSampleRate InNumFramesPerBlock
        (FEnvelopeState.set_EnvelopeEase
           (FExponentialEase.SetEaseFactor
              (F32.div (F32.of_int 1) (F32.of_int 100))
              (FEnvelopeState.EnvelopeEase FEnvelopeState.Default))
           FEnvelopeState.Default)
        (FilterInit InSampleRate 1 FilterNew)
        F32.minus_one F32.minus_one F32.minus_one.

(** [UpdateParams] (lines 307-315). [FMath::Max(1, x)] with a [float]
    [x] is taken at [float]; the assignment to the [int32] count
    converts the result. *)
Definition UpdateParams (op : t) : t :=
  let AttackTimeSeconds := AttackTime (In op) in
  let DecayTimeSeconds := DecayTime (In op) in
  let es := EnvelopeState op in
  let es := FEnvelopeState.set_AttackSampleCount
              (F32.to_int32 (FMath.Max F32.one (F32.mul (SampleRate op) AttackTimeSeconds))) es in
  let es := FEnvelopeState.set_DecaySampleCount
              (F32.to_int32 (FMath.Max F32.one (F32.mul (SampleRate op) DecayTimeSeconds))) es in
  let es := FEnvelopeState.set_AttackCurveFactor
              (FMath.Max FMath.KINDA_SMALL_NUMBER (AttackCurveFactor (In op))) es in
  let es := FEnvelopeState.set_DecayCurveFactor
              (FMath.Max FMath.KINDA_SMALL_NUMBER (DecayCurveFactor (In op))) es in
  set_EnvelopeState es op.

(** The tail shared by the two lambdas: advance the envelope, write
    [*OutEnvelope], forward the finished frames to [OnDone]. *)
Definition AdvanceAndForward (StartFrame EndFrame : Z) (op : t) : t :=
  let FinishedFrames : list Z := [] in
  let '(es, FinishedFrames, env) :=
    Envelope.GetNextEnvelopeOutput Pow (EnvelopeState op) StartFrame EndFrame FinishedFrames in
  let op := set_OutEnvelope env (set_EnvelopeState es op) in
  foldl (fun o FrameFinished => set_OnDone (FTrigger.TriggerFrame FrameFinished (OnDone o)) o)
        op FinishedFrames.

(** The first lambda given to [ExecuteBlock] (lines 325-334, again
    408-417): a sub-range that does not start at a trigger. *)
Definition PreTriggerLambda (StartFrame EndFrame : Z) (op : t) : t :=
  AdvanceAndForward StartFrame EndFrame op.

(** The second lambda (lines 335-349, again 418-432): a sub-range that
    starts at a trigger. *)
Definition OnTriggerLambda (StartFrame EndFrame : Z) (op : t) : t :=
  let op := UpdateParams op in
  let es := EnvelopeState op in
  let es := FEnvelopeState.set_CurrentSampleIndex 0 es in
  let es := FEnvelopeState.set_StartingEnvelopeValue
              (if FEnvelopeState.bHardReset es then F32.zero
               else FEnvelopeState.CurrentEnvelopeValue es) es in
  let es := FEnvelopeState.set_EnvelopeEase
              (FExponentialEase.SetValue (FEnvelopeState.StartingEnvelopeValue es) true
                 (FEnvelopeState.EnvelopeEase es)) es in
  let op := set_EnvelopeState es op in
  let op := AdvanceAndForward StartFrame EndFrame op in
  set_OnAttackTrigger (FTrigger.TriggerFrame StartFrame (OnAttackTrigger op)) op.

(** The trigger dispatch of a block: lines 319-350 and, inlined in
    [Execute], lines 402-433. *)
Definition DispatchTriggers (op : t) : t :=
  let op := set_OnAttackTrigger (FTrigger.AdvanceBlock (OnAttackTrigger op)) op in
  let op := set_OnDone (FTrigger.AdvanceBlock (OnDone op)) op in
  let op := UpdateParams op in
  FTrigger.ExecuteBlock PreTriggerLambda OnTriggerLambda (TriggerAttackIn (In op)) op.

(** [CalculateEnvelope] (lines 317-351). *)
Definition CalculateEnvelope (op : t) : t := DispatchTriggers op.

(** [HandleLowPassFilter] (lines 353-376). *)
Definition HandleLowPassFilter (op : t) : t :=
  let CurrentFrequency :=
    FMath.Clamp (CutOffFrequency (In op)) F32.zero (F32.mul F32.half (SampleRate op)) in
  let CurrentResonance := FMath.Clamp F32.zero F32.zero (F32.of_int 10) in
  let CurrentBandStopControl := FMath.Clamp F32.zero F32.zero F32.one in
  let bNeedsUpdate :=
    negb (FMath.IsNearlyEqual (PreviousFrequency op) CurrentFrequency)
    || negb (FMath.IsNearlyEqual (PreviousResonance op) CurrentResonance)
    || negb (FMath.IsNearlyEqual (PreviousBandStopControl op) CurrentBandStopControl) in
  if bNeedsUpdate then
    let f := VariableFilter op in
    let f := SetQ CurrentResonance f in
    let f := SetFrequency CurrentFrequency f in
    let f := SetBandStopControl CurrentBandStopControl f in
    let f := Update f in
    set_Previous CurrentFrequency CurrentResonance CurrentBandStopControl
                 (set_VariableFilter f op)
  else op.

(** [for (i = 0; i < AudioInput->Num(); ++i) Out[i] = InputAudio[i] * Gain].
    The buffers have the block's length; a write past the end of [Out]
    is undefined in C++ and leaves the list as it is here. *)
Definition ScaleInto (InputAudio : list float) (Gain : float) (Out : list float)
    : list float :=
  for_range 0 (length InputAudio)
    (fun i out =>
       match InputAudio !! i with
       | Some x => <[i := F32.mul x Gain]> out
       | None => out
       end)
    Out.

(** [VariableFilter.ProcessAudio(Input, AudioInput->Num(), AudioOutput->GetData())]. *)
Definition RunFilter (Input : list float) (op : t) : t :=
  let '(f, out) :=
    ProcessAudio Input (Z.of_nat (length (AudioInput (In op)))) (AudioOutput op)
                 (VariableFilter op) in
  set_AudioOutput out (set_VariableFilter f op).

(** [Execute] (lines 378-453). *)
Definition Execute (op : t) : t :=
  match Mode (In op) with
  | LowPass =>
      let op := HandleLowPassFilter op in
      RunFilter (AudioInput (In op)) op
  | VCA =>
      let op := CalculateEnvelope op in
      set_AudioOutput
        (ScaleInto (AudioInput (In op)) (OutEnvelope op) (AudioOutput op)) op
  | Both =>
      let ClampedFreq :=
        FMath.GetMappedRangeValueClamped
          F32.zero (F32.of_int 20000) F32.zero F32.one (CutOffFrequency (In op)) in
      let op := DispatchTriggers op in
      let GateEnvelope := F32.mul (OutEnvelope op) ClampedFreq in
      let LocalBuffer := replicate (length (AudioInput (In op))) F32.zero in
      let LocalInput := ScaleInto (AudioInput (In op)) GateEnvelope LocalBuffer in
      let op := HandleLowPassFilter op in
      RunFilter LocalInput op
  end.

(** One block as the host runs it: the input references are refreshed,
    then [Execute] is called. *)
Definition Block (op : t) (i : Inputs) : t := Execute (set_In i op).

Definition Blocks (op : t) (l : list Inputs) : t := foldl Block op l.

(** *** Auxiliary definitions, used to state the properties *)

(** What the trigger lambda does before it advances the envelope. *)
Definition ResetForTrigger (op : t) : t :=
  let op := UpdateParams op in
  let es := EnvelopeState op in
  let es := FEnvelopeState.set_CurrentSampleIndex 0 es in
  let es := FEnvelopeState.set_StartingEnvelopeValue
              (if FEnvelopeState.bHardReset es then F32.zero
               else FEnvelopeState.CurrentEnvelopeValue es) es in
  let es := FEnvelopeState.set_EnvelopeEase
              (FExponentialEase.SetValue (FEnvelopeState.StartingEnvelopeValue es) true
                 (FEnvelopeState.EnvelopeEase es)) es in
  set_EnvelopeState es op.

(** The state the envelope is advanced from in a sub-range. *)
Definition SubRangeStart (IsTrigger : bool) (op : t) : FEnvelopeState.t :=
  EnvelopeState (if IsTrigger then ResetForTrigger op else op).

(** The operator as the lambdas first see it in a block. *)
Definition BlockStart (op : t) : t :=
  UpdateParams
    (set_OnDone (FTrigger.AdvanceBlock (OnDone op))
       (set_OnAttackTrigger (FTrigger.AdvanceBlock (OnAttackTrigger op)) op)).

(** The branch of [HandleLowPassFilter] that commits the parameters. *)
Definition Commit (op : t) : t :=
  let CurrentFrequency :=
    FMath.Clamp (CutOffFrequency (In op)) F32.zero (F32.mul F32.half (SampleRate op)) in
  set_Previous CurrentFrequency F32.zero F32.zero
    (set_VariableFilter
       (Update (SetBandStopControl F32.zero
                  (SetFrequency CurrentFrequency (SetQ F32.zero (VariableFilter op)))))
       op).

(** The part of the operator that neither lambda writes: the input
    references, the audio output, the settings, the filter and its cache,
    and, in the envelope state, [CurrentEnvelopeValue] and the two flags. *)
Definition dispatch_frame (op : t) : Inputs * list float * float * Z * Filter
                               * (float * float * float) * (float * bool * bool) :=
  (In op, AudioOutput op, SampleRate op, NumFramesPerBlock op, VariableFilter op,
   (PreviousFrequency op, PreviousResonance op, PreviousBandStopControl op),
   (FEnvelopeState.CurrentEnvelopeValue (EnvelopeState op),
    FEnvelopeState.bLooping (EnvelopeState op),
    FEnvelopeState.bHardReset (EnvelopeState op))).

(** The done trigger of an operator fires at frame 0 only, and counts its
    frames in blocks of a non-negative length. *)
Definition done_at_zero (op : t) : Prop :=
  0 <= FTrigger.NumFramesPerBlock (OnDone op)
  /\ Forall (fun f => f = 0) (FTrigger.TriggeredFrames (OnDone op)).

(** The inputs for which the refresh stays within defined behaviour: the
    sample rate and the two times are well-formed numbers, each product
    of rate and time is below 2^31 (so its conversion to [int32] is
    defined), and the curve inputs are not NaN. *)
Definition refresh_defined (op : t) : Prop :=
  F32.valid (SampleRate op) = true
  /\ F32.valid (AttackTime (In op)) = true
  /\ F32.valid (DecayTime (In op)) = true
  /\ F32.ltb (F32.mul (SampleRate op) (AttackTime (In op))) F32.two31 = true
  /\ F32.ltb (F32.mul (SampleRate op) (DecayTime (In op))) F32.two31 = true
  /\ F32.is_nan (AttackCurveFactor (In op)) = false
  /\ F32.is_nan (DecayCurveFactor (In op)) = false.

(** Nothing writes [CurrentEnvelopeValue] or [bHardReset], so once both
    are in their initial state the starting value of every attack is 0. *)
Definition baseline_stuck (op : t) : Prop :=
  FEnvelopeState.CurrentEnvelopeValue (EnvelopeState op) = F32.zero
  /\ FEnvelopeState.bHardReset (EnvelopeState op) = false
  /\ FEnvelopeState.StartingEnvelopeValue (EnvelopeState op) = F32.zero.

(** The filter got the frequency [c], with a Q and a band stop control of
    0, in the last commit made on it (lines 366-370), and has done nothing
    but process audio since. *)
Inductive committed_at (c : float) : Filter -> Prop :=
  | committed_now (f : Filter) :
      committed_at c
        (Update (SetBandStopControl F32.zero (SetFrequency c (SetQ F32.zero f))))
  | committed_then (Input : list float) (NumSamples : Z) (Out : list float) (f : Filter) :
      committed_at c f -> committed_at c (ProcessAudio Input NumSamples Out f).1.

(** The cache is in step with the filter: it holds the sentinels of the
    constructor and nothing was committed yet, or the filter was last
    committed at the cached frequency. *)
Definition cache_in_step (op : t) : Prop :=
  (PreviousFrequency op = F32.minus_one
   /\ PreviousResonance op = F32.minus_one
   /\ PreviousBandStopControl op = F32.minus_one)
  \/ (committed_at (PreviousFrequency op) (VariableFilter op)
      /\ PreviousResonance op = F32.zero
      /\ PreviousBandStopControl op = F32.zero).

End Operator.

Arguments t : clear implicits.

End FLowPassGateOperator.

(** ** What runs of blocks keep

    Predicates on operators, used to state the invariants of runs of
    blocks, and the part of an operator that can be observed. *)

Section RunInvariants.

Context {Filter : Type}.

Import FLowPassGateOperator.

Implicit Types op : t Filter.

(** An operator that waits for a trigger: the envelope is idle, its
    output is 0 and neither output trigger holds a frame. *)
Definition waiting op : Prop :=
  FEnvelopeState.CurrentSampleIndex (EnvelopeState op) = INDEX_NONE
  /\ OutEnvelope op = F32.zero
  /\ FTrigger.TriggeredFrames (OnDone op) = []
  /\ FTrigger.TriggeredFrames (OnAttackTrigger op) = [].

(** The index and the attack count are [int32] values, the index at
    least [INDEX_NONE]. *)
Definition index_safe op : Prop :=
  Int32.in_range (FEnvelopeState.AttackSampleCount (EnvelopeState op))
  /\ Int32.in_range (FEnvelopeState.CurrentSampleIndex (EnvelopeState op))
  /\ INDEX_NONE <= FEnvelopeState.CurrentSampleIndex (EnvelopeState op).

(** What a run of blocks with the inputs [i] keeps, from the operator
    [op0] on: a refresh yields the state it yields on [op0], with the
    index at [j]; the sample rate is that of [op0]; and the done trigger
    counts in blocks of the same length and holds frames at 0 only. *)
Definition quiet_inv (op0 : t Filter) (i : Inputs) (j : Z) (o : t Filter) : Prop :=
  EnvelopeState (UpdateParams (set_In i o))
  = FEnvelopeState.set_CurrentSampleIndex j (EnvelopeState (UpdateParams (set_In i op0)))
  /\ SampleRate o = SampleRate op0
  /\ FTrigger.NumFramesPerBlock (OnDone o) = FTrigger.NumFramesPerBlock (OnDone op0)
  /\ Forall (fun f => f = 0) (FTrigger.TriggeredFrames (OnDone o)).

(** The envelope state with the ease and the looping flag, the two
    members that are written but never read, set to fixed values; and
    the operator with such an envelope state. *)
Definition forget_state (st : FEnvelopeState.t) : FEnvelopeState.t :=
  FEnvelopeState.Build
    (FEnvelopeState.CurrentSampleIndex st) (FEnvelopeState.AttackSampleCount st)
    (FEnvelopeState.DecaySampleCount st) (FEnvelopeState.AttackCurveFactor st)
    (FEnvelopeState.DecayCurveFactor st) FExponentialEase.Default
    (FEnvelopeState.StartingEnvelopeValue st) (FEnvelopeState.CurrentEnvelopeValue st)
    false (FEnvelopeState.bHardReset st).

Definition forget (op : t Filter) : t Filter :=
  set_EnvelopeState (forget_state (EnvelopeState op)) op.

(** Inputs whose times give, at the sample rate [sr], sample counts of
    at least 1 with a sum within [int32]: the two conversions of the
    refresh and the sum of the counts are defined. *)
Definition countable (sr : float) (i : Inputs) : Prop :=
  let A := F32.to_int32 (FMath.Max F32.one (F32.mul sr (AttackTime i))) in
  let D := F32.to_int32 (FMath.Max F32.one (F32.mul sr (DecayTime i))) in
  1 <= A /\ 1 <= D /\ A + D <= Int32.max_int.

(** What the sub-ranges of a block with the inputs [i] keep, at the
    sample rate [sr]: the counts fit and the index is at least
    [INDEX_NONE]. *)
Definition fitting (sr : float) (i : Inputs) op : Prop :=
  In op = i /\ SampleRate op = sr
  /\ FEnvelopeState.counts_fit (EnvelopeState op)
  /\ INDEX_NONE <= FEnvelopeState.CurrentSampleIndex (EnvelopeState op).

(** [Pow] keeps a base that is +0, or above 0 and at most 1, such a
    value at the exponent [y]. *)
Definition unit_curve (Pow : float -> float -> float) (y : float) : Prop :=
  forall x, F32.unit_value x -> F32.unit_value (Pow x y).

(** Sample counts from 1 to below [2 ^ 24], so that every index and
    count converts to [float] without rounding, and curve factors at
    which [Pow] keeps the range. *)
Definition scaled (Pow : float -> float -> float) (st : FEnvelopeState.t) : Prop :=
  1 <= FEnvelopeState.AttackSampleCount st < 16777216
  /\ 1 <= FEnvelopeState.DecaySampleCount st < 16777216
  /\ unit_curve Pow (FEnvelopeState.AttackCurveFactor st)
  /\ unit_curve Pow (FEnvelopeState.DecayCurveFactor st).

(** Inputs that a refresh at the sample rate [sr] turns into such counts
    and curve factors. *)
Definition tame (Pow : float -> float -> float) (sr : float) (i : Inputs) : Prop :=
  1 <= F32.to_int32 (FMath.Max F32.one (F32.mul sr (AttackTime i))) < 16777216
  /\ 1 <= F32.to_int32 (FMath.Max F32.one (F32.mul sr (DecayTime i))) < 16777216
  /\ unit_curve Pow (FMath.Max FMath.KINDA_SMALL_NUMBER (AttackCurveFactor i))
  /\ unit_curve Pow (FMath.Max FMath.KINDA_SMALL_NUMBER (DecayCurveFactor i)).

(** What a run of blocks at the sample rate [sr] keeps, and what the
    sub-ranges of one block with the inputs [i] keep. *)
Definition run_inv (sr : float) op : Prop :=
  SampleRate op = sr /\ baseline_stuck op /\ index_safe op
  /\ F32.unit_value (OutEnvelope op).

Definition block_inv (Pow : float -> float -> float) (sr : float) (i : Inputs) op : Prop :=
  In op = i /\ run_inv sr op /\ scaled Pow (EnvelopeState op).

End RunInvariants.

(** ** The graph framework

    The part of the host's graph framework the node is built through
    (MetasoundVertex.h, MetasoundDataReferenceCollection.h): a pin has a
    name and a data type, and an operator receives and publishes its data
    references in collections keyed by pin name. The types belong to the
    host; the model keeps what the node uses of them. *)

Module Metasound.

Inductive DataType : Type :=
  | TriggerType
  | TimeType
  | FloatType
  | AudioType
  | LowPassGateModeType.

(** A data reference, by the value it points to. An [FTime] is held by
    its seconds. *)
Inductive DataRef : Type :=
  | TriggerRef (Value : FTrigger.t)
  | TimeRef (Seconds : float)
  | FloatRef (Value : float)
  | AudioRef (Value : list float)
  | ModeRef (Value : ELowPassGateMode).

Definition TypeOf (r : DataRef) : DataType :=
  match r with
  | TriggerRef _ => TriggerType
  | TimeRef _ => TimeType
  | FloatRef _ => FloatType
  | AudioRef _ => AudioType
  | ModeRef _ => LowPassGateModeType
  end.

(** A pin: [TInputDataVertex<T>(Name, Default)] or
    [TOutputDataVertex<T>(Name)]. *)
Record Vertex : Type := BuildVertex {
  VertexName : string;
  VertexType : DataType;
  DefaultLiteral : option float
}.

Record FVertexInterface : Type := BuildInterface {
  InputInterface : list Vertex;
  OutputInterface : list Vertex
}.

Record FOperatorSettings : Type := BuildSettings {
  GetSampleRate : float;
  GetNumFramesPerBlock : Z
}.

(** [FDataReferenceCollection]: the references by pin name. *)
Abbreviation FDataReferenceCollection := (gmap string DataRef).

(** Binding a name that is bound already replaces its reference. *)
Definition AddDataReadReference (InName : string) (InRef : DataRef)
    (c : FDataReferenceCollection) : FDataReferenceCollection :=
  <[InName := InRef]> c.

(** The default literal of the pin of that name; 0 when the pin has
    none. *)
Definition VertexDefault (Interface : list Vertex) (InName : string) : float :=
  match list_find (fun v => VertexName v = InName) Interface with
  | Some (_, v) => default F32.zero (DefaultLiteral v)
  | None => F32.zero
  end.

(** The types a collection holds, by name, and those a list of pins
    declares. *)
Definition TypesOf (c : FDataReferenceCollection) : gmap string DataType :=
  TypeOf <$> c.

Definition Declared (l : list Vertex) : gmap string DataType :=
  list_to_map ((fun v => (VertexName v, VertexType v)) <$> l).

(** The reference made for an input pin that a collection does not
    bind: built from the settings for a trigger or an audio buffer, from
    the pin's default literal for a time or a float, and the enum's
    declared default, [LowPass] (line 29), for the mode. *)
Definition NewReference (OperatorSettings : FOperatorSettings) (v : Vertex) : DataRef :=
  match VertexType v with
  | TriggerType => TriggerRef (FTrigger.Empty (GetNumFramesPerBlock OperatorSettings))
  | TimeType => TimeRef (default F32.zero (DefaultLiteral v))
  | FloatType => FloatRef (default F32.zero (DefaultLiteral v))
  | AudioType =>
      AudioRef (replicate (Z.to_nat (GetNumFramesPerBlock OperatorSettings)) F32.zero)
  | LowPassGateModeType => ModeRef LowPass
  end.

End Metasound.

(** ** The node's interface (lines 36-51, 206-248, 277-305) *)

Module FLowPassGateNode.

Import Metasound FLowPassGateOperator.

(** The pin names ([METASOUND_PARAM], lines 38-50). *)
Module LowPassGate.

Definition InputTrigger : string := "Trigger".
Definition InputAttackTime : string := "Attack Time".
Definition InputDecayTime : string := "Decay Time".
Definition InputAttackCurve : string := "Attack Curve".
Definition InputDecayCurve : string := "Decay Curve".
Definition InputAudio : string := "In".
Definition InputCutOff : string := "Cut Off".
Definition InputMode : string := "Mode".

Definition OutputTrigger : string := "On Trigger".
Definition OutputOnDone : string := "On Done".
Definition OutputEnvelope : string := "Envelope".
Definition OutputAudio : string := "Out".

End LowPassGate.

Import LowPassGate.

(** The literals [0.01f] and [1000.0f]. *)
Definition Literal_0_01 : float :=
  Eval vm_compute in F32.div (F32.of_int 1) (F32.of_int 100).
Definition Literal_1000 : float := Eval vm_compute in F32.of_int 1000.

(** [GetVertexInterface] (lines 206-230). *)
Definition GetVertexInterface : FVertexInterface :=
  BuildInterface
    [ BuildVertex InputTrigger TriggerType None;
      BuildVertex InputAttackTime TimeType (Some Literal_0_01);
      BuildVertex InputDecayTime TimeType (Some F32.one);
      BuildVertex InputAttackCurve FloatType (Some F32.one);
      BuildVertex InputDecayCurve FloatType (Some F32.one);
      BuildVertex InputAudio AudioType None;
      BuildVertex InputCutOff FloatType (Some Literal_1000);
      BuildVertex InputMode LowPassGateModeType None ]
    [ BuildVertex OutputTrigger TriggerType None;
      BuildVertex OutputOnDone TriggerType None;
      BuildVertex OutputEnvelope FloatType None;
      BuildVertex OutputAudio AudioType None ].

Section Node.

Context {Filter : Type} `{!StateVariableFilter Filter}.

(** [CreateOperator] (lines 232-248). Each input is the reference of that
    name and type in the collection, or else a new one: built from the
    settings for the trigger and the audio buffer, from the pin's default
    literal for the times and the floats, and default constructed for the
    mode. *)
Definition CreateOperator (OperatorSettings : FOperatorSettings)
    (InputDataReferences : FDataReferenceCollection) : t Filter :=
  let InputInterface := InputInterface GetVertexInterface in
  let TriggerIn :=
    match InputDataReferences !! InputTrigger with
    | Some (TriggerRef v) => v
    | _ => FTrigger.Empty (GetNumFramesPerBlock OperatorSettings)
    end in
  let Time (InName : string) :=
    match InputDataReferences !! InName with
    | Some (TimeRef v) => v
    | _ => VertexDefault InputInterface InName
    end in
  let Float (InName : string) :=
    match InputDataReferences !! InName with
    | Some (FloatRef v) => v
    | _ => VertexDefault InputInterface InName
    end in
  let AudioIn :=
    match InputDataReferences !! InputAudio with
    | Some (AudioRef v) => v
    | _ => replicate (Z.to_nat (GetNumFramesPerBlock OperatorSettings)) F32.zero
    end in
  let InMode :=
    match InputDataReferences !! InputMode with
    | Some (ModeRef v) => v
    | _ => LowPass
    end in
  Construct (GetSampleRate OperatorSettings) (GetNumFramesPerBlock OperatorSettings)
    (BuildInputs TriggerIn (Time InputAttackTime) (Time InputDecayTime)
                 (Float InputAttackCurve) (Float InputDecayCurve)
                 AudioIn (Float InputCutOff) InMode).

(** [GetInputs] (lines 277-292). *)
Definition GetInputs (op : t Filter) : FDataReferenceCollection :=
  let Inputs : FDataReferenceCollection := ∅ in
  let Inputs := AddDataReadReference InputTrigger (TriggerRef (TriggerAttackIn (In op))) Inputs in
  let Inputs := AddDataReadReference InputAttackTime (TimeRef (AttackTime (In op))) Inputs in
  let Inputs := AddDataReadReference InputDecayTime (TimeRef (DecayTime (In op))) Inputs in
  let Inputs :=
    AddDataReadReference InputAttackCurve (FloatRef (AttackCurveFactor (In op))) Inputs in
  let Inputs :=
    AddDataReadReference InputDecayCurve (FloatRef (DecayCurveFactor (In op))) Inputs in
  let Inputs := AddDataReadReference InputAudio (AudioRef (AudioInput (In op))) Inputs in
  let Inputs := AddDataReadReference InputCutOff (FloatRef (CutOffFrequency (In op))) Inputs in
  let Inputs := AddDataReadReference InputMode (ModeRef (Mode (In op))) Inputs in
  Inputs.

(** [GetOutputs] (lines 294-305). *)
Definition GetOutputs (op : t Filter) : FDataReferenceCollection :=
  let Outputs : FDataReferenceCollection := ∅ in
  let Outputs := AddDataReadReference OutputTrigger (TriggerRef (OnAttackTrigger op)) Outputs in
  let Outputs := AddDataReadReference OutputOnDone (TriggerRef (OnDone op)) Outputs in
  let Outputs := AddDataReadReference OutputEnvelope (FloatRef (OutEnvelope op)) Outputs in
  let Outputs := AddDataReadReference OutputAudio (AudioRef (AudioOutput op)) Outputs in
  Outputs.

End Node.

End FLowPassGateNode.

(** ** Concrete instances, used to run the model *)

(** [powf] on the arguments where the C standard fixes its value and the
    runs below need it: [powf(+0, y) = +0] for [y > 0] and [powf(x, 1) = x].
    Everywhere else this instance answers NaN; no run below gets there. *)
Definition PowSpecial (x y : float) : float :=
  match x with
  | S754_zero false => if F32.ltb F32.zero y then F32.zero else S754_nan
  | _ => if F32.eqb y F32.one then x else S754_nan
  end.

(** A filter that records its parameters and copies its input. *)
Module CopyFilter.

Record t : Type := Build {
  Frequency : float;
  Q : float;
  BandStopControl : float;
  Commits : nat
}.

Definition Process (InBuffer : list float) (NumSamples : Z) (OutBuffer : list float)
    (f : t) : t * list float :=
  (f, take (Z.to_nat NumSamples) InBuffer ++ drop (Z.to_nat NumSamples) OutBuffer).

#[global] Instance filter : StateVariableFilter t := {
  FilterNew := Build F32.zero F32.zero F32.zero 0;
  FilterInit := fun _ _ f => f;
  SetQ := fun q f => Build (Frequency f) q (BandStopControl f) (Commits f);
  SetFrequency := fun v f => Build v (Q f) (BandStopControl f) (Commits f);
  SetBandStopControl := fun b f => Build (Frequency f) (Q f) b (Commits f);
  Update := fun f => Build (Frequency f) (Q f) (BandStopControl f) (S (Commits f));
  ProcessAudio := Process
}.

End CopyFilter.


(** ** The specification's reading of the sample counts

    The written specification derives a count as
    [max(1, round(sample_rate * seconds))]. [Spec.SampleCount] follows
    those words, to be compared with what [UpdateParams] computes. *)

Module Spec.

(** The integer nearest to a finite [float], halves away from zero. *)
Definition round (x : float) : Z :=
  match x with
  | S754_finite s m e =>
      let twice := Z.shiftl (Zpos m) (e + 1) in
      let r := (twice + 1) / 2 in
      if s then - r else r
  | _ => 0
  end.

Definition SampleCount (SampleRate Seconds : float) : Z :=
  Z.max 1 (round (F32.mul SampleRate Seconds)).

End Spec.

(** ** Concrete operators, used in the examples *)

Module Examples.

Import FLowPassGateOperator.

Definition SampleRate48k : float := F32.of_int 48000.

(** One millisecond and 2^-14 seconds. *)
Definition Millisecond : float := F32.div (F32.of_int 1) (F32.of_int 1000).
Definition Seconds_2_14 : float := F32.div (F32.of_int 1) (F32.of_int 16384).

(** Inputs of a block of four frames: attack 1 ms, decay 1 s, linear
    curves, constant audio 1.0, cut off 1000. *)
Definition inputs (Triggers : list Z) (m : ELowPassGateMode) : Inputs :=
  BuildInputs (FTrigger.Build Triggers 4) Millisecond (F32.of_int 1)
              F32.one F32.one (replicate 4 F32.one) (F32.of_int 1000) m.

(** The same with an attack of 2^-14 s, which is 2.9296875 samples. *)
Definition short_attack (Triggers : list Z) (m : ELowPassGateMode) : Inputs :=
  BuildInputs (FTrigger.Build Triggers 4) Seconds_2_14 (F32.of_int 1)
              F32.one F32.one (replicate 4 F32.one) (F32.of_int 1000) m.

(** The same with an attack time of 0: an instant attack. *)
Definition instant (Triggers : list Z) (m : ELowPassGateMode) : Inputs :=
  BuildInputs (FTrigger.Build Triggers 4) F32.zero (F32.of_int 1)
              F32.one F32.one (replicate 4 F32.one) (F32.of_int 1000) m.

(** Attack and decay times of 0: one attack and one decay sample. *)
Definition click (Triggers : list Z) (m : ELowPassGateMode) : Inputs :=
  BuildInputs (FTrigger.Build Triggers 4) F32.zero F32.zero
              F32.one F32.one (replicate 4 F32.one) (F32.of_int 1000) m.

Definition fresh (m : ELowPassGateMode) : t CopyFilter.t :=
  Construct SampleRate48k 4 (inputs [] m).

(** The operator after a block with a trigger at frame 0 and one without
    trigger: the envelope is in its attack, at index 2 of 48. *)
Definition mid_attack : t CopyFilter.t :=
  Blocks PowSpecial (fresh VCA) [inputs [0] VCA; inputs [] VCA].

(** The operator one block into an attack of two samples, about to
    process a block without trigger. *)
Definition half_way : t CopyFilter.t :=
  set_In (short_attack [] VCA)
         (Blocks PowSpecial (fresh VCA) [short_attack [0] VCA]).

(** An envelope state in its attack: index 1 of 48, then 48000 of decay. *)
Definition attacking : FEnvelopeState.t :=
  FEnvelopeState.Build 1 48 48000 F32.one F32.one FExponentialEase.Default
                       F32.zero F32.zero false false.

(** An envelope state at the start of a run with one attack and one decay
    sample. *)
Definition one_one : FEnvelopeState.t :=
  FEnvelopeState.Build 0 1 1 F32.one F32.one FExponentialEase.Default
                       F32.zero F32.zero false false.

(** The operator after a block with a trigger at frame 0, with one attack
    and one decay sample: the envelope is at index 1 of 2. *)
Definition clicked : t CopyFilter.t :=
  Blocks PowSpecial (fresh VCA) [click [0] VCA].

(** An envelope state at its first decay sample, after an attack of one
    sample. *)
Definition decaying : FEnvelopeState.t :=
  FEnvelopeState.Build 1 1 1 F32.one F32.one FExponentialEase.Default
                       F32.zero F32.zero false false.

(** The inputs of [inputs] without trigger and with another cut off. *)
Definition tuned (CutOff : float) (m : ELowPassGateMode) : Inputs :=
  BuildInputs (FTrigger.Build [] 4) Millisecond (F32.of_int 1)
              F32.one F32.one (replicate 4 F32.one) CutOff m.

(** An operator whose filter cache holds 1000, about to see a cut off of
    2000. *)
Definition retuned : t CopyFilter.t :=
  set_In (tuned (F32.of_int 2000) LowPass) (HandleLowPassFilter (fresh LowPass)).

(** The fresh operator with another ease and the looping flag set. *)
Definition eased : t CopyFilter.t :=
  set_EnvelopeState
    (FEnvelopeState.Build INDEX_NONE 1 1 F32.zero F32.zero
       (FExponentialEase.SetValue F32.one true FExponentialEase.Default)
       F32.zero F32.zero true false)
    (fresh VCA).

End Examples.

(** ** Rounding to binary32: two notions

    Used to state what the Standard Library's [binary_round_aux] yields at
    24 bits of precision. *)

Module Rounding.

(** The exponent a mantissa [m] at exponent [e] is shifted to: its own,
    or the one that leaves 24 digits, or the least exponent. *)
Definition target (m e : Z) : Z := Z.max e (Z.max (Zdigits2 m + e - 24) (-149)).

(** A result of rounding with sign [s] whose magnitude exponent, digits
    plus exponent, was [k] before rounding: well formed; zero only below
    the normal range, infinite only above it. *)
Definition rounded (s : bool) (k : Z) (r : spec_float) : Prop :=
  valid_binary F32.prec F32.emax r = true
  /\ (r = S754_zero s \/ r = S754_infinity s
      \/ exists m e, r = S754_finite s m e
           /\ Z.max (k - 24) (-149) <= e <= Z.max (k - 24) (-149) + 1)
  /\ (k <= 127 -> r <> S754_infinity s)
  /\ (-125 <= k -> r <> S754_zero s).

End Rounding.

(** * Properties *)

(** ** int32 arithmetic *)

Module Int32Facts.

Import Int32.

Lemma wrap_in_range (z : Z) : in_range z -> wrap z = z.
Proof.
  unfold in_range, wrap, min_int, max_int. intros H.
  rewrite Z.mod_small; lia.
Qed.

Lemma wrap_range (z : Z) : in_range (wrap z).
Proof.
  unfold in_range, wrap, min_int, max_int.
  pose proof (Z.mod_pos_bound (z + 2147483648) 4294967296 ltac:(lia)). lia.
Qed.

Lemma incr_exact (a b : Z) : in_range a -> in_range b -> a < b -> incr a = a + 1.
Proof.
  unfold incr, in_range, min_int, max_int. intros Ha Hb Hlt.
  apply wrap_in_range. unfold in_range, min_int, max_int. lia.
Qed.

Lemma add_exact (a b : Z) : in_range (a + b) -> add a b = a + b.
Proof. apply wrap_in_range. Qed.

Lemma sub_exact (a b : Z) : in_range (a - b) -> sub a b = a - b.
Proof. apply wrap_in_range. Qed.

End Int32Facts.

(** ** float comparisons and the clamps *)

Module F32Facts.

Lemma ltb_leb (a b : float) : F32.ltb a b = true -> F32.leb a b = true.
Proof.
  unfold F32.ltb, F32.leb, SFltb, SFleb.
  destruct (SFcompare a b) as [[| |]|]; intros H; try discriminate; reflexivity.
Qed.

Lemma ltb_not_nan (a b : float) :
  F32.ltb a b = true -> F32.is_nan a = false /\ F32.is_nan b = false.
Proof.
  unfold F32.ltb, SFltb. destruct a, b; cbn; intros H; try discriminate; auto.
Qed.

(** A finite number is nearly equal to itself: the difference is 0. *)
Lemma sub_diag (x : float) : F32.is_finite x = true -> F32.sub x x = F32.zero.
Proof.
  destruct x as [s|s| |s m e]; cbn [F32.is_finite]; intros H; try discriminate.
  - destruct s; reflexivity.
  - unfold F32.sub, SFsub. rewrite Z.min_id.
    set (z := cond_Zopp _ _).
    replace (IntDef.Z.sub z z) with 0 by (change (0 = Z.sub z z); lia).
    reflexivity.
Qed.

Lemma IsNearlyEqual_refl (x : float) :
  F32.is_finite x = true -> FMath.IsNearlyEqual x x = true.
Proof.
  intros H. unfold FMath.IsNearlyEqual. rewrite (sub_diag x H). reflexivity.
Qed.

(** [Max] and [Min] return one of their arguments. *)
Lemma Max_cases (A B : float) :
  (F32.ltb B A = true /\ FMath.Max A B = A)
  \/ (F32.ltb B A = false /\ FMath.Max A B = B).
Proof. unfold FMath.Max. destruct (F32.ltb B A); auto. Qed.

Lemma Min_cases (A B : float) :
  (F32.ltb A B = true /\ FMath.Min A B = A)
  \/ (F32.ltb A B = false /\ FMath.Min A B = B).
Proof. unfold FMath.Min. destruct (F32.ltb A B); auto. Qed.

(** A clamp is the lower bound, the upper bound, or the value itself when
    it lies strictly between them. *)
Lemma Clamp_cases (X Lo Hi : float) :
  FMath.Clamp X Lo Hi = Lo
  \/ (FMath.Clamp X Lo Hi = Hi /\ F32.ltb Lo Hi = true)
  \/ (FMath.Clamp X Lo Hi = X /\ F32.ltb Lo X = true /\ F32.ltb X Hi = true).
Proof.
  unfold FMath.Clamp.
  destruct (Min_cases X Hi) as [[Hlt ->]|[Hlt ->]];
  match goal with
  | |- context [FMath.Max ?a ?b] => destruct (Max_cases a b) as [[H ->]|[H ->]]
  end; auto.
Qed.

Lemma between_finite (X Lo Hi : float) :
  F32.is_finite Lo = true -> F32.is_finite Hi = true ->
  F32.ltb Lo X = true -> F32.ltb X Hi = true -> F32.is_finite X = true.
Proof.
  unfold F32.ltb, SFltb.
  destruct X as [s|[|]| |s m e]; try reflexivity;
    destruct Lo as [sl|sl| |sl ml el]; cbn; try discriminate;
    destruct Hi as [sh|sh| |sh mh eh]; cbn; try discriminate.
Qed.

Lemma Clamp_finite (X Lo Hi : float) :
  F32.is_finite Lo = true -> F32.is_finite Hi = true ->
  F32.is_finite (FMath.Clamp X Lo Hi) = true.
Proof.
  intros HLo HHi.
  destruct (Clamp_cases X Lo Hi) as [->|[[-> _]|(-> & H1 & H2)]]; try assumption.
  apply (between_finite X Lo Hi); assumption.
Qed.

(** A clamp to [0, 1] lies in [0, 1], whatever is clamped. *)
Lemma Clamp_unit (X : float) :
  F32.leb F32.zero (FMath.Clamp X F32.zero F32.one) = true
  /\ F32.leb (FMath.Clamp X F32.zero F32.one) F32.one = true.
Proof.
  destruct (Clamp_cases X F32.zero F32.one) as [->|[[-> _]|(-> & H1 & H2)]].
  - split; reflexivity.
  - split; reflexivity.
  - split; apply ltb_leb; assumption.
Qed.

End F32Facts.

(** ** Rounding to binary32

    What the Standard Library's [binary_round_aux] yields at 24 bits of
    precision, stated on integers: enough to know when a result is well
    formed, finite, or different from zero. *)

Module RoundingFacts.

Import F32 Rounding.

Lemma fexp_def (k : Z) : fexp prec emax k = Z.max (k - 24) (-149).
Proof. reflexivity. Qed.

Lemma digits2_pos_size (p : positive) : digits2_pos p = Pos.size p.
Proof. induction p; cbn; congruence. Qed.

Lemma Zdigits2_log2 (z : Z) : 0 < z -> Zdigits2 z = Z.log2 z + 1.
Proof.
  destruct z as [|p|p]; try lia. intros _. cbn [Zdigits2].
  rewrite digits2_pos_size. destruct p; cbn; lia.
Qed.

(** [digits x = j] exactly when [2^(j-1) <= x < 2^j]. *)
Lemma Zdigits2_bounds (z : Z) : 0 < z -> 2 ^ (Zdigits2 z - 1) <= z < 2 ^ Zdigits2 z.
Proof.
  intros H. rewrite Zdigits2_log2 by assumption.
  replace (Z.log2 z + 1 - 1) with (Z.log2 z) by lia.
  apply Z.log2_spec. assumption.
Qed.

Lemma Zdigits2_unique (z j : Z) : 0 < j -> 2 ^ (j - 1) <= z < 2 ^ j -> Zdigits2 z = j.
Proof.
  intros Hj H.
  assert (0 < z) by (pose proof (Z.pow_pos_nonneg 2 (j - 1)); lia).
  rewrite Zdigits2_log2 by assumption.
  rewrite (Z.log2_unique z (j - 1)); [lia|lia|].
  replace (Z.succ (j - 1)) with j by lia. assumption.
Qed.

Lemma Zdigits2_pos (z : Z) : 0 < z -> 0 < Zdigits2 z.
Proof.
  intros H. rewrite Zdigits2_log2 by assumption.
  pose proof (Z.log2_nonneg z). lia.
Qed.

Lemma shr_1_m (mrs : shr_record) :
  0 <= shr_m mrs -> shr_m (shr_1 mrs) = shr_m mrs / 2.
Proof.
  destruct mrs as [m r s]. cbn [shr_m]. intros H.
  rewrite <- Z.div2_div.
  destruct m as [|[p|p|]|p]; try reflexivity. lia.
Qed.

Lemma pow2_xI (p : positive) : 2 ^ Zpos p~1 = 2 * 2 ^ Zpos p * 2 ^ Zpos p.
Proof.
  replace (Z.pos p~1) with (Z.pos p + Z.pos p + 1) by lia.
  rewrite Z.pow_add_r by lia. rewrite Z.pow_add_r by lia.
  change (2 ^ 1) with 2. lia.
Qed.

Lemma pow2_xO (p : positive) : 2 ^ Zpos p~0 = 2 ^ Zpos p * 2 ^ Zpos p.
Proof.
  replace (Z.pos p~0) with (Z.pos p + Z.pos p) by lia.
  rewrite Z.pow_add_r by lia. reflexivity.
Qed.

Lemma pow2_pos (k : Z) : 0 <= k -> 0 < 2 ^ k.
Proof. intros H. apply Z.pow_pos_nonneg; lia. Qed.

Lemma iter_shr_1 (p : positive) (mrs : shr_record) :
  0 <= shr_m mrs ->
  shr_m (SpecFloat.iter_pos shr_1 p mrs) = shr_m mrs / 2 ^ Zpos p.
Proof.
  revert mrs. induction p as [p IH|p IH|]; intros mrs H; cbn [SpecFloat.iter_pos].
  - pose proof (pow2_pos (Zpos p) ltac:(lia)) as Hp.
    assert (H1 : 0 <= shr_m (shr_1 mrs))
      by (rewrite shr_1_m by assumption; apply Z.div_pos; lia).
    assert (H2 : 0 <= shr_m (SpecFloat.iter_pos shr_1 p (shr_1 mrs)))
      by (rewrite IH by assumption; apply Z.div_pos; assumption).
    rewrite IH, IH, shr_1_m by assumption.
    rewrite !Z.div_div by lia. rewrite pow2_xI. f_equal. lia.
  - pose proof (pow2_pos (Zpos p) ltac:(lia)) as Hp.
    assert (H2 : 0 <= shr_m (SpecFloat.iter_pos shr_1 p mrs))
      by (rewrite IH by assumption; apply Z.div_pos; assumption).
    rewrite IH, IH by assumption.
    rewrite !Z.div_div by lia. rewrite pow2_xO. f_equal.
  - rewrite shr_1_m by assumption. reflexivity.
Qed.

(** The mantissa and exponent [shr_fexp] leaves. *)
Lemma shr_fexp_spec (m e : Z) (l : location) :
  0 <= m ->
  shr_m (fst (shr_fexp prec emax m e l)) = m / 2 ^ (target m e - e)
  /\ snd (shr_fexp prec emax m e l) = target m e.
Proof.
  intros Hm. unfold shr_fexp, target. rewrite fexp_def.
  set (f := Z.max (Zdigits2 m + e - 24) (-149)) in *.
  assert (Hrec : shr_m (shr_record_of_loc m l) = m)
    by (destruct l as [|[| |]]; reflexivity).
  unfold shr. destruct (f - e) as [|p|p] eqn:E.
  - cbn [fst snd]. rewrite Hrec. replace (Z.max e f - e) with 0 by lia.
    rewrite Z.div_1_r. split; [reflexivity|lia].
  - cbn [fst snd]. rewrite iter_shr_1, Hrec by (rewrite Hrec; assumption).
    replace (Z.max e f - e) with (Z.pos p) by lia. split; [reflexivity|lia].
  - cbn [fst snd]. rewrite Hrec. replace (Z.max e f - e) with 0 by lia.
    rewrite Z.div_1_r. split; [reflexivity|lia].
Qed.

Lemma round_nearest_even_cases (m : Z) (l : location) :
  round_nearest_even m l = m \/ round_nearest_even m l = m + 1.
Proof.
  unfold round_nearest_even. destruct l as [|[| |]]; auto.
  destruct (Z.even m); auto.
Qed.

(** The shape of [binary_round_aux]: shift to the target exponent, round,
    shift once more if the rounding carried. *)
Lemma binary_round_aux_shape (s : bool) (M E : Z) (l : location) :
  0 <= M ->
  exists m1,
    (m1 = M / 2 ^ (target M E - E) \/ m1 = M / 2 ^ (target M E - E) + 1)
    /\ binary_round_aux prec emax s M E l =
         match m1 / 2 ^ (target m1 (target M E) - target M E) with
         | Z0 => S754_zero s
         | Zpos m =>
             if target m1 (target M E) <=? 104
             then S754_finite s m (target m1 (target M E))
             else S754_infinity s
         | Zneg _ => S754_nan
         end.
Proof.
  intros HM. unfold binary_round_aux.
  destruct (shr_fexp_spec M E l ltac:(lia)) as [Hm1 He1].
  destruct (shr_fexp prec emax M E l) as [mrs' e'] eqn:E1. cbn [fst snd] in Hm1, He1.
  subst e'.
  set (m1 := round_nearest_even (shr_m mrs') (loc_of_shr_record mrs')).
  exists m1. split.
  { subst m1. rewrite <- Hm1. apply round_nearest_even_cases. }
  assert (H1 : 0 <= m1).
  { assert (0 <= shr_m mrs') by (rewrite Hm1; apply Z.div_pos; [lia|apply pow2_pos; unfold target; lia]).
    subst m1. destruct (round_nearest_even_cases (shr_m mrs') (loc_of_shr_record mrs')) as [-> | ->]; lia. }
  destruct (shr_fexp_spec m1 (target M E) loc_Exact H1) as [Hm2 He2].
  destruct (shr_fexp prec emax m1 (target M E) loc_Exact) as [mrs'' e''] eqn:E2.
  cbn [fst snd] in Hm2, He2.
  subst e''. rewrite Hm2. reflexivity.
Qed.

(** *** Quotients by powers of two *)

Lemma div_pow2_upper (M n j : Z) :
  0 <= n -> 0 <= j -> M < 2 ^ (n + j) -> M / 2 ^ n < 2 ^ j.
Proof.
  intros Hn Hj HM. apply Z.div_lt_upper_bound; [apply pow2_pos; assumption|].
  rewrite <- Z.pow_add_r by assumption. assumption.
Qed.

Lemma div_pow2_lower (M n j : Z) :
  0 <= n -> 0 <= j -> 2 ^ (n + j) <= M -> 2 ^ j <= M / 2 ^ n.
Proof.
  intros Hn Hj HM. apply Z.div_le_lower_bound; [apply pow2_pos; assumption|].
  rewrite <- Z.pow_add_r by assumption. assumption.
Qed.

Lemma Zdigits2_le (z j : Z) : 0 < z -> z < 2 ^ j -> Zdigits2 z <= j.
Proof.
  intros Hz Hlt.
  destruct (Z.le_gt_cases (Zdigits2 z) j) as [H|H]; [assumption|].
  pose proof (Zdigits2_bounds z Hz) as [Hlo _].
  assert (0 <= j).
  { destruct (Z.le_gt_cases 0 j); [assumption|].
    rewrite Z.pow_neg_r in Hlt by assumption. lia. }
  assert (2 ^ j <= 2 ^ (Zdigits2 z - 1)) by (apply Z.pow_le_mono_r; lia).
  lia.
Qed.

(** *** What [binary_round_aux] returns *)

Lemma rounded_result (s : bool) (k : Z) (m : positive) (e : Z) :
  Z.max (Zdigits2 (Zpos m) + e - 24) (-149) = e ->
  Z.max (k - 24) (-149) <= e <= Z.max (k - 24) (-149) + 1 ->
  rounded s k (if e <=? 104 then S754_finite s m e else S754_infinity s).
Proof.
  intros Hcan He. unfold rounded.
  destruct (e <=? 104) eqn:E.
  - apply Z.leb_le in E. split; [|split; [|split]].
    + cbn [valid_binary]. unfold bounded, canonical_mantissa.
      rewrite fexp_def. change (Z.pos (digits2_pos m)) with (Zdigits2 (Zpos m)).
      apply andb_true_intro.
      split; [apply Z.eqb_eq; lia|apply Z.leb_le; change (emax - prec) with 104; lia].
    + right; right. exists m, e. auto.
    + intros _. discriminate.
    + intros _. discriminate.
  - apply Z.leb_gt in E. split; [|split; [|split]].
    + reflexivity.
    + right; left; reflexivity.
    + intros Hk. lia.
    + intros _. discriminate.
Qed.

Lemma binary_round_aux_rounded (s : bool) (M E : Z) (l : location) :
  0 < M ->
  E <= Z.max (Zdigits2 M + E - 24) (-149) ->
  rounded s (Zdigits2 M + E) (binary_round_aux prec emax s M E l).
Proof.
  intros HM Hpre.
  destruct (binary_round_aux_shape s M E l ltac:(lia)) as (m1 & Hm1 & ->).
  pose proof (Zdigits2_bounds M HM) as [HMlo HMhi].
  pose proof (Zdigits2_pos M HM) as Hd.
  set (d := Zdigits2 M) in *. set (k := d + E) in *.
  assert (Ht1 : target M E = Z.max (k - 24) (-149)) by (unfold target; fold d; lia).
  rewrite Ht1 in *. set (f := Z.max (k - 24) (-149)) in *.
  destruct (Z.le_gt_cases (-149) (k - 24)) as [Hnorm|Hsub].
  - (* normal range: 24 digits are kept *)
    assert (Hf : f = k - 24) by lia.
    assert (Hn : f - E = d - 24) by lia.
    assert (Hlo : 2 ^ 23 <= M / 2 ^ (f - E)).
    { apply div_pow2_lower; [lia|lia|].
      replace (f - E + 23) with (d - 1) by lia. assumption. }
    assert (Hhi : M / 2 ^ (f - E) < 2 ^ 24).
    { apply div_pow2_upper; [lia|lia|].
      replace (f - E + 24) with d by lia. assumption. }
    assert (Hcase : (2 ^ 23 <= m1 < 2 ^ 24) \/ m1 = 2 ^ 24) by lia.
    destruct Hcase as [Hin|Hcarry].
    + assert (Hd1 : Zdigits2 m1 = 24) by (apply Zdigits2_unique; [lia|exact Hin]).
      assert (Ht2 : target m1 f = f) by (unfold target; lia).
      rewrite Ht2. replace (f - f) with 0 by lia. rewrite Z.div_1_r.
      destruct m1 as [|p|p]; try (cbn in Hin; lia).
      apply rounded_result; lia.
    + assert (Hd1 : Zdigits2 m1 = 25) by (subst m1; reflexivity).
      assert (Ht2 : target m1 f = f + 1) by (unfold target; lia).
      rewrite Ht2. replace (f + 1 - f) with 1 by lia. subst m1.
      change (2 ^ 24 / 2 ^ 1) with (Zpos 8388608).
      apply rounded_result; [change (Zdigits2 (Z.pos 8388608)) with 24; lia|lia].
  - (* below the normal range: the exponent is the least one *)
    assert (Hf : f = -149) by lia.
    assert (Hhi : M / 2 ^ (f - E) < 2 ^ 23).
    { apply div_pow2_upper; [lia|lia|].
      apply Z.lt_le_trans with (1 := HMhi). apply Z.pow_le_mono_r; lia. }
    assert (Hnn : 0 <= M / 2 ^ (f - E)) by (apply Z.div_pos; [lia|apply pow2_pos; lia]).
    assert (H1 : 0 <= m1 <= 2 ^ 23) by lia.
    destruct (Z.eq_dec m1 0) as [->|Hne].
    + rewrite Z.div_0_l by (apply Z.pow_nonzero; unfold target; lia).
      unfold rounded.
      split; [reflexivity|]. split; [left; reflexivity|].
      split; [intros _; discriminate|]. intros Hk. lia.
    + assert (Hd1 : Zdigits2 m1 <= 24) by (apply Zdigits2_le; [lia|change (2 ^ 24) with (2 * 2 ^ 23); lia]).
      assert (Ht2 : target m1 f = f) by (unfold target; lia).
      rewrite Ht2. replace (f - f) with 0 by lia. rewrite Z.div_1_r.
      destruct m1 as [|p|p]; try lia.
      pose proof (rounded_result s k p f ltac:(lia) ltac:(lia)) as Hr.
      exact Hr.
Qed.

(** *** [binary_round]: alignment, then rounding *)

Lemma iter_xO (m d : positive) : Zpos (Pos.iter xO m d) = Zpos m * 2 ^ Zpos d.
Proof.
  induction d as [|d IH] using Pos.peano_ind.
  - cbn [Pos.iter]. rewrite Pos2Z.inj_xO. change (2 ^ 1) with 2. lia.
  - rewrite Pos.iter_succ, Pos2Z.inj_xO, IH, Pos2Z.inj_succ.
    rewrite Z.pow_succ_r by lia. lia.
Qed.

Lemma shl_align_spec (m : positive) (e e' : Z) :
  snd (shl_align m e e') = Z.min e e'
  /\ Zpos (fst (shl_align m e e')) = Zpos m * 2 ^ (e - Z.min e e').
Proof.
  unfold shl_align. destruct (e' - e) as [|p|p] eqn:E; cbn [fst snd].
  - replace (Z.min e e') with e by lia. rewrite Z.sub_diag. split; lia.
  - replace (Z.min e e') with e by lia. rewrite Z.sub_diag. split; lia.
  - replace (Z.min e e') with e' by lia. rewrite iter_xO.
    replace (e - e') with (Z.pos p) by lia. split; reflexivity.
Qed.

Lemma Zdigits2_shift (z j : Z) :
  0 < z -> 0 <= j -> Zdigits2 (z * 2 ^ j) = Zdigits2 z + j.
Proof.
  intros Hz Hj. pose proof (Zdigits2_bounds z Hz) as [Hlo Hhi].
  pose proof (Zdigits2_pos z Hz) as Hd. pose proof (pow2_pos j Hj) as Hp.
  apply Zdigits2_unique; [lia|].
  replace (Zdigits2 z + j - 1) with (Zdigits2 z - 1 + j) by lia.
  rewrite !Z.pow_add_r by lia. split.
  - apply Z.mul_le_mono_nonneg_r; lia.
  - apply Z.mul_lt_mono_pos_r; lia.
Qed.

Lemma binary_round_rounded (s : bool) (m : positive) (e : Z) :
  rounded s (Zdigits2 (Zpos m) + e) (binary_round prec emax s m e).
Proof.
  unfold binary_round. rewrite fexp_def.
  change (Z.pos (digits2_pos m)) with (Zdigits2 (Zpos m)).
  set (f := Z.max (Zdigits2 (Z.pos m) + e - 24) (-149)).
  destruct (shl_align_spec m e f) as [Hez Hmz].
  destruct (shl_align m e f) as [mz ez]. cbn [fst snd] in Hez, Hmz.
  assert (Hdig : Zdigits2 (Zpos mz) + ez = Zdigits2 (Zpos m) + e).
  { rewrite Hmz, Zdigits2_shift by lia. lia. }
  rewrite <- Hdig. apply binary_round_aux_rounded; [lia|].
  rewrite Hdig. fold f. lia.
Qed.

(** *** Consequences for the operations *)

(** A positive [int32] converts to a positive finite number. *)
Lemma of_int_positive (z : Z) :
  0 < z <= 2147483647 ->
  exists m e, binary_normalize prec emax z 0 false = S754_finite false m e
              /\ bounded prec emax m e = true.
Proof.
  intros [H0 Hmax]. destruct z as [|p|p]; try lia. cbn [binary_normalize].
  pose proof (binary_round_rounded false p 0) as (Hv & Hshape & Hinf & Hz).
  assert (Hk : 1 <= Zdigits2 (Zpos p) <= 31).
  { pose proof (Zdigits2_pos (Zpos p) ltac:(lia)).
    pose proof (Zdigits2_le (Zpos p) 31 ltac:(lia) ltac:(change (2 ^ 31) with 2147483648; lia)).
    lia. }
  destruct Hshape as [H|[H|(m & e & H & _)]].
  - exfalso. apply Hz; [lia|assumption].
  - exfalso. apply Hinf; [lia|assumption].
  - exists m, e. split; [assumption|]. rewrite H in Hv. exact Hv.
Qed.

Lemma bounded_inv (m : positive) (e : Z) :
  bounded prec emax m e = true ->
  Z.max (Zdigits2 (Zpos m) + e - 24) (-149) = e /\ e <= 104.
Proof.
  unfold bounded, canonical_mantissa. rewrite fexp_def.
  change (Z.pos (digits2_pos m)) with (Zdigits2 (Zpos m)).
  intros H. apply andb_prop in H. destruct H as [H1 H2].
  apply Z.eqb_eq in H1. apply Z.leb_le in H2. change (emax - prec) with 104 in H2. lia.
Qed.

Lemma Zdigits2_mul (a b : Z) :
  0 < a -> 0 < b -> Zdigits2 a + Zdigits2 b - 1 <= Zdigits2 (a * b).
Proof.
  intros Ha Hb.
  pose proof (Zdigits2_bounds a Ha) as [Halo _].
  pose proof (Zdigits2_bounds b Hb) as [Hblo _].
  pose proof (Zdigits2_pos a Ha). pose proof (Zdigits2_pos b Hb).
  assert (Hab : 0 < a * b) by lia.
  pose proof (Zdigits2_bounds (a * b) Hab) as [_ Hhi].
  destruct (Z.le_gt_cases (Zdigits2 a + Zdigits2 b - 1) (Zdigits2 (a * b))) as [H1|H1];
    [assumption|exfalso].
  assert (Hp : 2 ^ (Zdigits2 a - 1) * 2 ^ (Zdigits2 b - 1) <= a * b).
  { apply Z.mul_le_mono_nonneg; try assumption; apply Z.lt_le_incl, pow2_pos; lia. }
  rewrite <- Z.pow_add_r in Hp by lia.
  pose proof (Zdigits2_pos (a * b) Hab).
  assert (2 ^ Zdigits2 (a * b) <= 2 ^ (Zdigits2 a - 1 + (Zdigits2 b - 1)))
    by (apply Z.pow_le_mono_r; lia).
  lia.
Qed.

(** The product of two well-formed numbers is well formed. *)
Lemma SFmul_valid (x y : spec_float) :
  valid_binary prec emax x = true -> valid_binary prec emax y = true ->
  valid_binary prec emax (SFmul prec emax x y) = true.
Proof.
  destruct x as [sx|sx| |sx mx ex], y as [sy|sy| |sy my ey]; try reflexivity.
  cbn [valid_binary SFmul]. intros Hx Hy.
  apply bounded_inv in Hx, Hy. destruct Hx as [Hx _], Hy as [Hy _].
  pose proof (Zdigits2_mul (Zpos mx) (Zpos my) ltac:(lia) ltac:(lia)) as Hd.
  pose proof (Zdigits2_pos (Zpos mx) ltac:(lia)).
  pose proof (Zdigits2_pos (Zpos my) ltac:(lia)).
  change (Z.pos (mx * my)) with (Zpos mx * Zpos my).
  apply binary_round_aux_rounded; lia.
Qed.

(** The product of two finite well-formed numbers is not a NaN. *)
Lemma SFmul_not_nan (x y : spec_float) :
  valid_binary prec emax x = true -> valid_binary prec emax y = true ->
  x <> S754_nan -> y <> S754_nan ->
  (forall s, x <> S754_infinity s) -> (forall s, y <> S754_infinity s) ->
  SFmul prec emax x y <> S754_nan.
Proof.
  destruct x as [sx|sx| |sx mx ex], y as [sy|sy| |sy my ey];
    intros Hx Hy Hnx Hny Hix Hiy; try discriminate; try congruence;
    try (exfalso; eapply Hix; reflexivity); try (exfalso; eapply Hiy; reflexivity).
  cbn [valid_binary SFmul] in *.
  apply bounded_inv in Hx, Hy. destruct Hx as [Hx _], Hy as [Hy _].
  pose proof (Zdigits2_mul (Zpos mx) (Zpos my) ltac:(lia) ltac:(lia)) as Hd.
  pose proof (Zdigits2_pos (Zpos mx) ltac:(lia)).
  pose proof (Zdigits2_pos (Zpos my) ltac:(lia)).
  change (Z.pos (mx * my)) with (Zpos mx * Zpos my).
  pose proof (binary_round_aux_rounded (xorb sx sy) (Zpos mx * Zpos my) (ex + ey) loc_Exact
                ltac:(lia) ltac:(lia)) as (_ & Hshape & _).
  destruct Hshape as [->|[->|(m & e & -> & _)]]; discriminate.
Qed.

(** *** Rounding a quotient *)

(** Rounding from mantissa 0, which a division leaves when the quotient is
    below the least positive number: the result is 0 or that number. *)
Lemma binary_round_aux_zero (s : bool) (E : Z) (l : location) :
  E <= -149 -> rounded s E (binary_round_aux prec emax s 0 E l).
Proof.
  intros HE.
  destruct (binary_round_aux_shape s 0 E l ltac:(lia)) as (m1 & Hm1 & ->).
  assert (Ht1 : target 0 E = -149) by (unfold target; cbn [Zdigits2]; lia).
  rewrite Ht1 in *.
  rewrite Z.div_0_l in Hm1 by (apply Z.pow_nonzero; lia).
  destruct Hm1 as [->| ->].
  - rewrite Z.div_0_l by (apply Z.pow_nonzero; unfold target; cbn [Zdigits2]; lia).
    unfold rounded. split; [reflexivity|]. split; [left; reflexivity|].
    split; [intros _; discriminate|]. intros Hk. lia.
  - change (0 + 1) with 1.
    assert (Ht2 : target 1 (-149) = -149) by reflexivity.
    rewrite Ht2. change (1 / 2 ^ (-149 - -149)) with 1.
    apply rounded_result; [reflexivity|lia].
Qed.

Lemma binary_round_aux_rounded_nonneg (s : bool) (M E : Z) (l : location) :
  0 <= M ->
  E <= Z.max (Zdigits2 M + E - 24) (-149) ->
  rounded s (Zdigits2 M + E) (binary_round_aux prec emax s M E l).
Proof.
  intros HM Hpre. destruct (Z.eq_dec M 0) as [->|Hne].
  - cbn [Zdigits2] in *. rewrite Z.add_0_l in *.
    apply binary_round_aux_zero. lia.
  - apply binary_round_aux_rounded; [lia|assumption].
Qed.

Lemma Zdigits2_nonneg (z : Z) : 0 <= Zdigits2 z.
Proof. destruct z; cbn [Zdigits2]; lia. Qed.

(** A quotient has at least as many digits as the dividend has more than
    the divisor. *)
Lemma Zdigits2_div (a b : Z) :
  0 < a -> 0 < b -> Zdigits2 a - Zdigits2 b <= Zdigits2 (a / b).
Proof.
  intros Ha Hb.
  pose proof (Zdigits2_nonneg (a / b)) as Hq.
  destruct (Z.le_gt_cases (Zdigits2 a - Zdigits2 b) 0) as [Hle|Hgt]; [lia|].
  pose proof (Zdigits2_bounds a Ha) as [Halo _].
  pose proof (Zdigits2_bounds b Hb) as [_ Hbhi].
  pose proof (Zdigits2_pos b Hb) as Hdb.
  set (j := Zdigits2 a - Zdigits2 b) in *.
  assert (Hlow : 2 ^ (j - 1) <= a / b).
  { apply Z.div_le_lower_bound; [assumption|].
    pose proof (pow2_pos (j - 1) ltac:(lia)) as Hp.
    apply Z.le_trans with (2 ^ Zdigits2 b * 2 ^ (j - 1)).
    - apply Z.mul_le_mono_nonneg_r; lia.
    - rewrite <- Z.pow_add_r by lia.
      replace (Zdigits2 b + (j - 1)) with (Zdigits2 a - 1) by lia. assumption. }
  destruct (Z.le_gt_cases j (Zdigits2 (a / b))) as [H|H]; [assumption|exfalso].
  assert (Hpos : 0 < a / b) by (pose proof (pow2_pos (j - 1) ltac:(lia)); lia).
  pose proof (Zdigits2_bounds (a / b) Hpos) as [_ Hhi].
  assert (2 ^ Zdigits2 (a / b) <= 2 ^ (j - 1)) by (apply Z.pow_le_mono_r; lia).
  lia.
Qed.

(** The quotient and exponent the division hands to the rounding. *)
Lemma SFdiv_core_binary_spec (m1 m2 : positive) (e1 e2 : Z) :
  let e' := Z.min (Z.max (Zdigits2 (Zpos m1) + e1 - (Zdigits2 (Zpos m2) + e2) - 24) (-149))
                  (e1 - e2) in
  exists l,
    SFdiv_core_binary prec emax (Zpos m1) e1 (Zpos m2) e2
    = (Zpos m1 * 2 ^ (e1 - e2 - e') / Zpos m2, e', l).
Proof.
  intros e'. unfold SFdiv_core_binary. rewrite fexp_def.
  replace (Z.min (Z.max (Zdigits2 (Z.pos m1) + e1 - (Zdigits2 (Z.pos m2) + e2) - 24) (-149))
                 (e1 - e2)) with e' by reflexivity.
  assert (Hs : 0 <= e1 - e2 - e') by (unfold e'; lia).
  set (m' := match e1 - e2 - e' with
             | 0 => Z.pos m1
             | Z.pos _ => Z.shiftl (Z.pos m1) (e1 - e2 - e')
             | Z.neg _ => 0
             end).
  assert (Hm' : m' = Zpos m1 * 2 ^ (e1 - e2 - e')).
  { subst m'. destruct (e1 - e2 - e') as [|p|p] eqn:E.
    - change (2 ^ 0) with 1. lia.
    - rewrite Z.shiftl_mul_pow2 by lia. reflexivity.
    - lia. }
  rewrite <- Hm'.
  unfold Z.div. destruct (Z.div_eucl m' (Z.pos m2)) as [q r].
  eexists. reflexivity.
Qed.

(** The quotient of two well-formed numbers is well formed. *)
Lemma SFdiv_valid (x y : spec_float) :
  valid_binary prec emax x = true -> valid_binary prec emax y = true ->
  valid_binary prec emax (SFdiv prec emax x y) = true.
Proof.
  destruct x as [sx|sx| |sx mx ex], y as [sy|sy| |sy my ey]; try reflexivity.
  cbn [valid_binary SFdiv]. intros _ _.
  destruct (SFdiv_core_binary_spec mx my ex ey) as [l Hcore].
  cbv zeta in Hcore. rewrite Hcore.
  set (e' := Z.min (Z.max (Zdigits2 (Z.pos mx) + ex - (Zdigits2 (Z.pos my) + ey) - 24) (-149))
                   (ex - ey)) in *.
  set (s := ex - ey - e') in *.
  assert (Hs : 0 <= s) by (unfold s, e'; lia).
  pose proof (pow2_pos s Hs) as Hp.
  set (q := Z.pos mx * 2 ^ s / Z.pos my).
  assert (Hq : 0 <= q) by (apply Z.div_pos; lia).
  apply (binary_round_aux_rounded_nonneg (xorb sx sy) q e' l Hq).
  destruct (Z.le_gt_cases e' (-149)) as [Hlow|Hhigh]; [lia|].
  assert (Hdq : Zdigits2 (Z.pos mx) + s - Zdigits2 (Z.pos my) <= Zdigits2 q).
  { unfold q. rewrite <- (Zdigits2_shift (Zpos mx) s) by lia.
    apply Zdigits2_div; lia. }
  unfold s, e' in *. lia.
Qed.

(** *** Exact results *)

Lemma shr_1_double (x : Z) :
  0 < x -> shr_1 (Build_shr_record (x * 2) false false) = Build_shr_record x false false.
Proof.
  intros Hx. destruct x as [|p|p]; try lia.
  change (Z.pos p * 2) with (Z.pos (p * 2)). rewrite Pos.mul_comm. reflexivity.
Qed.

Lemma iter_shr_1_exact (p : positive) (m : Z) :
  0 < m ->
  SpecFloat.iter_pos shr_1 p (Build_shr_record (m * 2 ^ Zpos p) false false)
  = Build_shr_record m false false.
Proof.
  revert m. induction p as [p IH|p IH|]; intros m Hm; cbn [SpecFloat.iter_pos].
  - pose proof (pow2_pos (Zpos p) ltac:(lia)) as Hp.
    rewrite pow2_xI.
    replace (m * (2 * 2 ^ Z.pos p * 2 ^ Z.pos p)) with (m * 2 ^ Z.pos p * 2 ^ Z.pos p * 2) by lia.
    rewrite shr_1_double by nia.
    rewrite IH by nia. apply IH. assumption.
  - pose proof (pow2_pos (Zpos p) ltac:(lia)) as Hp.
    rewrite pow2_xO.
    replace (m * (2 ^ Z.pos p * 2 ^ Z.pos p)) with (m * 2 ^ Z.pos p * 2 ^ Z.pos p) by lia.
    rewrite IH by nia. apply IH. assumption.
  - change (2 ^ 1) with 2. apply shr_1_double. assumption.
Qed.

(** Shifting a canonical mantissa that was scaled by a power of two brings
    it back, with nothing lost. *)
Lemma shr_fexp_exact (m : positive) (e j : Z) :
  0 <= j ->
  Z.max (Zdigits2 (Zpos m) + e - 24) (-149) = e ->
  shr_fexp prec emax (Zpos m * 2 ^ j) (e - j) loc_Exact
  = (Build_shr_record (Zpos m) false false, e).
Proof.
  intros Hj Hcan. unfold shr_fexp. rewrite fexp_def.
  rewrite Zdigits2_shift by lia.
  replace (Zdigits2 (Z.pos m) + j + (e - j) - 24) with (Zdigits2 (Z.pos m) + e - 24) by lia.
  rewrite Hcan. replace (e - (e - j)) with j by lia.
  cbn [shr_record_of_loc]. unfold shr.
  destruct j as [|p|p]; try lia.
  - change (2 ^ 0) with 1. rewrite Z.mul_1_r, Z.sub_0_r. reflexivity.
  - rewrite iter_shr_1_exact by lia. f_equal. lia.
Qed.

(** Multiplying a well-formed finite number by 1.0 returns it. *)
Lemma SFmul_one_r (x : spec_float) :
  valid_binary prec emax x = true ->
  F32.is_finite x = true ->
  SFmul prec emax x (S754_finite false 8388608 (-23)) = x.
Proof.
  destruct x as [s|s| |s m e]; try discriminate; intros Hv _.
  - cbn [SFmul]. rewrite xorb_false_r. reflexivity.
  - cbn [valid_binary] in Hv. apply bounded_inv in Hv. destruct Hv as [Hcan He].
    cbn [SFmul]. rewrite xorb_false_r.
    change (Z.pos (m * 8388608)) with (Zpos m * 2 ^ 23).
    replace (e + -23) with (e - 23) by lia.
    unfold binary_round_aux.
    rewrite (shr_fexp_exact m e 23) by (lia || assumption).
    cbn [shr_m loc_of_shr_record round_nearest_even].
    pose proof (shr_fexp_exact m e 0 ltac:(lia) Hcan) as H0.
    change (2 ^ 0) with 1 in H0. rewrite Z.mul_1_r, Z.sub_0_r in H0.
    rewrite H0. cbn [shr_m].
    replace (e <=? emax - prec) with true; [reflexivity|].
    symmetry. apply Z.leb_le. change (emax - prec) with 104. lia.
Qed.

End RoundingFacts.

(** ** Arithmetic the node relies on *)

Module F32Arith.

Import Rounding RoundingFacts.

Lemma rounded_finite (s : bool) (k : Z) (r : float) :
  rounded s k r -> k <= 127 -> F32.is_finite r = true.
Proof.
  intros (_ & Hshape & Hinf & _) Hk.
  destruct Hshape as [->|[->|(m & e & -> & _)]]; try reflexivity.
  exfalso. apply (Hinf Hk). reflexivity.
Qed.

Lemma to_int32_range (x : float) : Int32.in_range (F32.to_int32 x).
Proof.
  unfold Int32.in_range, F32.to_int32.
  destruct x as [s|s| |s m e]; try (unfold Int32.min_int, Int32.max_int; lia).
  cbv zeta. destruct (_ && _) eqn:E; [|unfold Int32.min_int, Int32.max_int; lia].
  apply andb_prop in E. destruct E as [E1 E2].
  apply Z.leb_le in E1, E2. split; assumption.
Qed.

(** [(float)0 / (float)A] is +0 for a positive count [A]. *)
Lemma zero_fraction (A : Z) :
  0 < A <= Int32.max_int -> F32.div (F32.of_int 0) (F32.of_int A) = F32.zero.
Proof.
  intros HA. destruct (of_int_positive A HA) as (m & e & Hm & _).
  unfold F32.of_int at 2. rewrite Hm. reflexivity.
Qed.

Lemma valid_mantissa (m : positive) (e : Z) :
  bounded F32.prec F32.emax m e = true ->
  Zpos m < 2 ^ 24 /\ -149 <= e <= 104 /\ (-149 < e -> 2 ^ 23 <= Zpos m).
Proof.
  intros H. apply bounded_inv in H. destruct H as [Hcan He].
  pose proof (Zdigits2_bounds (Zpos m) ltac:(lia)) as [Hlo Hhi].
  pose proof (Zdigits2_pos (Zpos m) ltac:(lia)) as Hd.
  assert (Hd24 : Zdigits2 (Zpos m) <= 24) by lia.
  split; [|split; [lia|]].
  - apply Z.lt_le_trans with (1 := Hhi). apply Z.pow_le_mono_r; lia.
  - intros He'. assert (Hd' : Zdigits2 (Zpos m) = 24) by lia.
    rewrite Hd' in Hlo. exact Hlo.
Qed.

(** Comparing a positive finite number with another one. *)
Lemma ltb_finite (m1 m2 : positive) (e1 e2 : Z) :
  F32.ltb (S754_finite false m1 e1) (S754_finite false m2 e2) = true
  <-> e1 < e2 \/ (e1 = e2 /\ Zpos m1 < Zpos m2).
Proof.
  unfold F32.ltb, SFltb, SFcompare.
  change (Pos.compare_cont Eq m1 m2) with (m1 ?= m2)%positive.
  destruct (Z.compare_spec e1 e2) as [He|He|He].
  - destruct (Pos.compare_spec m1 m2) as [Hm|Hm|Hm].
    + split; [discriminate|intros [H|[_ H]]; lia].
    + split; [intros _; right; split; assumption|reflexivity].
    + split; [discriminate|intros [H|[_ H]]; lia].
  - split; [intros _; left; assumption|reflexivity].
  - split; [discriminate|intros [H|[H _]]; lia].
Qed.

Lemma leb_finite (m1 m2 : positive) (e1 e2 : Z) :
  F32.leb (S754_finite false m1 e1) (S754_finite false m2 e2) = true
  <-> e1 < e2 \/ (e1 = e2 /\ Zpos m1 <= Zpos m2).
Proof.
  unfold F32.leb, SFleb, SFcompare.
  change (Pos.compare_cont Eq m1 m2) with (m1 ?= m2)%positive.
  destruct (Z.compare_spec e1 e2) as [He|He|He].
  - destruct (Pos.compare_spec m1 m2) as [Hm|Hm|Hm].
    + split; [intros _; right; split; [assumption|lia]|reflexivity].
    + split; [intros _; right; split; [assumption|lia]|reflexivity].
    + split; [discriminate|intros [H|[_ H]]; lia].
  - split; [intros _; left; assumption|reflexivity].
  - split; [discriminate|intros [H|[H _]]; lia].
Qed.

(** [1 - x] is finite for a well-formed [x] between 0 and 1. *)
Lemma sub_one_finite (m : positive) (e : Z) :
  bounded F32.prec F32.emax m e = true ->
  F32.leb (S754_finite false m e) F32.one = true ->
  F32.is_finite (F32.sub F32.one (S754_finite false m e)) = true.
Proof.
  intros Hv Hle. apply valid_mantissa in Hv. destruct Hv as (Hm & He & _).
  apply leb_finite in Hle.
  assert (He23 : e <= -23) by lia.
  unfold F32.sub, F32.one, SFsub. cbn [cond_Zopp].
  replace (Z.min (-23) e) with e by lia.
  destruct (shl_align_spec 8388608 (-23) e) as [_ Ha].
  destruct (shl_align_spec m e e) as [_ Hb].
  rewrite Z.min_id, Z.sub_diag in Hb. change (2 ^ 0) with 1 in Hb.
  replace (Z.min (-23) e) with e in Ha by lia.
  assert (Ha' : Z.pos (fst (shl_align 8388608 (-23) e)) = 2 ^ (- e)).
  { rewrite Ha. change (Z.pos 8388608) with (2 ^ 23).
    rewrite <- Z.pow_add_r by lia. f_equal. lia. }
  assert (Hb' : Z.pos (fst (shl_align m e e)) = Zpos m) by lia.
  rewrite Ha', Hb'. clear Ha Hb Ha' Hb'.
  pose proof (pow2_pos (- e) ltac:(lia)) as Hp.
  destruct (2 ^ (- e) - Zpos m) as [|p|p] eqn:Ed; cbn [binary_normalize].
  - reflexivity.
  - apply (rounded_finite false _ _ (binary_round_rounded false p e)).
    assert (Zdigits2 (Zpos p) <= - e) by (apply Zdigits2_le; lia).
    lia.
  - apply (rounded_finite true _ _ (binary_round_rounded true p e)).
    assert (Zdigits2 (Zpos p) <= 24) by (apply Zdigits2_le; lia).
    lia.
Qed.

(** The first attack sample when the power term is +0: the starting
    value itself. *)
Lemma attack_start (x : float) :
  F32.unit_value x ->
  F32.add x (F32.mul (F32.sub F32.one x) F32.zero) = x.
Proof.
  intros [->|(Hv & Hpos & Hle)]; [reflexivity|].
  destruct x as [s|s| |s m e]; try discriminate.
  - destruct s; discriminate.
  - destruct s; try discriminate.
    pose proof (sub_one_finite m e Hv Hle) as Hfin.
    destruct (F32.sub F32.one (S754_finite false m e)) as [sd|sd| |sd md ed];
      try discriminate; reflexivity.
Qed.

(** The conversion of [Max(1, p)] to a count, for a well-formed [p]
    below 2^31. *)
Lemma to_int32_Max_one (p : float) :
  F32.valid p = true ->
  F32.ltb p F32.two31 = true ->
  F32.to_int32 (FMath.Max F32.one p) = Z.max 1 (F32.to_int32 p)
  /\ 1 <= F32.to_int32 (FMath.Max F32.one p).
Proof.
  intros Hv Hlt. unfold FMath.Max.
  destruct p as [s|s| |s m e].
  - destruct s; vm_compute; split; [reflexivity|discriminate| reflexivity|discriminate].
  - destruct s; [|discriminate]. vm_compute. split; [reflexivity|discriminate].
  - discriminate.
  - destruct s.
    + change (F32.ltb (S754_finite true m e) F32.one) with true. cbv iota.
      change (F32.to_int32 F32.one) with 1.
      pose proof (to_int32_range (S754_finite true m e)) as Hr.
      assert (F32.to_int32 (S754_finite true m e) <= 0); [|lia].
      unfold F32.to_int32. cbv zeta.
      pose proof (Z.shiftl_nonneg (Zpos m) e) as [_ Hnn].
      specialize (Hnn ltac:(lia)).
      destruct (_ && _); [lia|unfold Int32.min_int; lia].
    + cbn [F32.valid valid_binary] in Hv. apply valid_mantissa in Hv.
      destruct Hv as (Hm & He & Hnorm).
      unfold F32.two31 in Hlt. apply ltb_finite in Hlt.
      destruct (F32.ltb (S754_finite false m e) F32.one) eqn:E1.
      * change (F32.to_int32 F32.one) with 1.
        unfold F32.one in E1. apply ltb_finite in E1.
        assert (Ht : Z.shiftl (Zpos m) e = 0).
        { rewrite Z.shiftl_div_pow2 by lia. apply Z.div_small.
          split; [lia|].
          destruct E1 as [E1|[E1 E1']].
          - apply Z.lt_le_trans with (1 := Hm). apply Z.pow_le_mono_r; lia.
          - subst e. change (2 ^ (- -23)) with (Zpos 8388608). lia. }
        unfold F32.to_int32. cbv zeta. rewrite Ht.
        change ((Int32.min_int <=? 0) && (0 <=? Int32.max_int)) with true.
        cbv iota. lia.
      * assert (E1' : ~ (e < -23 \/ (e = -23 /\ Zpos m < Zpos 8388608))).
        { intros H. apply (ltb_finite m 8388608 e (-23)) in H.
          unfold F32.one in E1. congruence. }
        assert (Ht : 1 <= Z.shiftl (Zpos m) e <= Int32.max_int).
        { unfold Int32.max_int.
          destruct (Z.le_gt_cases 0 e) as [Hpos|Hneg].
          - rewrite Z.shiftl_mul_pow2 by assumption.
            pose proof (pow2_pos e Hpos) as Hp. split; [nia|].
            destruct Hlt as [Hlt|[-> Hlt]].
            + assert (2 ^ e <= 2 ^ 7) by (apply Z.pow_le_mono_r; lia).
              change (2 ^ 7) with 128 in *. change (2 ^ 24) with 16777216 in *. nia.
            + change (2 ^ 8) with 256. lia.
          - rewrite Z.shiftl_div_pow2 by lia.
            assert (H23 : 2 ^ 23 <= Zpos m).
            { destruct (Z.eq_dec e (-149)) as [->|Hne]; [|apply Hnorm; lia].
              exfalso. apply E1'. left. lia. }
            split.
            + change 1 with (2 ^ 0). apply div_pow2_lower; [lia|lia|].
              rewrite Z.add_0_r.
              apply Z.le_trans with (2 := H23).
              destruct (Z.eq_dec e (-23)) as [->|Hne]; [reflexivity|].
              apply Z.pow_le_mono_r; lia.
            + assert (Z.pos m / 2 ^ (- e) <= Zpos m)
                by (apply Z.div_le_upper_bound; [apply pow2_pos; lia|];
                    pose proof (pow2_pos (- e) ltac:(lia)); nia).
              change (2 ^ 24) with 16777216 in Hm. lia. }
        unfold F32.to_int32. cbv zeta.
        replace ((Int32.min_int <=? Z.shiftl (Z.pos m) e)
                 && (Z.shiftl (Z.pos m) e <=? Int32.max_int)) with true.
        2:{ symmetry. apply andb_true_intro.
            split; apply Z.leb_le; unfold Int32.min_int; lia. }
        split; lia.
Qed.

(** [Max(KINDA_SMALL_NUMBER, x)] is above 0 unless [x] is a NaN. *)
Lemma Max_epsilon_positive (x : float) :
  F32.is_nan x = false ->
  F32.ltb F32.zero (FMath.Max FMath.KINDA_SMALL_NUMBER x) = true.
Proof.
  intros Hn. unfold FMath.Max.
  destruct (F32.ltb x FMath.KINDA_SMALL_NUMBER) eqn:E; [reflexivity|].
  destruct x as [s|s| |s m e]; try discriminate.
  - destruct s; [discriminate|reflexivity].
  - destruct s; [discriminate|reflexivity].
Qed.

(** Half a well-formed finite number is finite: the Nyquist frequency of
    a finite sample rate. *)
Lemma half_mul_finite (x : float) :
  F32.valid x = true -> F32.is_finite x = true ->
  F32.is_finite (F32.mul F32.half x) = true.
Proof.
  destruct x as [s|s| |s m e]; try discriminate; intros Hv _; [reflexivity|].
  cbn [F32.valid valid_binary] in Hv. apply bounded_inv in Hv. destruct Hv as [Hcan He].
  unfold F32.mul, F32.half. cbn [SFmul].
  change (Z.pos (8388608 * m)) with (2 ^ 23 * Zpos m). rewrite (Z.mul_comm (2 ^ 23)).
  pose proof (Zdigits2_pos (Zpos m) ltac:(lia)) as Hd.
  assert (Hdig : Zdigits2 (Zpos m * 2 ^ 23) = Zdigits2 (Zpos m) + 23)
    by (apply Zdigits2_shift; lia).
  pose proof (pow2_pos 23 ltac:(lia)) as Hp.
  apply (rounded_finite (xorb false s) (Zdigits2 (Zpos m * 2 ^ 23) + (-24 + e))).
  - apply binary_round_aux_rounded; [lia|]. rewrite Hdig. lia.
  - rewrite Hdig. lia.
Qed.

Lemma sub_zero_valid (x : float) :
  F32.valid x = true -> F32.valid (F32.sub x F32.zero) = true.
Proof.
  destruct x as [s|s| |s m e]; intros H; try reflexivity.
  - destruct s; reflexivity.
  - exact H.
Qed.

(** Interpolating from 0 to 1 by a fraction in [0, 1] returns the
    fraction. *)
Lemma Lerp_unit (p : float) :
  F32.unit_value p -> FMath.Lerp F32.zero F32.one p = p.
Proof.
  intros Hp. unfold FMath.Lerp.
  change (F32.sub F32.one F32.zero) with F32.one.
  destruct Hp as [->|(Hv & Hpos & Hle)]; [reflexivity|].
  destruct p as [s|s| |s m e]; try discriminate.
  - destruct s; discriminate.
  - destruct s; [discriminate|].
    unfold F32.mul, F32.one. rewrite SFmul_one_r by (assumption || reflexivity).
    reflexivity.
Qed.

(** A clamp of a well-formed number to [0, 1] is a unit value. *)
Lemma Clamp_unit_value (X : float) :
  F32.valid X = true -> F32.unit_value (FMath.Clamp X F32.zero F32.one).
Proof.
  intros Hv.
  destruct (F32Facts.Clamp_cases X F32.zero F32.one) as [->|[[-> _]|(-> & H1 & H2)]].
  - left. reflexivity.
  - right. repeat split; reflexivity.
  - right. split; [assumption|]. split; [assumption|].
    apply F32Facts.ltb_leb. assumption.
Qed.

(** -1 is not nearly equal to +0 nor to any well-formed positive
    number: their difference is at least 1 in magnitude. *)
Lemma minus_one_not_near (r : float) :
  F32.valid r = true ->
  r = F32.zero \/ F32.ltb F32.zero r = true ->
  FMath.IsNearlyEqual F32.minus_one r = false.
Proof.
  intros Hv [->|Hpos]; [reflexivity|].
  destruct r as [s|s| |s m e]; try (destruct s; discriminate).
  - destruct s; [discriminate|reflexivity].
  - discriminate.
  - destruct s; [discriminate|].
    cbn [F32.valid valid_binary] in Hv. apply valid_mantissa in Hv.
    destruct Hv as (Hm & He & _).
    unfold FMath.IsNearlyEqual, FMath.Abs, F32.sub, F32.minus_one, SFsub.
    cbn [cond_Zopp].
    set (ez := Z.min (-23) e).
    destruct (shl_align_spec 8388608 (-23) ez) as [_ Ha].
    destruct (shl_align_spec m e ez) as [_ Hb].
    replace (Z.min (-23) ez) with ez in Ha by lia.
    replace (Z.min e ez) with ez in Hb by lia.
    assert (Ha' : Z.pos (fst (shl_align 8388608 (-23) ez)) = 2 ^ (- ez)).
    { rewrite Ha. change (Z.pos 8388608) with (2 ^ 23).
      rewrite <- Z.pow_add_r by lia. f_equal. lia. }
    set (a := fst (shl_align 8388608 (-23) ez)) in *.
    set (b := fst (shl_align m e ez)) in *.
    replace (IntDef.Z.sub (- Z.pos a) (Z.pos b)) with (Z.neg (a + b))
      by (change (Z.neg (a + b) = Z.sub (- Z.pos a) (Z.pos b)); lia).
    cbn [binary_normalize].
    pose proof (binary_round_rounded true (a + b) ez) as Hr.
    pose proof (Zdigits2_bounds (Zpos (a + b)) ltac:(lia)) as [_ Hhi].
    assert (Hd : - ez < Zdigits2 (Zpos (a + b))).
    { apply (Z.pow_lt_mono_r_iff 2); [lia|apply Zdigits2_nonneg|].
      rewrite <- Ha'. lia. }
    destruct Hr as (_ & Hshape & _ & Hzero).
    destruct Hshape as [Hr|[Hr|(m' & e' & Hr & He')]]; rewrite Hr.
    + exfalso. apply Hzero; [lia|exact Hr].
    + reflexivity.
    + cbn [F32.abs SFabs]. unfold FMath.SMALL_NUMBER.
      destruct (F32.leb _ _) eqn:E; [|reflexivity].
      apply leb_finite in E. lia.
Qed.

End F32Arith.

(** ** The envelope engine *)

Section EnvelopeFacts.

Variable Pow : float -> float -> float.

Import FEnvelopeState.

Lemma set_index_twice (v w : Z) (st : t) :
  set_CurrentSampleIndex v (set_CurrentSampleIndex w st) = set_CurrentSampleIndex v st.
Proof. reflexivity. Qed.

Lemma set_index_same (st : t) : set_CurrentSampleIndex (CurrentSampleIndex st) st = st.
Proof. destruct st; reflexivity. Qed.

(** A call away from frame 0, or on an idle envelope, changes nothing and
    reports 0. *)
Lemma advance_skipped (st : t) (StartFrame EndFrame : Z) (Fin : list Z) :
  0 < StartFrame \/ CurrentSampleIndex st = INDEX_NONE ->
  Envelope.GetNextEnvelopeOutput Pow st StartFrame EndFrame Fin = (st, Fin, F32.zero).
Proof.
  intros H. unfold Envelope.GetNextEnvelopeOutput.
  destruct (0 <? StartFrame) eqn:E1; [reflexivity|].
  destruct (CurrentSampleIndex st =? INDEX_NONE) eqn:E2; [reflexivity|].
  apply Z.ltb_ge in E1. apply Z.eqb_neq in E2. lia.
Qed.

(** The attack branch with more than one attack sample. *)
Lemma advance_attack (st : t) (EndFrame : Z) (Fin : list Z) :
  CurrentSampleIndex st <> INDEX_NONE ->
  CurrentSampleIndex st < AttackSampleCount st ->
  1 < AttackSampleCount st ->
  Envelope.GetNextEnvelopeOutput Pow st 0 EndFrame Fin =
    (set_CurrentSampleIndex (Int32.incr (CurrentSampleIndex st)) st, Fin,
     F32.add (StartingEnvelopeValue st)
       (F32.mul (F32.sub F32.one (StartingEnvelopeValue st))
          (Pow (F32.div (F32.of_int (CurrentSampleIndex st))
                        (F32.of_int (AttackSampleCount st)))
               (AttackCurveFactor st)))).
Proof.
  intros Hn Hlt H1. unfold Envelope.GetNextEnvelopeOutput.
  replace (0 <? 0) with false by reflexivity.
  destruct (CurrentSampleIndex st =? INDEX_NONE) eqn:E; [apply Z.eqb_eq in E; contradiction|].
  cbn [orb].
  apply Z.ltb_lt in Hlt. rewrite Hlt.
  apply Z.ltb_lt in H1. rewrite H1. reflexivity.
Qed.

(** The attack branch of an instant attack. *)
Lemma advance_instant (st : t) (EndFrame : Z) (Fin : list Z) :
  CurrentSampleIndex st <> INDEX_NONE ->
  CurrentSampleIndex st < AttackSampleCount st ->
  AttackSampleCount st <= 1 ->
  Envelope.GetNextEnvelopeOutput Pow st 0 EndFrame Fin =
    (set_CurrentSampleIndex (Int32.incr (CurrentSampleIndex st)) st, Fin, F32.one).
Proof.
  intros Hn Hlt H1. unfold Envelope.GetNextEnvelopeOutput.
  replace (0 <? 0) with false by reflexivity.
  destruct (CurrentSampleIndex st =? INDEX_NONE) eqn:E; [apply Z.eqb_eq in E; contradiction|].
  cbn [orb].
  apply Z.ltb_lt in Hlt. rewrite Hlt.
  apply Z.ltb_ge in H1. rewrite H1. reflexivity.
Qed.

(** The decay branch. *)
Lemma advance_decay (st : t) (EndFrame : Z) (Fin : list Z) :
  CurrentSampleIndex st <> INDEX_NONE ->
  AttackSampleCount st <= CurrentSampleIndex st ->
  CurrentSampleIndex st < Int32.add (AttackSampleCount st) (DecaySampleCount st) ->
  Envelope.GetNextEnvelopeOutput Pow st 0 EndFrame Fin =
    (set_CurrentSampleIndex (Int32.incr (CurrentSampleIndex st)) st, Fin,
     F32.sub F32.one
       (Pow (F32.div (F32.of_int (Int32.sub (CurrentSampleIndex st) (AttackSampleCount st)))
                     (F32.of_int (DecaySampleCount st)))
            (DecayCurveFactor st))).
Proof.
  intros Hn Hge Hlt. unfold Envelope.GetNextEnvelopeOutput.
  replace (0 <? 0) with false by reflexivity.
  destruct (CurrentSampleIndex st =? INDEX_NONE) eqn:E; [apply Z.eqb_eq in E; contradiction|].
  cbn [orb].
  apply Z.ltb_ge in Hge. rewrite Hge.
  apply Z.ltb_lt in Hlt. rewrite Hlt. reflexivity.
Qed.

(** The completion branch. *)
Lemma advance_done (st : t) (EndFrame : Z) (Fin : list Z) :
  CurrentSampleIndex st <> INDEX_NONE ->
  AttackSampleCount st <= CurrentSampleIndex st ->
  Int32.add (AttackSampleCount st) (DecaySampleCount st) <= CurrentSampleIndex st ->
  Envelope.GetNextEnvelopeOutput Pow st 0 EndFrame Fin =
    (set_CurrentSampleIndex INDEX_NONE st, Fin ++ [0], F32.zero).
Proof.
  intros Hn Hge Hlt. unfold Envelope.GetNextEnvelopeOutput.
  replace (0 <? 0) with false by reflexivity.
  destruct (CurrentSampleIndex st =? INDEX_NONE) eqn:E; [apply Z.eqb_eq in E; contradiction|].
  cbn [orb].
  apply Z.ltb_ge in Hge. rewrite Hge.
  apply Z.ltb_ge in Hlt. rewrite Hlt. reflexivity.
Qed.

(** C3. A call at frame 0 on an active envelope whose counts fit [int32]:
    in the attack phase with more than one attack sample the output is
    [Start + (1 - Start) * Pow(Index / AttackCount, AttackCurve)], with an
    attack count of 1 it is exactly 1.0, in the decay phase it is
    [1 - Pow((Index - AttackCount) / DecayCount, DecayCurve)]; the
    fractions use the index before the increment and in each case the
    index goes up by exactly 1. *)
Theorem C3_advance_phase_outputs (st : t) (EndFrame : Z) (Fin : list Z) :
  CurrentSampleIndex st <> INDEX_NONE ->
  counts_fit st ->
  let r := Envelope.GetNextEnvelopeOutput Pow st 0 EndFrame Fin in
  (CurrentSampleIndex st < AttackSampleCount st -> 1 < AttackSampleCount st ->
     r.2 = F32.add (StartingEnvelopeValue st)
             (F32.mul (F32.sub F32.one (StartingEnvelopeValue st))
                (Pow (F32.div (F32.of_int (CurrentSampleIndex st))
                              (F32.of_int (AttackSampleCount st)))
                     (AttackCurveFactor st)))
     /\ CurrentSampleIndex r.1.1 = CurrentSampleIndex st + 1)
  /\ (CurrentSampleIndex st < AttackSampleCount st -> AttackSampleCount st = 1 ->
        r.2 = F32.one
        /\ CurrentSampleIndex r.1.1 = CurrentSampleIndex st + 1)
  /\ (AttackSampleCount st <= CurrentSampleIndex st
      < AttackSampleCount st + DecaySampleCount st ->
        r.2 = F32.sub F32.one
                (Pow (F32.div (F32.of_int (CurrentSampleIndex st - AttackSampleCount st))
                              (F32.of_int (DecaySampleCount st)))
                     (DecayCurveFactor st))
        /\ CurrentSampleIndex r.1.1 = CurrentSampleIndex st + 1).
Proof.
  intros Hn (Hi & Ha & Hd & Hs) r. subst r.
  split; [|split].
  - intros Hlt H1. rewrite advance_attack by assumption.
    cbn [fst snd CurrentSampleIndex set_CurrentSampleIndex].
    split; [reflexivity|].
    apply (Int32Facts.incr_exact _ (AttackSampleCount st)); assumption.
  - intros Hlt H1. rewrite advance_instant by lia.
    cbn [fst snd CurrentSampleIndex set_CurrentSampleIndex].
    split; [reflexivity|].
    apply (Int32Facts.incr_exact _ (AttackSampleCount st)); assumption.
  - intros [Hge Hlt].
    pose proof (Int32Facts.add_exact _ _ Hs) as Hadd.
    rewrite advance_decay by (rewrite ?Hadd; assumption).
    cbn [fst snd CurrentSampleIndex set_CurrentSampleIndex].
    rewrite Int32Facts.sub_exact.
    2:{ unfold Int32.in_range, Int32.min_int, Int32.max_int in *. lia. }
    split; [reflexivity|].
    apply (Int32Facts.incr_exact _ (AttackSampleCount st + DecaySampleCount st));
      assumption.
Qed.

(** *** Runs of consecutive calls *)

Lemma Run_app (EndFrame : Z) (n m : nat) (st : t) :
  Envelope.Run Pow EndFrame (n + m) st =
    let '(st1, c1) := Envelope.Run Pow EndFrame n st in
    let '(st2, c2) := Envelope.Run Pow EndFrame m st1 in
    (st2, c1 ++ c2).
Proof.
  revert st. induction n as [|n IH]; intros st; cbn [Envelope.Run Nat.add].
  - destruct (Envelope.Run Pow EndFrame m st); reflexivity.
  - destruct (Envelope.GetNextEnvelopeOutput Pow st 0 EndFrame []) as [[st1 fin] out].
    rewrite IH.
    destruct (Envelope.Run Pow EndFrame n st1) as [st2 c1].
    destruct (Envelope.Run Pow EndFrame m st2) as [st3 c2]. reflexivity.
Qed.

(** While the index is inside the envelope a call reports no finished
    frame and moves the index by one. *)
Lemma advance_active (st : t) (EndFrame : Z) :
  counts_fit st ->
  0 <= CurrentSampleIndex st < AttackSampleCount st + DecaySampleCount st ->
  exists out,
    Envelope.GetNextEnvelopeOutput Pow st 0 EndFrame [] =
      (set_CurrentSampleIndex (CurrentSampleIndex st + 1) st, [], out).
Proof.
  intros (Hi & Ha & Hd & Hs) [H0 Hlt].
  assert (Hn : CurrentSampleIndex st <> INDEX_NONE) by (unfold INDEX_NONE; lia).
  assert (Hincr : Int32.incr (CurrentSampleIndex st) = CurrentSampleIndex st + 1)
    by (apply (Int32Facts.incr_exact _ (AttackSampleCount st + DecaySampleCount st));
        assumption).
  destruct (Z.lt_ge_cases (CurrentSampleIndex st) (AttackSampleCount st)) as [Hatt|Hdec].
  - destruct (Z.lt_ge_cases 1 (AttackSampleCount st)) as [H1|H1].
    + eexists. rewrite advance_attack by assumption. rewrite Hincr. reflexivity.
    + eexists. rewrite advance_instant by assumption. rewrite Hincr. reflexivity.
  - eexists. rewrite advance_decay; [rewrite Hincr; reflexivity|assumption..|].
    rewrite Int32Facts.add_exact by assumption. assumption.
Qed.

Lemma Run_active (EndFrame : Z) (k : nat) (st : t) :
  counts_fit st ->
  0 <= CurrentSampleIndex st ->
  CurrentSampleIndex st + Z.of_nat k <= AttackSampleCount st + DecaySampleCount st ->
  exists outs,
    length outs = k
    /\ Envelope.Run Pow EndFrame k st =
         (set_CurrentSampleIndex (CurrentSampleIndex st + Z.of_nat k) st,
          (fun out => ([], out)) <$> outs).
Proof.
  revert st. induction k as [|k IH]; intros st Hfit H0 Hle.
  - exists []. split; [reflexivity|]. cbn [Envelope.Run fmap list_fmap].
    rewrite Z.add_0_r, set_index_same. reflexivity.
  - destruct (advance_active st EndFrame Hfit ltac:(lia)) as [out Hstep].
    set (st1 := set_CurrentSampleIndex (CurrentSampleIndex st + 1) st) in *.
    assert (Hfit1 : counts_fit st1).
    { destruct Hfit as (Hi & Ha & Hd & Hs). subst st1.
      unfold counts_fit; cbn. repeat split; try apply Ha; try apply Hd; try apply Hs;
        unfold Int32.in_range, Int32.min_int, Int32.max_int in *; lia. }
    destruct (IH st1 Hfit1) as (outs & Hlen & Hrun).
    { subst st1; cbn; lia. }
    { subst st1; cbn; lia. }
    exists (out :: outs). split; [cbn; lia|].
    cbn [Envelope.Run]. rewrite Hstep. fold st1. rewrite Hrun.
    subst st1. cbn [CurrentSampleIndex set_CurrentSampleIndex].
    rewrite set_index_twice. cbn [fmap list_fmap].
    do 2 f_equal. lia.
Qed.

(** C4, as the code has it. From index 0, with an attack of [A >= 1] and a
    decay of [D >= 1] samples, the [A + D] calls that span the envelope
    report no finished frame and leave the index at [A + D]; it is the
    call after them that completes the run: the index becomes [NONE], the
    output is 0 and the single finished frame, 0, is reported. A run of
    [A + D + 1] calls thus has exactly one entry, on its final call. *)
Theorem C4_completion_after_last_sample (st : t) (EndFrame : Z) :
  1 <= AttackSampleCount st ->
  1 <= DecaySampleCount st ->
  Int32.in_range (AttackSampleCount st + DecaySampleCount st) ->
  CurrentSampleIndex st = 0 ->
  let n := Z.to_nat (AttackSampleCount st + DecaySampleCount st) in
  (exists outs,
      length outs = n
      /\ Envelope.Run Pow EndFrame n st =
           (set_CurrentSampleIndex (AttackSampleCount st + DecaySampleCount st) st,
            (fun out => ([], out)) <$> outs))
  /\ (exists outs,
        length outs = n
        /\ Envelope.Run Pow EndFrame (n + 1) st =
             (set_CurrentSampleIndex INDEX_NONE st,
              ((fun out => ([], out)) <$> outs) ++ [([0], F32.zero)])).
Proof.
  intros HA HD Hs Hidx n.
  assert (Hfit : counts_fit st).
  { unfold counts_fit. rewrite Hidx.
    unfold Int32.in_range, Int32.min_int, Int32.max_int in *. lia. }
  destruct (Run_active EndFrame n st Hfit) as (outs & Hlen & Hrun).
  { lia. }
  { subst n. rewrite Z2Nat.id by lia. lia. }
  assert (Hn : CurrentSampleIndex st + Z.of_nat n
               = AttackSampleCount st + DecaySampleCount st).
  { subst n. rewrite Z2Nat.id by lia. lia. }
  rewrite Hn in Hrun.
  split.
  - exists outs. split; assumption.
  - exists outs. split; [assumption|].
    rewrite Run_app, Hrun. cbn [Envelope.Run].
    rewrite advance_done.
    + rewrite set_index_twice. reflexivity.
    + cbn. unfold INDEX_NONE. lia.
    + cbn. lia.
    + cbn. rewrite Int32Facts.add_exact by assumption. lia.
Qed.

End EnvelopeFacts.

(** C4, counterexample to the specification as written. With one attack
    and one decay sample, the two calls that span the [A + D = 2] samples
    report no finished frame and leave the envelope active at index 2. *)
Lemma C4_counterexample :
  let r := Envelope.Run PowSpecial 4 2 Examples.one_one in
  concat (fst <$> r.2) = []
  /\ FEnvelopeState.CurrentSampleIndex r.1 = 2
  /\ FEnvelopeState.CurrentSampleIndex r.1 <> INDEX_NONE.
Proof. vm_compute. repeat split; discriminate. Qed.

(** Witness of C4: one attack and one decay sample. *)
Lemma C4_witness :
  (1 <= 1 /\ 1 <= 1 /\ Int32.in_range (1 + 1) /\ 0 = 0)
  /\ exists outs,
       length outs = 2%nat
       /\ Envelope.Run PowSpecial 4 3 Examples.one_one =
            (FEnvelopeState.set_CurrentSampleIndex INDEX_NONE Examples.one_one,
             ((fun out => ([], out)) <$> outs) ++ [([0], F32.zero)]).
Proof.
  assert (Hr : Int32.in_range (1 + 1)) by (vm_compute; split; discriminate).
  split; [repeat split; try lia; apply Hr|].
  apply (C4_completion_after_last_sample PowSpecial Examples.one_one 4);
    [cbn; lia | cbn; lia | exact Hr | reflexivity].
Defined.

(** ** The operator *)

Section OperatorFacts.

Variable Pow : float -> float -> float.
Context {Filter : Type} `{!StateVariableFilter Filter}.

Import FLowPassGateOperator.

Implicit Types op : t Filter.

(** *** The finished frames of one call *)

Lemma advance_finished (st : FEnvelopeState.t) (StartFrame EndFrame : Z) :
  let r := Envelope.GetNextEnvelopeOutput Pow st StartFrame EndFrame [] in
  r.1.2 = [] \/ (r.1.2 = [0] /\ StartFrame <= 0).
Proof.
  unfold Envelope.GetNextEnvelopeOutput.
  destruct (0 <? StartFrame) eqn:E; cbn [orb]; [left; reflexivity|].
  apply Z.ltb_ge in E.
  repeat match goal with
         | |- context [if ?c then _ else _] => destruct c
         end; cbn; auto.
Qed.

Lemma AdvanceAndForward_cases (StartFrame EndFrame : Z) op :
  let r := Envelope.GetNextEnvelopeOutput Pow (EnvelopeState op) StartFrame EndFrame [] in
  let op1 := set_OutEnvelope r.2 (set_EnvelopeState r.1.1 op) in
  (r.1.2 = [] /\ AdvanceAndForward Pow StartFrame EndFrame op = op1)
  \/ (r.1.2 = [0] /\ StartFrame <= 0
      /\ AdvanceAndForward Pow StartFrame EndFrame op =
           set_OnDone (FTrigger.TriggerFrame 0 (OnDone op)) op1).
Proof.
  intros r op1. subst op1. unfold AdvanceAndForward.
  pose proof (advance_finished (EnvelopeState op) StartFrame EndFrame) as Hf.
  cbv zeta in Hf. fold r in Hf |- *.
  destruct r as [[es fin] env]. cbn [fst snd] in *.
  destruct Hf as [->|[-> Hle]]; [left|right]; auto.
Qed.

(** *** What the trigger dispatch leaves alone *)

Lemma ExecuteBlock_invariant {S : Type} (P : S -> Prop)
    (pre on : Z -> Z -> S -> S) (tr : FTrigger.t) (s : S) :
  (forall a b s, P s -> P (pre a b s)) ->
  (forall a b s, P s -> P (on a b s)) ->
  P s -> P (FTrigger.ExecuteBlock pre on tr s).
Proof.
  intros Hpre Hon. unfold FTrigger.ExecuteBlock.
  revert s. induction (FTrigger.SubRanges tr) as [|[[trig a] b] l IH]; intros s Hs.
  - exact Hs.
  - cbn [foldl]. apply IH. unfold FTrigger.Dispatch. destruct trig; auto.
Qed.

Lemma advance_frame (st : FEnvelopeState.t) (StartFrame EndFrame : Z) (Fin : list Z) :
  let st' := (Envelope.GetNextEnvelopeOutput Pow st StartFrame EndFrame Fin).1.1 in
  FEnvelopeState.CurrentEnvelopeValue st' = FEnvelopeState.CurrentEnvelopeValue st
  /\ FEnvelopeState.bLooping st' = FEnvelopeState.bLooping st
  /\ FEnvelopeState.bHardReset st' = FEnvelopeState.bHardReset st
  /\ FEnvelopeState.AttackSampleCount st' = FEnvelopeState.AttackSampleCount st
  /\ FEnvelopeState.DecaySampleCount st' = FEnvelopeState.DecaySampleCount st
  /\ FEnvelopeState.StartingEnvelopeValue st' = FEnvelopeState.StartingEnvelopeValue st.
Proof.
  unfold Envelope.GetNextEnvelopeOutput.
  repeat match goal with
         | |- context [if ?c then _ else _] => destruct c
         end; cbn; auto 10.
Qed.

Lemma AdvanceAndForward_frame (StartFrame EndFrame : Z) op :
  dispatch_frame (AdvanceAndForward Pow StartFrame EndFrame op) = dispatch_frame op.
Proof.
  pose proof (advance_frame (EnvelopeState op) StartFrame EndFrame []) as Hf.
  cbv zeta in Hf. destruct Hf as (H1 & H2 & H3 & _).
  destruct (AdvanceAndForward_cases StartFrame EndFrame op) as [[_ ->]|(_ & _ & ->)];
    unfold dispatch_frame; cbn; rewrite H1, H2, H3; reflexivity.
Qed.

Lemma UpdateParams_frame op : dispatch_frame (UpdateParams op) = dispatch_frame op.
Proof. reflexivity. Qed.

Lemma PreTriggerLambda_frame (StartFrame EndFrame : Z) op :
  dispatch_frame (PreTriggerLambda Pow StartFrame EndFrame op) = dispatch_frame op.
Proof. apply AdvanceAndForward_frame. Qed.

Lemma OnTriggerLambda_frame (StartFrame EndFrame : Z) op :
  dispatch_frame (OnTriggerLambda Pow StartFrame EndFrame op) = dispatch_frame op.
Proof.
  unfold OnTriggerLambda.
  match goal with
  | |- dispatch_frame (set_OnAttackTrigger _ ?o) = _ =>
      change (dispatch_frame o = dispatch_frame op)
  end.
  rewrite AdvanceAndForward_frame. reflexivity.
Qed.

Lemma DispatchTriggers_frame op :
  dispatch_frame (DispatchTriggers Pow op) = dispatch_frame op.
Proof.
  unfold DispatchTriggers.
  apply (ExecuteBlock_invariant (fun o => dispatch_frame o = dispatch_frame op)).
  - intros a b s Hs. rewrite PreTriggerLambda_frame. exact Hs.
  - intros a b s Hs. rewrite OnTriggerLambda_frame. exact Hs.
  - reflexivity.
Qed.

Lemma HandleLowPassFilter_frame op :
  let op' := HandleLowPassFilter op in
  In op' = In op /\ OnAttackTrigger op' = OnAttackTrigger op
  /\ OnDone op' = OnDone op /\ OutEnvelope op' = OutEnvelope op
  /\ AudioOutput op' = AudioOutput op /\ SampleRate op' = SampleRate op
  /\ NumFramesPerBlock op' = NumFramesPerBlock op
  /\ EnvelopeState op' = EnvelopeState op.
Proof.
  unfold HandleLowPassFilter.
  match goal with |- context [if ?c then _ else _] => destruct c end;
    cbn; auto 10.
Qed.

Lemma RunFilter_frame (Input : list float) op :
  let op' := RunFilter Input op in
  In op' = In op /\ OnAttackTrigger op' = OnAttackTrigger op
  /\ OnDone op' = OnDone op /\ OutEnvelope op' = OutEnvelope op
  /\ SampleRate op' = SampleRate op
  /\ NumFramesPerBlock op' = NumFramesPerBlock op
  /\ EnvelopeState op' = EnvelopeState op
  /\ PreviousFrequency op' = PreviousFrequency op
  /\ PreviousResonance op' = PreviousResonance op
  /\ PreviousBandStopControl op' = PreviousBandStopControl op.
Proof.
  unfold RunFilter.
  destruct (ProcessAudio _ _ _ _) as [f out]. cbn. auto 12.
Qed.

(** C7. In LowPass mode a block is the filter alone: the envelope state
    (the sample index in particular) is what it was, neither output
    trigger is advanced or fired, and the envelope output is untouched. *)
Theorem C7_lowpass_leaves_envelope op :
  Mode (In op) = LowPass ->
  Execute Pow op = RunFilter (AudioInput (In op)) (HandleLowPassFilter op)
  /\ EnvelopeState (Execute Pow op) = EnvelopeState op
  /\ FEnvelopeState.CurrentSampleIndex (EnvelopeState (Execute Pow op))
     = FEnvelopeState.CurrentSampleIndex (EnvelopeState op)
  /\ OnAttackTrigger (Execute Pow op) = OnAttackTrigger op
  /\ OnDone (Execute Pow op) = OnDone op
  /\ OutEnvelope (Execute Pow op) = OutEnvelope op.
Proof.
  intros HM.
  assert (HE : Execute Pow op = RunFilter (AudioInput (In op)) (HandleLowPassFilter op)).
  { unfold Execute. rewrite HM.
    destruct (HandleLowPassFilter_frame op) as (-> & _). reflexivity. }
  rewrite HE. split; [reflexivity|].
  destruct (RunFilter_frame (AudioInput (In op)) (HandleLowPassFilter op))
    as (_ & Ha & Hd & Ho & _ & _ & He & _).
  destruct (HandleLowPassFilter_frame op) as (_ & Ha' & Hd' & Ho' & _ & _ & _ & He').
  rewrite He, He', Ha, Ha', Hd, Hd', Ho, Ho'. auto.
Qed.

(** *** The gain loop *)

Lemma for_range_scale (InputAudio : list float) (Gain : float) (c i : nat)
    (out : list float) (j : nat) :
  (i + c <= length InputAudio)%nat ->
  (i + c <= length out)%nat ->
  for_range i c
    (fun i out =>
       match InputAudio !! i with
       | Some x => <[i := F32.mul x Gain]> out
       | None => out
       end) out !! j
  = if decide (i <= j < i + c)%nat
    then (fun x => F32.mul x Gain) <$> InputAudio !! j
    else out !! j.
Proof.
  revert i out. induction c as [|c IH]; intros i out Hin Hout; cbn [for_range].
  - destruct (decide _) as [H|H]; [lia|reflexivity].
  - destruct (lookup_lt_is_Some_2 InputAudio i ltac:(lia)) as [x Hx].
    rewrite Hx. rewrite IH by (rewrite ?length_insert; lia).
    destruct (decide (S i <= j < S i + c)%nat) as [H1|H1].
    + destruct (decide _) as [H2|H2]; [reflexivity|lia].
    + destruct (decide (i = j)) as [->|Hne].
      * rewrite list_lookup_insert_eq by lia.
        destruct (decide _) as [H2|H2]; [|lia]. rewrite Hx. reflexivity.
      * rewrite list_lookup_insert_ne by assumption.
        destruct (decide _) as [H2|H2]; [lia|reflexivity].
Qed.

Lemma for_range_scale_length (InputAudio : list float) (Gain : float) (c i : nat)
    (out : list float) :
  length (for_range i c
            (fun i out =>
               match InputAudio !! i with
               | Some x => <[i := F32.mul x Gain]> out
               | None => out
               end) out) = length out.
Proof.
  revert i out. induction c as [|c IH]; intros i out; cbn [for_range]; [reflexivity|].
  rewrite IH. destruct (InputAudio !! i); [apply length_insert|reflexivity].
Qed.

Lemma ScaleInto_length (InputAudio : list float) (Gain : float) (Out : list float) :
  length (ScaleInto InputAudio Gain Out) = length Out.
Proof. apply for_range_scale_length. Qed.

(** Inside the input's length the output holds the scaled input, past it
    the buffer keeps what it had. *)
Lemma ScaleInto_lookup (InputAudio : list float) (Gain : float) (Out : list float)
    (j : nat) :
  (length InputAudio <= length Out)%nat ->
  ScaleInto InputAudio Gain Out !! j
  = if decide (j < length InputAudio)%nat
    then (fun x => F32.mul x Gain) <$> InputAudio !! j
    else Out !! j.
Proof.
  intros Hlen. unfold ScaleInto. rewrite for_range_scale by lia.
  destruct (decide (0 <= j < 0 + length InputAudio)%nat), (decide (j < length InputAudio)%nat);
    try reflexivity; lia.
Qed.

Lemma ScaleInto_fmap (InputAudio : list float) (Gain : float) (Out : list float) :
  length Out = length InputAudio ->
  ScaleInto InputAudio Gain Out = (fun x => F32.mul x Gain) <$> InputAudio.
Proof.
  intros Hlen. apply list_eq. intros j.
  rewrite ScaleInto_lookup by lia. rewrite list_lookup_fmap.
  destruct (decide _) as [H|H]; [reflexivity|].
  rewrite !lookup_ge_None_2 by lia. reflexivity.
Qed.

(** *** The sub-range that is processed last *)

Lemma OnTriggerLambda_unfold (StartFrame EndFrame : Z) op :
  OnTriggerLambda Pow StartFrame EndFrame op =
    let op1 := AdvanceAndForward Pow StartFrame EndFrame (ResetForTrigger op) in
    set_OnAttackTrigger (FTrigger.TriggerFrame StartFrame (OnAttackTrigger op1)) op1.
Proof. reflexivity. Qed.

Lemma AdvanceAndForward_output (StartFrame EndFrame : Z) op :
  OutEnvelope (AdvanceAndForward Pow StartFrame EndFrame op)
  = (Envelope.GetNextEnvelopeOutput Pow (EnvelopeState op) StartFrame EndFrame []).2
  /\ EnvelopeState (AdvanceAndForward Pow StartFrame EndFrame op)
     = (Envelope.GetNextEnvelopeOutput Pow (EnvelopeState op) StartFrame EndFrame []).1.1
  /\ OnAttackTrigger (AdvanceAndForward Pow StartFrame EndFrame op) = OnAttackTrigger op.
Proof.
  destruct (AdvanceAndForward_cases StartFrame EndFrame op) as [[_ ->]|(_ & _ & ->)];
    cbn; auto.
Qed.

Lemma Dispatch_output (IsTrigger : bool) (StartFrame EndFrame : Z) op :
  OutEnvelope (FTrigger.Dispatch (PreTriggerLambda Pow) (OnTriggerLambda Pow)
                 (IsTrigger, StartFrame, EndFrame) op)
  = (Envelope.GetNextEnvelopeOutput Pow (SubRangeStart IsTrigger op)
       StartFrame EndFrame []).2.
Proof.
  unfold FTrigger.Dispatch, SubRangeStart. destruct IsTrigger.
  - rewrite OnTriggerLambda_unfold. cbn zeta.
    change (OutEnvelope (set_OnAttackTrigger ?a ?o)) with (OutEnvelope o).
    apply AdvanceAndForward_output.
  - apply AdvanceAndForward_output.
Qed.

Lemma DispatchTriggers_fold op :
  DispatchTriggers Pow op =
    foldl (fun s r => FTrigger.Dispatch (PreTriggerLambda Pow) (OnTriggerLambda Pow) r s)
          (BlockStart op) (FTrigger.SubRanges (TriggerAttackIn (In op))).
Proof. reflexivity. Qed.

(** C8. In VCA mode, with an output buffer that has room for the input,
    every output sample is the input sample times the envelope output of
    the block; that one value is what the envelope engine returned for the
    sub-range processed last. With a constant input of 1.0 and an envelope
    of 0.5 the output is 0.5 throughout. *)
Theorem C8_vca_scales_by_envelope op :
  Mode (In op) = VCA ->
  (length (AudioInput (In op)) <= length (AudioOutput op))%nat ->
  let env := OutEnvelope (CalculateEnvelope Pow op) in
  OutEnvelope (Execute Pow op) = env
  /\ (forall (i : nat) (x : float),
        AudioInput (In op) !! i = Some x ->
        AudioOutput (Execute Pow op) !! i = Some (F32.mul x env))
  /\ (forall pre IsTrigger StartFrame EndFrame,
        FTrigger.SubRanges (TriggerAttackIn (In op))
          = pre ++ [(IsTrigger, StartFrame, EndFrame)] ->
        env = (Envelope.GetNextEnvelopeOutput Pow
                 (SubRangeStart IsTrigger
                    (foldl (fun s r => FTrigger.Dispatch (PreTriggerLambda Pow)
                                         (OnTriggerLambda Pow) r s)
                           (BlockStart op) pre))
                 StartFrame EndFrame []).2)
  /\ (env = F32.half ->
      (forall (i : nat) (x : float), AudioInput (In op) !! i = Some x -> x = F32.one) ->
      forall i : nat, (i < length (AudioInput (In op)))%nat ->
                      AudioOutput (Execute Pow op) !! i = Some F32.half).
Proof.
  intros HM Hlen env.
  pose proof (DispatchTriggers_frame op) as Hfr.
  unfold dispatch_frame in Hfr. injection Hfr as HIn HOut _ _ _ _ _ _ _ _ _.
  assert (HE : Execute Pow op =
               set_AudioOutput
                 (ScaleInto (AudioInput (In op)) env (AudioOutput op))
                 (CalculateEnvelope Pow op)).
  { unfold Execute. rewrite HM. unfold CalculateEnvelope in *.
    rewrite HIn, HOut. reflexivity. }
  assert (Hpoint : forall (i : nat) (x : float),
             AudioInput (In op) !! i = Some x ->
             AudioOutput (Execute Pow op) !! i = Some (F32.mul x env)).
  { intros i x Hx. rewrite HE. cbn [AudioOutput set_AudioOutput].
    rewrite ScaleInto_lookup by assumption.
    destruct (decide _) as [Hi|Hi].
    - rewrite Hx. reflexivity.
    - apply lookup_lt_Some in Hx. lia. }
  split; [rewrite HE; reflexivity|].
  split; [exact Hpoint|].
  split.
  - intros pre trig a b Hsub. subst env. unfold CalculateEnvelope.
    rewrite DispatchTriggers_fold, Hsub, foldl_app. cbn [foldl].
    apply Dispatch_output.
  - intros Henv Hone i Hi.
    destruct (lookup_lt_is_Some_2 _ _ Hi) as [x Hx].
    rewrite (Hpoint i x Hx), (Hone i x Hx), Henv. reflexivity.
Qed.

(** *** The done trigger *)

Lemma insert_sorted_zeros (l : list Z) :
  Forall (fun f => f = 0) l -> Forall (fun f => f = 0) (FTrigger.insert_sorted 0 l).
Proof.
  induction 1 as [|g r Hg Hr IH]; cbn [FTrigger.insert_sorted].
  - repeat constructor.
  - destruct (g <? 0); repeat constructor; assumption.
Qed.

Lemma AdvanceBlock_zeros (tr : FTrigger.t) :
  0 <= FTrigger.NumFramesPerBlock tr ->
  Forall (fun f => f = 0) (FTrigger.TriggeredFrames tr) ->
  Forall (fun f => f = 0) (FTrigger.TriggeredFrames (FTrigger.AdvanceBlock tr)).
Proof.
  intros HN. unfold FTrigger.AdvanceBlock. cbn [FTrigger.TriggeredFrames].
  induction 1 as [|g r Hg Hr IH]; [constructor|].
  rewrite filter_cons. destruct (decide _) as [Hd|Hd]; [|exact IH].
  rewrite fmap_cons. constructor; [lia|exact IH].
Qed.

Lemma AdvanceAndForward_done (StartFrame EndFrame : Z) op :
  OnDone (AdvanceAndForward Pow StartFrame EndFrame op) = OnDone op
  \/ OnDone (AdvanceAndForward Pow StartFrame EndFrame op)
     = FTrigger.TriggerFrame 0 (OnDone op).
Proof.
  destruct (AdvanceAndForward_cases StartFrame EndFrame op) as [[_ ->]|(_ & _ & ->)];
    cbn; auto.
Qed.

Lemma OnTriggerLambda_done (StartFrame EndFrame : Z) op :
  OnDone (OnTriggerLambda Pow StartFrame EndFrame op) = OnDone op
  \/ OnDone (OnTriggerLambda Pow StartFrame EndFrame op)
     = FTrigger.TriggerFrame 0 (OnDone op).
Proof.
  rewrite OnTriggerLambda_unfold. cbn zeta.
  change (OnDone (set_OnAttackTrigger ?a ?o)) with (OnDone o).
  apply (AdvanceAndForward_done StartFrame EndFrame (ResetForTrigger op)).
Qed.

Lemma done_at_zero_trigger op op' :
  done_at_zero op ->
  OnDone op' = OnDone op \/ OnDone op' = FTrigger.TriggerFrame 0 (OnDone op) ->
  done_at_zero op'.
Proof.
  unfold done_at_zero. intros [HN Hz] [->| ->]; [split; assumption|].
  split; [exact HN|]. cbn. apply insert_sorted_zeros, Hz.
Qed.

Lemma DispatchTriggers_done op :
  done_at_zero op -> done_at_zero (DispatchTriggers Pow op).
Proof.
  intros [HN Hz]. unfold DispatchTriggers.
  apply (ExecuteBlock_invariant done_at_zero).
  - intros a b s Hs. apply (done_at_zero_trigger s); [exact Hs|].
    apply AdvanceAndForward_done.
  - intros a b s Hs. apply (done_at_zero_trigger s); [exact Hs|].
    apply OnTriggerLambda_done.
  - split; cbn; [exact HN|]. apply AdvanceBlock_zeros; assumption.
Qed.

Lemma Execute_done op : done_at_zero op -> done_at_zero (Execute Pow op).
Proof.
  intros Hd. unfold Execute. destruct (Mode (In op)).
  - destruct (RunFilter_frame (AudioInput (In (HandleLowPassFilter op)))
                (HandleLowPassFilter op)) as (_ & _ & H1 & _).
    destruct (HandleLowPassFilter_frame op) as (_ & _ & H2 & _).
    unfold done_at_zero. rewrite H1, H2. exact Hd.
  - apply DispatchTriggers_done in Hd. exact Hd.
  - apply DispatchTriggers_done in Hd.
    match goal with
    | |- done_at_zero (RunFilter ?i (HandleLowPassFilter ?o)) =>
        destruct (RunFilter_frame i (HandleLowPassFilter o)) as (_ & _ & H1 & _);
        destruct (HandleLowPassFilter_frame o) as (_ & _ & H2 & _)
    end.
    unfold done_at_zero. rewrite H1, H2. exact Hd.
Qed.

Lemma Blocks_done (l : list Inputs) op :
  done_at_zero op -> done_at_zero (Blocks Pow op l).
Proof.
  revert op. induction l as [|i l IH]; intros op Hd; [exact Hd|].
  cbn [Blocks foldl]. apply IH. unfold Block. apply Execute_done. exact Hd.
Qed.

(** C10. The done trigger only ever fires at frame 0. Every finished frame
    the envelope engine reports is 0; both lambdas hand it to [OnDone] as
    it is, whatever the start frame of their sub-range; and so, for an
    operator built for blocks of a non-negative length, after any number
    of blocks in any modes the done trigger holds no frame but 0. *)
Theorem C10_done_fires_at_frame_zero
    (InSampleRate : float) (InNumFramesPerBlock : Z) (i0 : Inputs) (l : list Inputs) :
  0 <= InNumFramesPerBlock ->
  Forall (fun f => f = 0)
    (FTrigger.TriggeredFrames
       (OnDone (Blocks Pow (Construct InSampleRate InNumFramesPerBlock i0) l)))
  /\ (forall (st : FEnvelopeState.t) (StartFrame EndFrame : Z),
        Forall (fun f => f = 0)
          (Envelope.GetNextEnvelopeOutput Pow st StartFrame EndFrame []).1.2)
  /\ (forall op (StartFrame EndFrame : Z),
        (OnDone (PreTriggerLambda Pow StartFrame EndFrame op) = OnDone op
         \/ OnDone (PreTriggerLambda Pow StartFrame EndFrame op)
            = FTrigger.TriggerFrame 0 (OnDone op))
        /\ (OnDone (OnTriggerLambda Pow StartFrame EndFrame op) = OnDone op
            \/ OnDone (OnTriggerLambda Pow StartFrame EndFrame op)
               = FTrigger.TriggerFrame 0 (OnDone op))).
Proof.
  intros HN. split; [|split].
  - apply Blocks_done. split; cbn; [exact HN|constructor].
  - intros st a b.
    destruct (advance_finished st a b) as [->|[-> _]]; repeat constructor.
  - intros op a b. split.
    + apply AdvanceAndForward_done.
    + apply OnTriggerLambda_done.
Qed.

(** *** The filter cache *)

Lemma HandleLowPassFilter_cases op :
  HandleLowPassFilter op =
    if negb (FMath.IsNearlyEqual (PreviousFrequency op)
               (FMath.Clamp (CutOffFrequency (In op)) F32.zero
                  (F32.mul F32.half (SampleRate op))))
       || negb (FMath.IsNearlyEqual (PreviousResonance op) F32.zero)
       || negb (FMath.IsNearlyEqual (PreviousBandStopControl op) F32.zero)
    then Commit op else op.
Proof. reflexivity. Qed.

Lemma Construct_sentinels (InSampleRate : float) (InNumFramesPerBlock : Z) (i : Inputs) :
  let op := Construct InSampleRate InNumFramesPerBlock i in
  PreviousFrequency op = F32.minus_one
  /\ PreviousResonance op = F32.minus_one
  /\ PreviousBandStopControl op = F32.minus_one.
Proof. cbn. auto. Qed.

(** C9. With a well-formed finite sample rate: the parameters are
    committed on the first call, the cache still holding its -1 sentinels,
    and -1 is not nearly equal to the clamp of any well-formed cut off;
    they are committed on every call whose clamped cut off is not nearly
    equal to the cached frequency; once a call has been made, a later call
    with the same cut off finds the cache matching and changes nothing,
    neither the filter nor the three cached values. *)
Theorem C9_commit_only_on_change op :
  F32.valid (SampleRate op) = true ->
  F32.is_finite (SampleRate op) = true ->
  (PreviousFrequency op = F32.minus_one ->
   PreviousResonance op = F32.minus_one ->
   PreviousBandStopControl op = F32.minus_one ->
   HandleLowPassFilter op = Commit op)
  /\ (F32.valid (CutOffFrequency (In op)) = true ->
      FMath.IsNearlyEqual F32.minus_one
        (FMath.Clamp (CutOffFrequency (In op)) F32.zero
           (F32.mul F32.half (SampleRate op))) = false)
  /\ (FMath.IsNearlyEqual (PreviousFrequency op)
        (FMath.Clamp (CutOffFrequency (In op)) F32.zero
           (F32.mul F32.half (SampleRate op))) = false ->
      HandleLowPassFilter op = Commit op)
  /\ (forall op',
        SampleRate op' = SampleRate op ->
        CutOffFrequency (In op') = CutOffFrequency (In op) ->
        PreviousFrequency op' = PreviousFrequency (HandleLowPassFilter op) ->
        PreviousResonance op' = PreviousResonance (HandleLowPassFilter op) ->
        PreviousBandStopControl op' = PreviousBandStopControl (HandleLowPassFilter op) ->
        HandleLowPassFilter op' = op')
  /\ HandleLowPassFilter (HandleLowPassFilter op) = HandleLowPassFilter op.
Proof.
  intros Hvalid Hfinite.
  pose proof (F32Arith.half_mul_finite (SampleRate op) Hvalid Hfinite) as Hfin.
  assert (Hskip : forall op',
        SampleRate op' = SampleRate op ->
        CutOffFrequency (In op') = CutOffFrequency (In op) ->
        PreviousFrequency op' = PreviousFrequency (HandleLowPassFilter op) ->
        PreviousResonance op' = PreviousResonance (HandleLowPassFilter op) ->
        PreviousBandStopControl op' = PreviousBandStopControl (HandleLowPassFilter op) ->
        HandleLowPassFilter op' = op').
  { intros op' HSR HC HF HR HB.
    rewrite (HandleLowPassFilter_cases op'), HSR, HC, HF, HR, HB.
    pose proof (HandleLowPassFilter_cases op) as Hop.
    destruct (negb _ || negb _ || negb _) eqn:E in Hop; rewrite Hop.
    - cbn [Commit PreviousFrequency PreviousResonance PreviousBandStopControl set_Previous].
      rewrite F32Facts.IsNearlyEqual_refl
        by (apply F32Facts.Clamp_finite; [reflexivity|assumption]).
      reflexivity.
    - rewrite E. reflexivity. }
  split; [|split; [|split; [|split]]].
  - intros HF HR HB. rewrite HandleLowPassFilter_cases, HR.
    change (negb (FMath.IsNearlyEqual F32.minus_one F32.zero)) with true.
    rewrite orb_true_r. reflexivity.
  - intros Hcut. apply F32Arith.minus_one_not_near.
    + destruct (F32Facts.Clamp_cases (CutOffFrequency (In op)) F32.zero
                  (F32.mul F32.half (SampleRate op))) as [->|[[-> _]|(-> & _)]].
      * reflexivity.
      * apply RoundingFacts.SFmul_valid; [reflexivity|exact Hvalid].
      * exact Hcut.
    + destruct (F32Facts.Clamp_cases (CutOffFrequency (In op)) F32.zero
                  (F32.mul F32.half (SampleRate op))) as [->|[[-> H]|(-> & H & _)]].
      * left. reflexivity.
      * right. exact H.
      * right. exact H.
  - intros HF. rewrite HandleLowPassFilter_cases, HF. reflexivity.
  - exact Hskip.
  - apply Hskip; try reflexivity.
    + apply HandleLowPassFilter_frame.
    + destruct (HandleLowPassFilter_frame op) as (-> & _). reflexivity.
Qed.

(** *** The cache and the filter *)

Lemma cache_in_step_frame op op' :
  dispatch_frame op' = dispatch_frame op -> cache_in_step op -> cache_in_step op'.
Proof.
  unfold dispatch_frame. intros Hfr Hs.
  injection Hfr as _ _ _ _ Hf Hpf Hpr Hpb _ _ _.
  unfold cache_in_step. rewrite Hf, Hpf, Hpr, Hpb. exact Hs.
Qed.

(** After a call the filter is committed at the cached frequency, also
    on the first call: the sentinel of the resonance is not nearly 0. *)
Lemma HandleLowPassFilter_in_step op :
  cache_in_step op ->
  committed_at (PreviousFrequency (HandleLowPassFilter op))
               (VariableFilter (HandleLowPassFilter op))
  /\ PreviousResonance (HandleLowPassFilter op) = F32.zero
  /\ PreviousBandStopControl (HandleLowPassFilter op) = F32.zero.
Proof.
  intros Hs. rewrite HandleLowPassFilter_cases.
  destruct (negb _ || negb _ || negb _) eqn:E.
  - split; [exact (committed_now _ (VariableFilter op))|split; reflexivity].
  - destruct Hs as [(_ & Hr & _)|Hs]; [exfalso|exact Hs].
    apply orb_false_iff in E. destruct E as [E _].
    apply orb_false_iff in E. destruct E as [_ E].
    rewrite Hr in E. discriminate E.
Qed.

Lemma RunFilter_filter (Input : list float) op :
  VariableFilter (RunFilter Input op)
  = (ProcessAudio Input (Z.of_nat (length (AudioInput (In op)))) (AudioOutput op)
       (VariableFilter op)).1.
Proof. unfold RunFilter. destruct (ProcessAudio _ _ _ _) as [f out]. reflexivity. Qed.

Lemma RunFilter_committed (Input : list float) (c : float) op :
  committed_at c (VariableFilter op) -> committed_at c (VariableFilter (RunFilter Input op)).
Proof. intros Hc. rewrite RunFilter_filter. apply committed_then. exact Hc. Qed.

Lemma RunFilter_in_step (Input : list float) op :
  committed_at (PreviousFrequency op) (VariableFilter op)
  /\ PreviousResonance op = F32.zero /\ PreviousBandStopControl op = F32.zero ->
  cache_in_step (RunFilter Input op).
Proof.
  intros (Hc & Hr & Hb). right.
  destruct (RunFilter_frame Input op) as (_ & _ & _ & _ & _ & _ & _ & -> & -> & ->).
  split; [apply RunFilter_committed; exact Hc|split; assumption].
Qed.

Lemma Execute_in_step op : cache_in_step op -> cache_in_step (Execute Pow op).
Proof.
  intros Hs.
  assert (HD : cache_in_step (DispatchTriggers Pow op))
    by (apply (cache_in_step_frame op); [apply DispatchTriggers_frame|exact Hs]).
  unfold Execute. destruct (Mode (In op)).
  - apply RunFilter_in_step, HandleLowPassFilter_in_step. exact Hs.
  - exact HD.
  - apply RunFilter_in_step, HandleLowPassFilter_in_step. exact HD.
Qed.

Lemma Blocks_in_step (l : list Inputs) op :
  cache_in_step op -> cache_in_step (Blocks Pow op l).
Proof.
  revert op. induction l as [|i l IH]; intros op Hs; [exact Hs|].
  cbn [Blocks foldl]. apply IH. unfold Block. apply Execute_in_step. exact Hs.
Qed.

(** C5. In Both mode the cut off, read as a control between 0 and 20000,
    is turned into a fraction clamped to [0, 1] and interpolated into the
    range from 0 to 1, which for a well-formed cut off returns the clamped
    fraction itself; the envelope output of the block times that mapped
    value is the gain; the scratch buffer holds every input sample times
    the gain; and the filter runs over the scratch buffer into the audio
    output at the cut off itself clamped to [0, SampleRate / 2]. That
    frequency is committed to the filter, with a Q and a band stop control
    of 0, exactly when one of the three cached values is not nearly equal
    to the current one; otherwise filter and cache stay as they are and
    the cached frequency is nearly the clamped cut off. With a cache that
    is in step with the filter, as it is in every operator reached from
    its construction, the filter that processes the scratch buffer was
    last committed at the cached frequency, and that is the clamped cut
    off or nearly equal to it. *)
Theorem C5_both_gates_then_filters op :
  Mode (In op) = Both ->
  let CutOff := CutOffFrequency (In op) in
  let Pct := FMath.Clamp (F32.div (F32.sub CutOff F32.zero) (F32.of_int 20000))
                         F32.zero F32.one in
  let Mapped := FMath.GetMappedRangeValueClamped
                  F32.zero (F32.of_int 20000) F32.zero F32.one CutOff in
  let op1 := DispatchTriggers Pow op in
  let GateEnvelope := F32.mul (OutEnvelope op1) Mapped in
  let Scratch := (fun x => F32.mul x GateEnvelope) <$> AudioInput (In op) in
  let Cur := FMath.Clamp CutOff F32.zero (F32.mul F32.half (SampleRate op)) in
  let Hit := FMath.IsNearlyEqual (PreviousFrequency op) Cur
             && FMath.IsNearlyEqual (PreviousResonance op) F32.zero
             && FMath.IsNearlyEqual (PreviousBandStopControl op) F32.zero in
  (Mapped = FMath.Lerp F32.zero F32.one Pct
   /\ F32.leb F32.zero Pct = true /\ F32.leb Pct F32.one = true
   /\ (F32.valid CutOff = true ->
       Mapped = Pct /\ F32.leb F32.zero Mapped = true /\ F32.leb Mapped F32.one = true))
  /\ Execute Pow op = RunFilter Scratch (HandleLowPassFilter op1)
  /\ AudioOutput (Execute Pow op)
     = (ProcessAudio Scratch (Z.of_nat (length (AudioInput (In op))))
          (AudioOutput op) (VariableFilter (HandleLowPassFilter op1))).2
  /\ (HandleLowPassFilter op1 = op1
      \/ (HandleLowPassFilter op1 = Commit op1
          /\ PreviousFrequency (HandleLowPassFilter op1)
             = FMath.Clamp CutOff F32.zero (F32.mul F32.half (SampleRate op))))
  /\ (Hit = false ->
      HandleLowPassFilter op1 = Commit op1
      /\ VariableFilter (HandleLowPassFilter op1)
         = Update (SetBandStopControl F32.zero
                     (SetFrequency Cur (SetQ F32.zero (VariableFilter op))))
      /\ PreviousFrequency (HandleLowPassFilter op1) = Cur
      /\ PreviousResonance (HandleLowPassFilter op1) = F32.zero
      /\ PreviousBandStopControl (HandleLowPassFilter op1) = F32.zero)
  /\ (Hit = true ->
      HandleLowPassFilter op1 = op1
      /\ VariableFilter (HandleLowPassFilter op1) = VariableFilter op
      /\ PreviousFrequency (HandleLowPassFilter op1) = PreviousFrequency op
      /\ FMath.IsNearlyEqual (PreviousFrequency op) Cur = true)
  /\ (PreviousFrequency (HandleLowPassFilter op1) = Cur
      \/ FMath.IsNearlyEqual (PreviousFrequency (HandleLowPassFilter op1)) Cur = true)
  /\ (cache_in_step op ->
      committed_at (PreviousFrequency (HandleLowPassFilter op1))
                   (VariableFilter (HandleLowPassFilter op1))
      /\ committed_at (PreviousFrequency (HandleLowPassFilter op1))
                      (VariableFilter (Execute Pow op))
      /\ PreviousFrequency (Execute Pow op) = PreviousFrequency (HandleLowPassFilter op1)
      /\ cache_in_step (Execute Pow op))
  /\ (forall (InSampleRate : float) (InNumFramesPerBlock : Z) (i0 : Inputs)
             (l : list Inputs),
        cache_in_step (Blocks Pow (Construct InSampleRate InNumFramesPerBlock i0) l)).
Proof.
  intros HM CutOff Pct Mapped op1 GateEnvelope Scratch Cur Hit.
  pose proof (DispatchTriggers_frame op) as Hfr.
  unfold dispatch_frame in Hfr. fold op1 in Hfr.
  injection Hfr as HIn HOut HSR _ Hf Hpf Hpr Hpb _ _ _.
  assert (Hcases : HandleLowPassFilter op1 = if Hit then op1 else Commit op1).
  { rewrite (HandleLowPassFilter_cases op1). rewrite HIn, HSR, Hpf, Hpr, Hpb.
    fold CutOff Cur. unfold Hit.
    destruct (FMath.IsNearlyEqual (PreviousFrequency op) Cur),
             (FMath.IsNearlyEqual (PreviousResonance op) F32.zero),
             (FMath.IsNearlyEqual (PreviousBandStopControl op) F32.zero); reflexivity. }
  assert (HCur : PreviousFrequency (Commit op1) = Cur).
  { unfold Commit. cbn [PreviousFrequency set_Previous]. rewrite HIn, HSR. reflexivity. }
  assert (HExe : Execute Pow op = RunFilter Scratch (HandleLowPassFilter op1)).
  { unfold Execute. rewrite HM. fold op1. rewrite HIn. fold CutOff Mapped GateEnvelope.
    rewrite ScaleInto_fmap by apply length_replicate. reflexivity. }
  assert (Hnear : Hit = true -> FMath.IsNearlyEqual (PreviousFrequency op) Cur = true).
  { unfold Hit. intros H. apply andb_prop in H. destruct H as [H _].
    apply andb_prop in H. destruct H as [H _]. exact H. }
  split; [|split; [exact HExe|split; [|split; [|split; [|split; [|split; [|split]]]]]]].
  - split; [reflexivity|].
    destruct (F32Facts.Clamp_unit
                (F32.div (F32.sub CutOff F32.zero) (F32.of_int 20000))) as [Hlo Hhi].
    split; [exact Hlo|]. split; [exact Hhi|].
    intros Hv.
    assert (HM' : Mapped = Pct).
    { apply (F32Arith.Lerp_unit Pct). apply F32Arith.Clamp_unit_value.
      apply RoundingFacts.SFdiv_valid; [apply F32Arith.sub_zero_valid; exact Hv|reflexivity]. }
    rewrite HM'. split; [reflexivity|]. split; assumption.
  - rewrite HExe.
    destruct (HandleLowPassFilter_frame op1) as (HIn' & _ & _ & _ & HOut' & _).
    unfold RunFilter. rewrite HIn', HIn, HOut', HOut.
    destruct (ProcessAudio _ _ _ _) as [f out]. reflexivity.
  - rewrite Hcases. destruct Hit; [left; reflexivity|right].
    split; [reflexivity|exact HCur].
  - intros H. rewrite Hcases, H.
    split; [reflexivity|]. split; [|split; [exact HCur|split; reflexivity]].
    unfold Commit. cbn [VariableFilter set_Previous set_VariableFilter].
    rewrite HIn, HSR, Hf. reflexivity.
  - intros H. rewrite Hcases, H.
    split; [reflexivity|]. split; [exact Hf|]. split; [exact Hpf|exact (Hnear H)].
  - rewrite Hcases. destruct Hit eqn:EH; [right|left; exact HCur].
    rewrite Hpf. exact (Hnear eq_refl).
  - intros Hs.
    assert (HD : cache_in_step op1)
      by (apply (cache_in_step_frame op); [apply DispatchTriggers_frame|exact Hs]).
    pose proof (HandleLowPassFilter_in_step op1 HD) as Hstep.
    split; [exact (proj1 Hstep)|].
    split; [rewrite HExe; apply RunFilter_committed; exact (proj1 Hstep)|].
    split.
    + rewrite HExe.
      destruct (RunFilter_frame Scratch (HandleLowPassFilter op1))
        as (_ & _ & _ & _ & _ & _ & _ & -> & _).
      reflexivity.
    + apply Execute_in_step. exact Hs.
  - intros sr N i0 l. apply Blocks_in_step. left. apply Construct_sentinels.
Qed.

(** *** The parameter refresh *)

Lemma UpdateParams_counts_range op :
  Int32.in_range (FEnvelopeState.AttackSampleCount (EnvelopeState (UpdateParams op)))
  /\ Int32.in_range (FEnvelopeState.DecaySampleCount (EnvelopeState (UpdateParams op))).
Proof. split; apply F32Arith.to_int32_range. Qed.

(** C6, as the code has it. After a refresh on inputs within defined
    behaviour each sample count is the product of sample rate and time
    truncated toward zero, and at least 1, so that it converts to a
    positive finite divisor; each curve factor is the larger of the
    epsilon and the raw input and is above 0. *)
Theorem C6_refresh_truncates_and_clamps op :
  refresh_defined op ->
  let es := EnvelopeState (UpdateParams op) in
  (FEnvelopeState.AttackSampleCount es
     = Z.max 1 (F32.to_int32 (F32.mul (SampleRate op) (AttackTime (In op))))
   /\ 1 <= FEnvelopeState.AttackSampleCount es
   /\ exists m e, F32.of_int (FEnvelopeState.AttackSampleCount es) = S754_finite false m e)
  /\ (FEnvelopeState.DecaySampleCount es
        = Z.max 1 (F32.to_int32 (F32.mul (SampleRate op) (DecayTime (In op))))
      /\ 1 <= FEnvelopeState.DecaySampleCount es
      /\ exists m e, F32.of_int (FEnvelopeState.DecaySampleCount es) = S754_finite false m e)
  /\ (FEnvelopeState.AttackCurveFactor es
        = FMath.Max FMath.KINDA_SMALL_NUMBER (AttackCurveFactor (In op))
      /\ F32.ltb F32.zero (FEnvelopeState.AttackCurveFactor es) = true)
  /\ (FEnvelopeState.DecayCurveFactor es
        = FMath.Max FMath.KINDA_SMALL_NUMBER (DecayCurveFactor (In op))
      /\ F32.ltb F32.zero (FEnvelopeState.DecayCurveFactor es) = true).
Proof.
  intros (HvS & HvA & HvD & HrA & HrD & HnA & HnD) es.
  destruct (UpdateParams_counts_range op) as [HA HD]. fold es in HA, HD.
  assert (Hcount : forall Seconds,
             F32.valid Seconds = true ->
             F32.ltb (F32.mul (SampleRate op) Seconds) F32.two31 = true ->
             let n := F32.to_int32 (FMath.Max F32.one (F32.mul (SampleRate op) Seconds)) in
             n = Z.max 1 (F32.to_int32 (F32.mul (SampleRate op) Seconds))
             /\ 1 <= n
             /\ exists m e, F32.of_int n = S754_finite false m e).
  { intros Seconds Hv Hr n.
    destruct (F32Arith.to_int32_Max_one (F32.mul (SampleRate op) Seconds)) as [H1 H2].
    - apply RoundingFacts.SFmul_valid; assumption.
    - exact Hr.
    - fold n in H1, H2. split; [exact H1|]. split; [exact H2|].
      pose proof (F32Arith.to_int32_range
                    (FMath.Max F32.one (F32.mul (SampleRate op) Seconds))) as Hrange.
      fold n in Hrange. unfold Int32.in_range in Hrange.
      destruct (RoundingFacts.of_int_positive n) as (m & e & Hm & _).
      + unfold Int32.max_int in Hrange. lia.
      + exists m, e. exact Hm. }
  split; [exact (Hcount _ HvA HrA)|].
  split; [exact (Hcount _ HvD HrD)|].
  split; (split; [reflexivity|apply F32Arith.Max_epsilon_positive; assumption]).
Qed.

(** *** The trigger lambda *)

Lemma ResetForTrigger_state op :
  let es := EnvelopeState (ResetForTrigger op) in
  let es0 := EnvelopeState (UpdateParams op) in
  FEnvelopeState.CurrentSampleIndex es = 0
  /\ FEnvelopeState.AttackSampleCount es = FEnvelopeState.AttackSampleCount es0
  /\ FEnvelopeState.AttackCurveFactor es = FEnvelopeState.AttackCurveFactor es0
  /\ FEnvelopeState.StartingEnvelopeValue es
     = (if FEnvelopeState.bHardReset (EnvelopeState op) then F32.zero
        else FEnvelopeState.CurrentEnvelopeValue (EnvelopeState op)).
Proof. cbn. auto. Qed.

(** C2, as the code has it. The trigger lambda sets the sample index to 0,
    takes the starting value from [CurrentEnvelopeValue] (0 on a hard
    reset) and fires the attack trigger at its start frame. When that
    frame is 0 its call of the envelope engine yields the first attack
    sample and moves the index to 1: 1.0 for an instant attack, and
    otherwise the attack formula at the fraction [0 / AttackSampleCount],
    which is the starting value itself when that value lies in [0, 1],
    the curve input is not NaN and [Pow] maps a zero base with a positive
    exponent to 0. When the frame is past 0 the call returns at once: the
    envelope output is 0 and the index stays at 0. *)
Theorem C2_trigger_at_frame_zero_starts_attack op (StartFrame EndFrame : Z) :
  1 <= FEnvelopeState.AttackSampleCount (EnvelopeState (UpdateParams op)) ->
  let op' := OnTriggerLambda Pow StartFrame EndFrame op in
  let A := FEnvelopeState.AttackSampleCount (EnvelopeState (UpdateParams op)) in
  let Curve := FEnvelopeState.AttackCurveFactor (EnvelopeState (UpdateParams op)) in
  let Start := FEnvelopeState.StartingEnvelopeValue (EnvelopeState op') in
  Start = (if FEnvelopeState.bHardReset (EnvelopeState op) then F32.zero
           else FEnvelopeState.CurrentEnvelopeValue (EnvelopeState op))
  /\ OnAttackTrigger op' = FTrigger.TriggerFrame StartFrame (OnAttackTrigger op)
  /\ (StartFrame = 0 ->
      FEnvelopeState.CurrentSampleIndex (EnvelopeState op') = 1
      /\ (A = 1 -> OutEnvelope op' = F32.one)
      /\ (1 < A ->
          OutEnvelope op'
            = F32.add Start
                (F32.mul (F32.sub F32.one Start)
                   (Pow (F32.div (F32.of_int 0) (F32.of_int A)) Curve))
          /\ ((forall y, F32.ltb F32.zero y = true -> Pow F32.zero y = F32.zero) ->
              F32.is_nan (AttackCurveFactor (In op)) = false ->
              F32.unit_value Start ->
              OutEnvelope op' = Start)))
  /\ (0 < StartFrame ->
      FEnvelopeState.CurrentSampleIndex (EnvelopeState op') = 0
      /\ OutEnvelope op' = F32.zero
      /\ OnDone op' = OnDone op).
Proof.
  intros HA op' A Curve Start.
  destruct (ResetForTrigger_state op) as (Hidx & HAeq & HCeq & HSeq).
  cbv zeta in Hidx, HAeq, HCeq, HSeq. fold A in HAeq. fold Curve in HCeq.
  set (op0 := ResetForTrigger op) in *.
  assert (Hop' : op' = set_OnAttackTrigger
                         (FTrigger.TriggerFrame StartFrame
                            (OnAttackTrigger (AdvanceAndForward Pow StartFrame EndFrame op0)))
                         (AdvanceAndForward Pow StartFrame EndFrame op0))
    by reflexivity.
  destruct (AdvanceAndForward_output StartFrame EndFrame op0) as (Hout & Hes & Htr).
  assert (HES : EnvelopeState op'
                = (Envelope.GetNextEnvelopeOutput Pow (EnvelopeState op0)
                     StartFrame EndFrame []).1.1)
    by exact Hes.
  assert (HOut : OutEnvelope op'
                 = (Envelope.GetNextEnvelopeOutput Pow (EnvelopeState op0)
                      StartFrame EndFrame []).2)
    by exact Hout.
  assert (HStart : Start = FEnvelopeState.StartingEnvelopeValue (EnvelopeState op0)).
  { unfold Start. rewrite HES.
    apply (advance_frame (EnvelopeState op0) StartFrame EndFrame []). }
  assert (Hnone : FEnvelopeState.CurrentSampleIndex (EnvelopeState op0) <> INDEX_NONE)
    by (rewrite Hidx; discriminate).
  split; [rewrite HStart; exact HSeq|].
  split; [rewrite Hop'; cbn [OnAttackTrigger set_OnAttackTrigger]; rewrite Htr; reflexivity|].
  split.
  - intros ->. rewrite HES, HOut.
    destruct (Z.eq_dec A 1) as [HA1|HA1].
    + rewrite advance_instant by (rewrite ?Hidx, ?HAeq; fold A; lia).
      cbn [fst snd FEnvelopeState.CurrentSampleIndex FEnvelopeState.set_CurrentSampleIndex].
      rewrite Hidx. split; [reflexivity|]. split; [reflexivity|]. lia.
    + rewrite advance_attack by (rewrite ?Hidx, ?HAeq; fold A; lia || assumption).
      cbn [fst snd FEnvelopeState.CurrentSampleIndex FEnvelopeState.set_CurrentSampleIndex].
      rewrite Hidx, HAeq, HCeq, <- HStart.
      split; [reflexivity|]. split; [intros; lia|].
      intros _. split; [reflexivity|].
      intros HPow Hnan Hunit.
      rewrite F32Arith.zero_fraction.
      2:{ destruct (UpdateParams_counts_range op) as [Hr _]. fold A in Hr.
          unfold Int32.in_range in Hr. lia. }
      rewrite HPow by (apply F32Arith.Max_epsilon_positive; exact Hnan).
      apply F32Arith.attack_start. exact Hunit.
  - intros Hpos. rewrite HES, HOut.
    rewrite advance_skipped by (left; exact Hpos). cbn [fst snd].
    split; [exact Hidx|]. split; [reflexivity|].
    rewrite Hop'. cbn [OnDone set_OnAttackTrigger].
    destruct (AdvanceAndForward_cases StartFrame EndFrame op0)
      as [[_ ->]|(H0 & _ & _)]; [reflexivity|].
    rewrite advance_skipped in H0 by (left; exact Hpos). discriminate.
Qed.

(** *** The starting value *)

Lemma AdvanceAndForward_baseline (StartFrame EndFrame : Z) op :
  baseline_stuck op -> baseline_stuck (AdvanceAndForward Pow StartFrame EndFrame op).
Proof.
  intros (H1 & H2 & H3). unfold baseline_stuck.
  destruct (AdvanceAndForward_output StartFrame EndFrame op) as (_ & -> & _).
  destruct (advance_frame (EnvelopeState op) StartFrame EndFrame [])
    as (-> & _ & -> & _ & _ & ->). auto.
Qed.

Lemma OnTriggerLambda_baseline (StartFrame EndFrame : Z) op :
  baseline_stuck op -> baseline_stuck (OnTriggerLambda Pow StartFrame EndFrame op).
Proof.
  intros (H1 & H2 & H3). rewrite OnTriggerLambda_unfold. cbn zeta.
  change (baseline_stuck
            (AdvanceAndForward Pow StartFrame EndFrame (ResetForTrigger op))).
  apply AdvanceAndForward_baseline. unfold baseline_stuck. cbn.
  rewrite H1, H2. auto.
Qed.

Lemma Execute_baseline op : baseline_stuck op -> baseline_stuck (Execute Pow op).
Proof.
  intros Hb.
  assert (HD : baseline_stuck (DispatchTriggers Pow op)).
  { unfold DispatchTriggers. apply (ExecuteBlock_invariant baseline_stuck).
    - intros a b s. apply AdvanceAndForward_baseline.
    - intros a b s. apply OnTriggerLambda_baseline.
    - exact Hb. }
  unfold Execute. destruct (Mode (In op)).
  - destruct (RunFilter_frame (AudioInput (In (HandleLowPassFilter op)))
                (HandleLowPassFilter op)) as (_ & _ & _ & _ & _ & _ & H1 & _).
    destruct (HandleLowPassFilter_frame op) as (_ & _ & _ & _ & _ & _ & _ & H2).
    unfold baseline_stuck. rewrite H1, H2. exact Hb.
  - exact HD.
  - match goal with
    | |- baseline_stuck (RunFilter ?i (HandleLowPassFilter ?o)) =>
        destruct (RunFilter_frame i (HandleLowPassFilter o))
          as (_ & _ & _ & _ & _ & _ & H1 & _);
        destruct (HandleLowPassFilter_frame o) as (_ & _ & _ & _ & _ & _ & _ & H2)
    end.
    unfold baseline_stuck. rewrite H1, H2. exact HD.
Qed.

Lemma Blocks_baseline (l : list Inputs) op :
  baseline_stuck op -> baseline_stuck (Blocks Pow op l).
Proof.
  revert op. induction l as [|i l IH]; intros op Hb; [exact Hb|].
  cbn [Blocks foldl]. apply IH. unfold Block. apply Execute_baseline. exact Hb.
Qed.

Lemma Construct_baseline (InSampleRate : float) (InNumFramesPerBlock : Z) (i : Inputs) :
  baseline_stuck (Construct InSampleRate InNumFramesPerBlock i).
Proof. unfold baseline_stuck. cbn. auto. Qed.

End OperatorFacts.

(** ** Concrete operators *)

Section Concrete.

Import FLowPassGateOperator Examples.

(** C1. The retrigger baseline is never the last envelope output: nothing
    writes [CurrentEnvelopeValue], so in every operator reached from its
    construction both it and the starting value are 0. On the run below a
    trigger arrives in mid attack, the last output being 1/48; the
    starting value is set to 0 and the first output of the new attack is
    0, below the value the envelope had. *)
Theorem C1_retrigger_restarts_from_zero :
  (forall (Pow : float -> float -> float) (Filter : Type)
          (F : StateVariableFilter Filter)
          (InSampleRate : float) (InNumFramesPerBlock : Z)
          (i0 : Inputs) (l : list Inputs),
      let op := Blocks Pow (Construct InSampleRate InNumFramesPerBlock i0) l in
      FEnvelopeState.CurrentEnvelopeValue (EnvelopeState op) = F32.zero
      /\ FEnvelopeState.StartingEnvelopeValue (EnvelopeState op) = F32.zero)
  /\ (let before := mid_attack in
      let after := Block PowSpecial before (inputs [0] VCA) in
      FEnvelopeState.CurrentSampleIndex (EnvelopeState before) = 2
      /\ FEnvelopeState.AttackSampleCount (EnvelopeState before) = 48
      /\ FEnvelopeState.bHardReset (EnvelopeState before) = false
      /\ OutEnvelope before = S754_finite false 11184811 (-29)
      /\ FEnvelopeState.StartingEnvelopeValue (EnvelopeState after) = F32.zero
      /\ OutEnvelope after = F32.zero
      /\ F32.ltb (OutEnvelope after) (OutEnvelope before) = true).
Proof.
  split.
  - intros Pow Filter F sr N i0 l op.
    destruct (Blocks_baseline Pow l (Construct sr N i0) (Construct_baseline sr N i0))
      as (H1 & _ & H3).
    split; assumption.
  - vm_compute. repeat split; reflexivity.
Qed.

(** C2, counterexample to the specification as written. A trigger at
    frame 2 of a block, with an instant attack: the lambda resets the
    index to 0, but the engine returns at once for a start frame past 0;
    the envelope output is 0, not 1.0, and the index is still 0, not 1.
    The same holds for the block as [Execute] runs it. *)
Lemma C2_counterexample :
  let op := set_In (instant [2] VCA) (fresh VCA) in
  let after := OnTriggerLambda PowSpecial 2 4 op in
  FEnvelopeState.AttackSampleCount (EnvelopeState after) = 1
  /\ FEnvelopeState.CurrentSampleIndex (EnvelopeState after) = 0
  /\ OutEnvelope after = F32.zero
  /\ OutEnvelope after <> F32.one
  /\ FEnvelopeState.CurrentSampleIndex (EnvelopeState (Execute PowSpecial op)) = 0
  /\ OutEnvelope (Execute PowSpecial op) = F32.zero
  /\ FTrigger.TriggeredFrames (OnAttackTrigger (Execute PowSpecial op)) = [2].
Proof. vm_compute. repeat split; try reflexivity. discriminate. Qed.

(** Witness of C2: a trigger at frame 0 on a fresh operator, 48 attack
    samples. *)
Lemma C2_witness :
  1 <= FEnvelopeState.AttackSampleCount
         (EnvelopeState (UpdateParams (set_In (inputs [0] VCA) (fresh VCA))))
  /\ FEnvelopeState.CurrentSampleIndex
       (EnvelopeState (OnTriggerLambda PowSpecial 0 4 (set_In (inputs [0] VCA) (fresh VCA))))
     = 1.
Proof.
  assert (H : 1 <= FEnvelopeState.AttackSampleCount
                     (EnvelopeState (UpdateParams (set_In (inputs [0] VCA) (fresh VCA)))))
    by (vm_compute; discriminate).
  split; [exact H|].
  destruct (C2_trigger_at_frame_zero_starts_attack PowSpecial
              (set_In (inputs [0] VCA) (fresh VCA)) 0 4 H) as (_ & _ & H0 & _).
  destruct (H0 eq_refl) as [Hidx _]. exact Hidx.
Defined.

(** Witness of C3: the second attack sample of 48. *)
Lemma C3_witness :
  (FEnvelopeState.CurrentSampleIndex attacking <> INDEX_NONE /\ FEnvelopeState.counts_fit attacking)
  /\ (Envelope.GetNextEnvelopeOutput PowSpecial attacking 0 4 []).2
     = F32.add F32.zero
         (F32.mul (F32.sub F32.one F32.zero)
            (PowSpecial (F32.div (F32.of_int 1) (F32.of_int 48)) F32.one))
  /\ FEnvelopeState.CurrentSampleIndex
       (Envelope.GetNextEnvelopeOutput PowSpecial attacking 0 4 []).1.1 = 2.
Proof.
  assert (Hn : FEnvelopeState.CurrentSampleIndex attacking <> INDEX_NONE)
    by (vm_compute; discriminate).
  assert (Hfit : FEnvelopeState.counts_fit attacking)
    by (vm_compute; repeat split; discriminate).
  split; [split; assumption|].
  destruct (C3_advance_phase_outputs PowSpecial attacking 4 [] Hn Hfit) as (Hatt & _).
  apply Hatt; vm_compute; reflexivity.
Defined.

(** Witness of C5: a block in Both mode with a trigger at frame 0, on
    the fresh operator; the filter ends up committed at the cut off of
    1000. *)
Lemma C5_witness :
  (Mode (In (set_In (inputs [0] Both) (fresh Both))) = Both
   /\ cache_in_step (set_In (inputs [0] Both) (fresh Both)))
  /\ Execute PowSpecial (set_In (inputs [0] Both) (fresh Both))
     = RunFilter
         ((fun x =>
             F32.mul x
               (F32.mul
                  (OutEnvelope (DispatchTriggers PowSpecial (set_In (inputs [0] Both) (fresh Both))))
                  (FMath.GetMappedRangeValueClamped F32.zero (F32.of_int 20000)
                     F32.zero F32.one (F32.of_int 1000))))
            <$> replicate 4 F32.one)
         (HandleLowPassFilter
            (DispatchTriggers PowSpecial (set_In (inputs [0] Both) (fresh Both))))
  /\ PreviousFrequency (Execute PowSpecial (set_In (inputs [0] Both) (fresh Both)))
     = F32.of_int 1000
  /\ committed_at
       (PreviousFrequency (Execute PowSpecial (set_In (inputs [0] Both) (fresh Both))))
       (VariableFilter (Execute PowSpecial (set_In (inputs [0] Both) (fresh Both)))).
Proof.
  assert (HM : Mode (In (set_In (inputs [0] Both) (fresh Both))) = Both) by reflexivity.
  assert (Hs : cache_in_step (set_In (inputs [0] Both) (fresh Both)))
    by (left; repeat split; reflexivity).
  split; [split; assumption|].
  pose proof (C5_both_gates_then_filters PowSpecial (set_In (inputs [0] Both) (fresh Both)) HM)
    as H.
  cbv zeta in H.
  destruct H as (_ & HE & _ & _ & Hmiss & _ & _ & Hstep & _).
  destruct (Hstep Hs) as (_ & Hc & Hp & _).
  split; [exact HE|].
  split.
  - rewrite Hp. apply Hmiss. vm_compute. reflexivity.
  - rewrite Hp. exact Hc.
Defined.

(** C6, counterexample to the specification as written. At 48000 Hz an
    attack of 2^-14 s is 2.9296875 samples: the refresh stores 2, the
    count the specification words give is 3. *)
Lemma C6_counterexample :
  let op := set_In (short_attack [] VCA) (fresh VCA) in
  F32.mul (SampleRate op) (AttackTime (In op)) = S754_finite false 12288000 (-22)
  /\ FEnvelopeState.AttackSampleCount (EnvelopeState (UpdateParams op)) = 2
  /\ Spec.SampleCount (SampleRate op) (AttackTime (In op)) = 3.
Proof. vm_compute. repeat split; reflexivity. Qed.

(** Witness of C6: the default times at 48000 Hz, 48 and 48000 samples. *)
Lemma C6_witness :
  refresh_defined (fresh VCA)
  /\ FEnvelopeState.AttackSampleCount (EnvelopeState (UpdateParams (fresh VCA)))
     = Z.max 1 (F32.to_int32 (F32.mul SampleRate48k Millisecond))
  /\ 1 <= FEnvelopeState.AttackSampleCount (EnvelopeState (UpdateParams (fresh VCA))).
Proof.
  assert (H : refresh_defined (fresh VCA)) by (vm_compute; repeat split; reflexivity).
  split; [exact H|].
  destruct (C6_refresh_truncates_and_clamps (fresh VCA) H) as ((H1 & H2 & _) & _).
  split; [exact H1|exact H2].
Defined.

(** Witness of C7: a LowPass block while the envelope is in its attack. *)
Lemma C7_witness :
  Mode (In (set_In (inputs [0] LowPass) mid_attack)) = LowPass
  /\ FEnvelopeState.CurrentSampleIndex
       (EnvelopeState (Execute PowSpecial (set_In (inputs [0] LowPass) mid_attack)))
     = FEnvelopeState.CurrentSampleIndex
         (EnvelopeState (set_In (inputs [0] LowPass) mid_attack)).
Proof.
  split; [reflexivity|].
  apply (C7_lowpass_leaves_envelope PowSpecial (set_In (inputs [0] LowPass) mid_attack)).
  reflexivity.
Defined.

(** Witness of C8: constant input 1.0 and an envelope of 0.5. *)
Lemma C8_witness :
  (Mode (In half_way) = VCA
   /\ (length (AudioInput (In half_way)) <= length (AudioOutput half_way))%nat)
  /\ OutEnvelope (CalculateEnvelope PowSpecial half_way) = F32.half
  /\ AudioOutput (Execute PowSpecial half_way) !! 3%nat = Some F32.half.
Proof.
  assert (HM : Mode (In half_way) = VCA) by reflexivity.
  assert (HL : (length (AudioInput (In half_way)) <= length (AudioOutput half_way))%nat)
    by (vm_compute; repeat constructor).
  assert (HE : OutEnvelope (CalculateEnvelope PowSpecial half_way) = F32.half)
    by (vm_compute; reflexivity).
  split; [split; assumption|]. split; [exact HE|].
  destruct (C8_vca_scales_by_envelope PowSpecial half_way HM HL) as (_ & _ & _ & Hhalf).
  apply (Hhalf HE).
  - intros i x Hx. apply (lookup_replicate_1 4 F32.one x i Hx).
  - vm_compute. repeat constructor.
Defined.

(** Witness of C9: the first two calls on a fresh operator. *)
Lemma C9_witness :
  (F32.valid (SampleRate (fresh LowPass)) = true
   /\ F32.is_finite (SampleRate (fresh LowPass)) = true)
  /\ HandleLowPassFilter (fresh LowPass) = Commit (fresh LowPass)
  /\ HandleLowPassFilter (HandleLowPassFilter (fresh LowPass))
     = HandleLowPassFilter (fresh LowPass).
Proof.
  assert (Hv : F32.valid (SampleRate (fresh LowPass)) = true) by (vm_compute; reflexivity).
  assert (Hf : F32.is_finite (SampleRate (fresh LowPass)) = true) by (vm_compute; reflexivity).
  split; [split; assumption|].
  destruct (C9_commit_only_on_change (fresh LowPass) Hv Hf) as (Hfirst & _ & _ & _ & Hidem).
  split; [apply Hfirst; reflexivity|exact Hidem].
Defined.

(** Witness of C10: a whole envelope of one attack and one decay sample;
    the done trigger fires in the third block, at frame 0. *)
Lemma C10_witness :
  0 <= 4
  /\ Forall (fun f => f = 0)
       (FTrigger.TriggeredFrames
          (OnDone (Blocks PowSpecial (Construct SampleRate48k 4 (click [] VCA))
                     [click [0] VCA; click [] VCA; click [] VCA]))).
Proof.
  split; [lia|].
  apply (C10_done_fires_at_frame_zero PowSpecial SampleRate48k 4 (click [] VCA)
           [click [0] VCA; click [] VCA; click [] VCA]).
  lia.
Defined.

(** The run of the witness of C10 does fire the done trigger. *)
Example done_fires_once :
  FTrigger.TriggeredFrames
    (OnDone (Blocks PowSpecial (Construct SampleRate48k 4 (click [] VCA))
               [click [0] VCA; click [] VCA; click [] VCA])) = [0].
Proof. vm_compute. reflexivity. Qed.

End Concrete.

(** * Further properties

    What the code does beyond the sentences checked above: the edges of
    its inputs, what runs of blocks keep, and the node's interface. *)

(** ** Signs, order and quotients of binary32 results *)

Module F32Sign.

Import Rounding RoundingFacts.

(** The product of two finite well-formed numbers is a rounding with the
    exclusive or of their signs. *)
Lemma SFmul_rounded (sx sy : bool) (mx my : positive) (ex ey : Z) :
  bounded F32.prec F32.emax mx ex = true ->
  bounded F32.prec F32.emax my ey = true ->
  rounded (xorb sx sy) (Zdigits2 (Zpos mx * Zpos my) + (ex + ey))
    (F32.mul (S754_finite sx mx ex) (S754_finite sy my ey)).
Proof.
  intros Hx Hy. unfold F32.mul. cbn [SFmul].
  apply bounded_inv in Hx, Hy. destruct Hx as [Hx _], Hy as [Hy _].
  pose proof (Zdigits2_mul (Zpos mx) (Zpos my) ltac:(lia) ltac:(lia)) as Hd.
  pose proof (Zdigits2_pos (Zpos mx) ltac:(lia)).
  pose proof (Zdigits2_pos (Zpos my) ltac:(lia)).
  change (Z.pos (mx * my)) with (Zpos mx * Zpos my).
  apply binary_round_aux_rounded; lia.
Qed.

(** A positive finite number times one that is zero or below zero is
    below 1. *)
Lemma mul_nonpositive_below_one (x t : float) :
  F32.valid x = true -> F32.is_finite x = true -> F32.ltb F32.zero x = true ->
  F32.valid t = true -> F32.leb t F32.zero = true ->
  F32.ltb (F32.mul x t) F32.one = true.
Proof.
  intros Hvx Hfx Hpx Hvt Hlt.
  destruct x as [sx|sx| |sx mx ex]; try discriminate.
  destruct sx; [discriminate|].
  destruct t as [st|st| |st mt et]; try discriminate.
  - destruct st; reflexivity.
  - destruct st; [reflexivity|discriminate].
  - destruct st; [|discriminate].
    pose proof (SFmul_rounded false true mx mt ex et Hvx Hvt) as (_ & Hshape & _).
    cbn [xorb] in Hshape.
    destruct Hshape as [->|[->|(m & e & -> & _)]]; reflexivity.
Qed.

End F32Sign.

Module F32Order.

Import Rounding RoundingFacts F32Arith.

Lemma leb_refl (x : float) : F32.is_nan x = false -> F32.leb x x = true.
Proof.
  unfold F32.leb, SFleb, SFcompare.
  destruct x as [s|s| |s m e]; try discriminate; intros _.
  - reflexivity.
  - destruct s; reflexivity.
  - change (Pos.compare_cont Eq m m) with (m ?= m)%positive.
    rewrite Z.compare_refl, Pos.compare_refl. destruct s; reflexivity.
Qed.

Lemma leb_not_nan (a b : float) :
  F32.leb a b = true -> F32.is_nan a = false /\ F32.is_nan b = false.
Proof.
  unfold F32.leb, SFleb. destruct a, b; cbn; intros H; try discriminate; auto.
Qed.

(** A clamp lies between its bounds when these are in order, whatever is
    clamped. *)
Lemma Clamp_between (X Lo Hi : float) :
  F32.leb Lo Hi = true ->
  F32.leb Lo (FMath.Clamp X Lo Hi) = true /\ F32.leb (FMath.Clamp X Lo Hi) Hi = true.
Proof.
  intros Hle. destruct (leb_not_nan _ _ Hle) as [HLo HHi].
  destruct (F32Facts.Clamp_cases X Lo Hi) as [->|[[-> _]|(-> & H1 & H2)]].
  - split; [apply leb_refl; exact HLo|exact Hle].
  - split; [exact Hle|apply leb_refl; exact HHi].
  - split; apply F32Facts.ltb_leb; assumption.
Qed.

(** Two well-formed numbers of at least 1/8 that are nearly equal are
    equal: the tolerance [SMALL_NUMBER] is below the distance between any
    two of them. *)
Lemma nearly_equal_exact (a b : float) :
  F32.valid a = true -> F32.valid b = true ->
  F32.is_finite a = true -> F32.is_finite b = true ->
  F32.leb (F32.div (F32.of_int 1) (F32.of_int 8)) a = true ->
  F32.leb (F32.div (F32.of_int 1) (F32.of_int 8)) b = true ->
  FMath.IsNearlyEqual a b = true -> a = b.
Proof.
  change (F32.div (F32.of_int 1) (F32.of_int 8)) with (S754_finite false 8388608 (-26)).
  intros Hva Hvb Hfa Hfb Ha Hb.
  destruct a as [sa|sa| |sa ma ea]; try discriminate.
  destruct sa; [discriminate|].
  destruct b as [sb|sb| |sb mb eb]; try discriminate.
  destruct sb; [discriminate|].
  apply leb_finite in Ha, Hb.
  cbn [F32.valid valid_binary] in Hva, Hvb.
  apply valid_mantissa in Hva, Hvb.
  destruct Hva as (Hma & Hea & Hna), Hvb as (Hmb & Heb & Hnb).
  unfold FMath.IsNearlyEqual, FMath.Abs, F32.sub, SFsub. cbn [cond_Zopp].
  set (ez := Z.min ea eb).
  destruct (shl_align_spec ma ea ez) as [_ HA].
  destruct (shl_align_spec mb eb ez) as [_ HB].
  replace (Z.min ea ez) with ez in HA by lia.
  replace (Z.min eb ez) with ez in HB by lia.
  set (A := fst (shl_align ma ea ez)) in *.
  set (B := fst (shl_align mb eb ez)) in *.
  assert (Hsame : Zpos A = Zpos B -> S754_finite false ma ea = S754_finite false mb eb).
  { intros Heq. rewrite HA, HB in Heq.
    destruct (Z.lt_trichotomy ea eb) as [Hlt|[Heq'|Hgt]].
    - exfalso. replace ez with ea in Heq by lia.
      rewrite Z.sub_diag, Z.mul_1_r in Heq.
      assert (2 ^ 1 <= 2 ^ (eb - ea)) by (apply Z.pow_le_mono_r; lia).
      change (2 ^ 1) with 2 in *. change (2 ^ 24) with 16777216 in *.
      change (2 ^ 23) with 8388608 in *. nia.
    - subst eb. replace ez with ea in Heq by lia.
      rewrite Z.sub_diag, !Z.mul_1_r in Heq. congruence.
    - exfalso. replace ez with eb in Heq by lia.
      rewrite Z.sub_diag, Z.mul_1_r in Heq.
      assert (2 ^ 1 <= 2 ^ (ea - eb)) by (apply Z.pow_le_mono_r; lia).
      change (2 ^ 1) with 2 in *. change (2 ^ 24) with 16777216 in *.
      change (2 ^ 23) with 8388608 in *. nia. }
  assert (Hfar : forall (s : bool) (p : positive),
            F32.leb (F32.abs (binary_round F32.prec F32.emax s p ez)) FMath.SMALL_NUMBER
            = false).
  { intros s p.
    pose proof (binary_round_rounded s p ez) as (_ & Hshape & _ & Hzero).
    pose proof (Zdigits2_pos (Zpos p) ltac:(lia)) as Hd.
    destruct Hshape as [Hr|[Hr|(m' & e' & Hr & He')]].
    - exfalso. apply Hzero; [lia|exact Hr].
    - unfold F32.prec, F32.emax in *. rewrite Hr. destruct s; reflexivity.
    - unfold F32.prec, F32.emax in *. rewrite Hr.
      cbn [F32.abs SFabs]. unfold FMath.SMALL_NUMBER.
      destruct (F32.leb _ _) eqn:E; [|reflexivity].
      apply leb_finite in E. lia. }
  destruct (Z.pos A - Z.pos B) as [|p|p] eqn:Ed.
  - intros _. apply Hsame. lia.
  - replace (IntDef.Z.sub (Z.pos A) (Z.pos B)) with (Z.pos p)
      by (change (Z.pos p = Z.sub (Z.pos A) (Z.pos B)); lia).
    cbn [binary_normalize]. rewrite Hfar. discriminate.
  - replace (IntDef.Z.sub (Z.pos A) (Z.pos B)) with (Z.neg p)
      by (change (Z.neg p = Z.sub (Z.pos A) (Z.pos B)); lia).
    cbn [binary_normalize]. rewrite Hfar. discriminate.
Qed.

End F32Order.

Module F32Quotient.

Import Rounding RoundingFacts F32Arith.

(** The quotient of two finite numbers is a rounding with the exclusive or
    of their signs. *)
Lemma SFdiv_rounded (sx sy : bool) (mx my : positive) (ex ey : Z) :
  let e' := Z.min (Z.max (Zdigits2 (Zpos mx) + ex - (Zdigits2 (Zpos my) + ey) - 24) (-149))
                  (ex - ey) in
  let q := Zpos mx * 2 ^ (ex - ey - e') / Zpos my in
  rounded (xorb sx sy) (Zdigits2 q + e')
    (F32.div (S754_finite sx mx ex) (S754_finite sy my ey)).
Proof.
  intros e' q. unfold F32.div. cbn [SFdiv].
  destruct (SFdiv_core_binary_spec mx my ex ey) as [l Hcore].
  cbv zeta in Hcore. rewrite Hcore. fold e'.
  set (s := ex - ey - e') in *.
  assert (Hs : 0 <= s) by (unfold s, e'; lia).
  pose proof (pow2_pos s Hs) as Hp.
  fold q.
  assert (Hq : 0 <= q) by (apply Z.div_pos; lia).
  apply (binary_round_aux_rounded_nonneg (xorb sx sy) q e' l Hq).
  destruct (Z.le_gt_cases e' (-149)) as [Hlow|Hhigh]; [lia|].
  assert (Hdq : Zdigits2 (Z.pos mx) + s - Zdigits2 (Z.pos my) <= Zdigits2 q).
  { unfold q. rewrite <- (Zdigits2_shift (Zpos mx) s) by lia.
    apply Zdigits2_div; lia. }
  unfold s, e' in *. lia.
Qed.

Lemma Zdigits2_above (z j : Z) : 0 <= j -> 2 ^ j <= z -> j < Zdigits2 z.
Proof.
  intros Hj Hz. pose proof (pow2_pos j Hj) as Hp.
  pose proof (Zdigits2_bounds z ltac:(lia)) as [_ Hhi].
  apply (Z.pow_lt_mono_r_iff 2); [lia|apply Zdigits2_nonneg|lia].
Qed.

(** A value at or below zero, taken as a fraction of 20000, is neither
    above 0 nor as much as 1. *)
Lemma fraction_nonpositive (c : float) :
  F32.leb c F32.zero = true ->
  let X := F32.div (F32.sub c F32.zero) (F32.of_int 20000) in
  F32.ltb F32.zero X = false /\ F32.ltb X F32.one = true.
Proof.
  intros Hle X. subst X.
  change (F32.of_int 20000) with (S754_finite false 10240000 (-9)).
  destruct c as [s|s| |s m e]; try discriminate.
  - destruct s; split; reflexivity.
  - destruct s; [split; reflexivity|discriminate].
  - destruct s; [|discriminate].
    change (F32.sub (S754_finite true m e) F32.zero) with (S754_finite true m e).
    pose proof (SFdiv_rounded true false m 10240000 e (-9)) as (_ & Hshape & _).
    cbv zeta in Hshape. cbn [xorb] in Hshape.
    destruct Hshape as [->|[->|(m' & e' & -> & _)]]; split; reflexivity.
Qed.

(** A well-formed value of at least 20000, taken as a fraction of 20000,
    is at least 1. *)
Lemma fraction_at_least_one (c : float) :
  F32.valid c = true ->
  F32.leb (F32.of_int 20000) c = true ->
  let X := F32.div (F32.sub c F32.zero) (F32.of_int 20000) in
  F32.ltb X F32.one = false /\ F32.is_nan X = false.
Proof.
  change (F32.of_int 20000) with (S754_finite false 10240000 (-9)).
  intros Hv Hle X. subst X.
  destruct c as [s|s| |s m e]; try discriminate.
  - destruct s; [discriminate|]. split; reflexivity.
  - destruct s; [discriminate|].
    change (F32.sub (S754_finite false m e) F32.zero) with (S754_finite false m e).
    apply leb_finite in Hle.
    cbn [F32.valid valid_binary] in Hv.
    pose proof Hv as Hb. apply bounded_inv in Hb. destruct Hb as [Hcan _].
    apply valid_mantissa in Hv. destruct Hv as (Hm & He & Hn).
    assert (Hd : Zdigits2 (Zpos m) = 24).
    { apply Zdigits2_unique; [lia|]. split; [apply Hn; lia|exact Hm]. }
    pose proof (SFdiv_rounded false false m 10240000 e (-9)) as Hr.
    cbv zeta in Hr. cbn [xorb] in Hr. rewrite Hd in Hr.
    change (Zdigits2 (Z.pos 10240000)) with 24 in Hr.
    replace (Z.min (Z.max (24 + e - (24 + -9) - 24) (-149)) (e - -9)) with (e - 15) in Hr
      by lia.
    replace (e - -9 - (e - 15)) with 24 in Hr by lia.
    set (q := Z.pos m * 2 ^ 24 / 10240000) in *.
    assert (Hk : 1 <= Zdigits2 q + (e - 15)).
    { destruct (Z.le_gt_cases (e - 15) 0) as [Hneg|Hpos].
      - assert (Hq : 2 ^ (15 - e) <= q).
        { unfold q. apply Z.div_le_lower_bound; [lia|].
          destruct Hle as [Hlt|[Heq Hmm]].
          - assert (2 ^ (15 - e) * 2 ^ (e + 9) = 2 ^ 24)
              by (rewrite <- Z.pow_add_r by lia; f_equal; lia).
            assert (2 ^ 1 <= 2 ^ (e + 9)) by (apply Z.pow_le_mono_r; lia).
            pose proof (pow2_pos (15 - e) ltac:(lia)).
            change (2 ^ 1) with 2 in *. change (2 ^ 24) with 16777216 in *.
            change (2 ^ 23) with 8388608 in *. specialize (Hn ltac:(lia)). nia.
          - subst e. change (2 ^ (15 - -9)) with (2 ^ 24). lia. }
        pose proof (Zdigits2_above q (15 - e) ltac:(lia) Hq). lia.
      - assert (Hq : 2 ^ 0 <= q).
        { unfold q. apply Z.div_le_lower_bound; [lia|].
          change (2 ^ 24) with 16777216. change (2 ^ 0) with 1. lia. }
        pose proof (Zdigits2_above q 0 ltac:(lia) Hq). lia. }
    destruct Hr as (Hvr & Hshape & _ & Hzero).
    destruct Hshape as [Hr|[Hr|(m' & e' & Hr & He')]].
    + exfalso. apply Hzero; [lia|exact Hr].
    + rewrite Hr. split; reflexivity.
    + rewrite Hr in Hvr |- *. split; [|reflexivity].
      cbn [valid_binary] in Hvr. apply valid_mantissa in Hvr.
      destruct Hvr as (_ & _ & Hn').
      destruct (F32.ltb _ _) eqn:E; [|reflexivity].
      change F32.one with (S754_finite false 8388608 (-23)) in E.
      apply ltb_finite in E. specialize (Hn' ltac:(lia)).
      change (2 ^ 23) with 8388608 in *. lia.
Qed.

End F32Quotient.

(** ** Runs of the envelope engine *)

Section EnvelopeRuns.

Variable Pow : float -> float -> float.

Import FEnvelopeState.

Lemma Run_idle (EndFrame : Z) (n : nat) (st : t) :
  CurrentSampleIndex st = INDEX_NONE ->
  Envelope.Run Pow EndFrame n st = (st, replicate n ([], F32.zero)).
Proof.
  intros Hidle. induction n as [|n IH]; [reflexivity|].
  cbn [Envelope.Run]. rewrite advance_skipped by (right; exact Hidle).
  rewrite IH. reflexivity.
Qed.

Lemma Run_through (EndFrame : Z) (st : t) :
  1 <= AttackSampleCount st ->
  1 <= DecaySampleCount st ->
  Int32.in_range (AttackSampleCount st + DecaySampleCount st) ->
  CurrentSampleIndex st = 0 ->
  exists outs,
    length outs = Z.to_nat (AttackSampleCount st + DecaySampleCount st)
    /\ Envelope.Run Pow EndFrame
         (Z.to_nat (AttackSampleCount st + DecaySampleCount st) + 1) st =
         (set_CurrentSampleIndex INDEX_NONE st,
          ((fun out => ([], out)) <$> outs) ++ [([0], F32.zero)]).
Proof.
  intros HA HD Hs Hidx.
  set (n := Z.to_nat (AttackSampleCount st + DecaySampleCount st)).
  assert (Hfit : counts_fit st).
  { unfold counts_fit. rewrite Hidx.
    unfold Int32.in_range, Int32.min_int, Int32.max_int in *. lia. }
  destruct (Run_active Pow EndFrame n st Hfit) as (outs & Hlen & Hrun).
  { lia. }
  { subst n. rewrite Z2Nat.id by lia. lia. }
  replace (CurrentSampleIndex st + Z.of_nat n)
    with (AttackSampleCount st + DecaySampleCount st) in Hrun
    by (subst n; rewrite Z2Nat.id by lia; lia).
  exists outs. split; [assumption|].
  rewrite Run_app, Hrun. cbn [Envelope.Run].
  rewrite advance_done.
  - rewrite set_index_twice. reflexivity.
  - cbn. unfold INDEX_NONE. lia.
  - cbn. lia.
  - cbn. rewrite Int32Facts.add_exact by assumption. lia.
Qed.

(** X1. The end of an envelope is reported exactly once. From index 0,
    with an attack of at least one and a decay of at least one sample, a
    run of calls at frame 0 reports no finished frame while it yields
    the samples, reports the single frame 0 on the call after the last
    sample, and, the envelope being idle from then on, reports nothing
    and yields 0 on every later call. *)
Theorem X1_envelope_finishes_once (st : t) (EndFrame : Z) (later : nat) :
  1 <= AttackSampleCount st ->
  1 <= DecaySampleCount st ->
  Int32.in_range (AttackSampleCount st + DecaySampleCount st) ->
  CurrentSampleIndex st = 0 ->
  let n := Z.to_nat (AttackSampleCount st + DecaySampleCount st) in
  exists outs,
    length outs = n
    /\ Envelope.Run Pow EndFrame (n + 1 + later) st =
         (set_CurrentSampleIndex INDEX_NONE st,
          ((fun out => ([], out)) <$> outs)
            ++ [([0], F32.zero)] ++ replicate later ([], F32.zero))
    /\ concat (fst <$> (Envelope.Run Pow EndFrame (n + 1 + later) st).2) = [0].
Proof.
  intros HA HD Hs Hidx n.
  destruct (Run_through EndFrame st HA HD Hs Hidx) as (outs & Hlen & Hrun).
  fold n in Hlen, Hrun.
  assert (Hall : Envelope.Run Pow EndFrame (n + 1 + later) st =
         (set_CurrentSampleIndex INDEX_NONE st,
          ((fun out => ([], out)) <$> outs)
            ++ [([0], F32.zero)] ++ replicate later ([], F32.zero))).
  { rewrite Run_app, Hrun, Run_idle by reflexivity.
    rewrite <- app_assoc. reflexivity. }
  exists outs. split; [exact Hlen|]. split; [exact Hall|].
  rewrite Hall. cbn [snd].
  rewrite !fmap_app, !concat_app, <- list_fmap_compose.
  cbn [fmap list_fmap concat app].
  assert (H1 : concat ((fst ∘ (fun out : float => (@nil Z, out))) <$> outs) = []).
  { clear. induction outs as [|o l IH]; [reflexivity|exact IH]. }
  assert (H2 : concat (fst <$> replicate later (@nil Z, F32.zero)) = []).
  { clear. induction later as [|k IH]; [reflexivity|exact IH]. }
  rewrite H1, H2. reflexivity.
Qed.

(** X3. The decay starts at full level. When [Pow] maps a zero base
    with a positive exponent to 0, as [powf] does, the first decay
    sample, the one at the index that equals the attack count, is
    exactly 1.0 whatever the decay count and, for a positive decay
    curve, whatever the curve. *)
Theorem X3_decay_starts_at_one (st : t) (EndFrame : Z) (Fin : list Z) :
  (forall y, F32.ltb F32.zero y = true -> Pow F32.zero y = F32.zero) ->
  counts_fit st ->
  1 <= AttackSampleCount st ->
  1 <= DecaySampleCount st ->
  CurrentSampleIndex st = AttackSampleCount st ->
  F32.ltb F32.zero (DecayCurveFactor st) = true ->
  Envelope.GetNextEnvelopeOutput Pow st 0 EndFrame Fin =
    (set_CurrentSampleIndex (AttackSampleCount st + 1) st, Fin, F32.one).
Proof.
  intros HPow (Hi & Ha & Hd & Hs) HA HD Hidx Hcurve.
  pose proof (Int32Facts.add_exact _ _ Hs) as Hadd.
  rewrite advance_decay by (rewrite ?Hadd, ?Hidx; unfold INDEX_NONE; lia).
  rewrite Hidx.
  rewrite (Int32Facts.incr_exact _ (AttackSampleCount st + DecaySampleCount st))
    by (assumption || lia).
  rewrite Int32Facts.sub_exact
    by (rewrite Z.sub_diag; unfold Int32.in_range, Int32.min_int, Int32.max_int; lia).
  rewrite Z.sub_diag, F32Arith.zero_fraction
    by (unfold Int32.in_range in Hd; lia).
  rewrite HPow by assumption. reflexivity.
Qed.

(** X13. [Reset] stops the envelope without reporting its end. After a
    reset, whatever the state was, every call of the engine yields 0,
    reports no finished frame and leaves the state as it is; every
    member but the ease is back at its initial value; and a second reset
    changes nothing. *)
Theorem X13_reset_stops_the_envelope (s : t) :
  (forall (StartFrame EndFrame : Z) (Fin : list Z),
      Envelope.GetNextEnvelopeOutput Pow (Reset s) StartFrame EndFrame Fin
      = (Reset s, Fin, F32.zero))
  /\ (forall (EndFrame : Z) (n : nat),
        Envelope.Run Pow EndFrame n (Reset s) = (Reset s, replicate n ([], F32.zero)))
  /\ set_EnvelopeEase (EnvelopeEase Default) (Reset s) = Default
  /\ Reset (Reset s) = Reset s.
Proof.
  split; [|split; [|split]].
  - intros a b Fin. apply advance_skipped. right. reflexivity.
  - intros b n. induction n as [|n IH]; [reflexivity|].
    cbn [Envelope.Run]. rewrite advance_skipped by (right; reflexivity).
    rewrite IH. reflexivity.
  - reflexivity.
  - reflexivity.
Qed.

End EnvelopeRuns.

(** ** Blocks and runs of blocks *)

Section BlockDynamics.

Variable Pow : float -> float -> float.
Context {Filter : Type} `{!StateVariableFilter Filter}.

Import FLowPassGateOperator.

Implicit Types op : t Filter.

(** *** Blocks without a trigger *)

Lemma SubRanges_quiet (tr : FTrigger.t) :
  0 < FTrigger.NumFramesPerBlock tr ->
  FTrigger.FramesInBlock tr = [] ->
  FTrigger.SubRanges tr = [(false, 0, FTrigger.NumFramesPerBlock tr)].
Proof.
  intros HN Hq. unfold FTrigger.SubRanges.
  destruct (FTrigger.NumFramesPerBlock tr <=? 0) eqn:E; [apply Z.leb_le in E; lia|].
  rewrite Hq. reflexivity.
Qed.

Lemma DispatchTriggers_quiet op :
  0 < FTrigger.NumFramesPerBlock (TriggerAttackIn (In op)) ->
  FTrigger.FramesInBlock (TriggerAttackIn (In op)) = [] ->
  DispatchTriggers Pow op =
    AdvanceAndForward Pow 0 (FTrigger.NumFramesPerBlock (TriggerAttackIn (In op)))
      (BlockStart op).
Proof.
  intros HN Hq. rewrite DispatchTriggers_fold, SubRanges_quiet by assumption.
  reflexivity.
Qed.

(** Outside LowPass mode the envelope, its output and the two triggers
    are those the trigger dispatch leaves. *)
Lemma Execute_dispatch op :
  Mode (In op) <> LowPass ->
  EnvelopeState (Execute Pow op) = EnvelopeState (DispatchTriggers Pow op)
  /\ OutEnvelope (Execute Pow op) = OutEnvelope (DispatchTriggers Pow op)
  /\ OnDone (Execute Pow op) = OnDone (DispatchTriggers Pow op)
  /\ OnAttackTrigger (Execute Pow op) = OnAttackTrigger (DispatchTriggers Pow op)
  /\ SampleRate (Execute Pow op) = SampleRate op.
Proof.
  intros HM.
  pose proof (DispatchTriggers_frame Pow op) as Hfr.
  unfold dispatch_frame in Hfr. injection Hfr as _ _ HSR _ _ _ _ _ _ _ _.
  unfold Execute. destruct (Mode (In op)); [contradiction| |].
  - cbn. auto.
  - match goal with
    | |- context [RunFilter ?i (HandleLowPassFilter ?o)] =>
        destruct (RunFilter_frame i (HandleLowPassFilter o))
          as (_ & Ha & Hd & Ho & Hs & _ & He & _);
        destruct (HandleLowPassFilter_frame o)
          as (_ & Ha' & Hd' & Ho' & _ & Hs' & _ & He')
    end.
    rewrite He, He', Ho, Ho', Hd, Hd', Ha, Ha', Hs, Hs'. auto.
Qed.

Lemma AdvanceBlock_clears (tr : FTrigger.t) :
  0 < FTrigger.NumFramesPerBlock tr ->
  Forall (fun f => f = 0) (FTrigger.TriggeredFrames tr) ->
  FTrigger.TriggeredFrames (FTrigger.AdvanceBlock tr) = [].
Proof.
  intros HN. unfold FTrigger.AdvanceBlock. cbn [FTrigger.TriggeredFrames].
  induction 1 as [|g r Hg Hr IH]; [reflexivity|].
  rewrite filter_cons. destruct (decide _) as [Hd|Hd]; [lia|exact IH].
Qed.

(** X5. Outside LowPass mode a block without a trigger advances the
    envelope by one call of the engine, whatever the number of frames in
    the block: the state and the envelope output afterwards are those of
    one call on the refreshed state; an envelope inside its attack or
    decay moves on by exactly one sample, and an idle one stays idle
    with an output of 0. *)
Theorem X5_quiet_block_is_one_sample op :
  Mode (In op) <> LowPass ->
  0 < FTrigger.NumFramesPerBlock (TriggerAttackIn (In op)) ->
  FTrigger.FramesInBlock (TriggerAttackIn (In op)) = [] ->
  let es := EnvelopeState (UpdateParams op) in
  let r := Envelope.GetNextEnvelopeOutput Pow es 0
             (FTrigger.NumFramesPerBlock (TriggerAttackIn (In op))) [] in
  EnvelopeState (Execute Pow op) = r.1.1
  /\ OutEnvelope (Execute Pow op) = r.2
  /\ (FEnvelopeState.counts_fit es ->
      0 <= FEnvelopeState.CurrentSampleIndex (EnvelopeState op)
        < FEnvelopeState.AttackSampleCount es + FEnvelopeState.DecaySampleCount es ->
      FEnvelopeState.CurrentSampleIndex (EnvelopeState (Execute Pow op))
      = FEnvelopeState.CurrentSampleIndex (EnvelopeState op) + 1)
  /\ (FEnvelopeState.CurrentSampleIndex (EnvelopeState op) = INDEX_NONE ->
      EnvelopeState (Execute Pow op) = es
      /\ OutEnvelope (Execute Pow op) = F32.zero).
Proof.
  intros HM HN Hq es r.
  destruct (Execute_dispatch op HM) as (He & Ho & _).
  rewrite He, Ho, DispatchTriggers_quiet by assumption.
  destruct (AdvanceAndForward_output Pow 0
              (FTrigger.NumFramesPerBlock (TriggerAttackIn (In op))) (BlockStart op))
    as (Hout & Hes & _).
  change (EnvelopeState (BlockStart op)) with es in Hout, Hes. fold r in Hout, Hes.
  rewrite Hes, Hout.
  split; [reflexivity|]. split; [reflexivity|]. split.
  - intros Hfit Hact. subst r.
    destruct (advance_active Pow es (FTrigger.NumFramesPerBlock (TriggerAttackIn (In op)))
                Hfit Hact) as [out ->].
    reflexivity.
  - intros Hidle. subst r.
    rewrite advance_skipped by (right; exact Hidle). split; reflexivity.
Qed.

(** *** A run of blocks without trigger *)

Lemma Blocks_snoc op (l : list Inputs) (i : Inputs) :
  Blocks Pow op (l ++ [i]) = Block Pow (Blocks Pow op l) i.
Proof. unfold Blocks. rewrite foldl_app. reflexivity. Qed.

Lemma Blocks_replicate_S op (k : nat) (i : Inputs) :
  Blocks Pow op (replicate (S k) i) = Block Pow (Blocks Pow op (replicate k i)) i.
Proof.
  rewrite <- Blocks_snoc. f_equal.
  induction k as [|k IH]; [reflexivity|]. cbn [replicate app]. f_equal. exact IH.
Qed.

Section Quiet.

Variable op0 : t Filter.
Variable i : Inputs.

Hypothesis HM : Mode i <> LowPass.
Hypothesis HN : 0 < FTrigger.NumFramesPerBlock (TriggerAttackIn i).
Hypothesis Hq : FTrigger.FramesInBlock (TriggerAttackIn i) = [].
Hypothesis HNd : 0 < FTrigger.NumFramesPerBlock (OnDone op0).

Local Abbreviation es := (EnvelopeState (UpdateParams (set_In i op0))).
Local Abbreviation N := (FTrigger.NumFramesPerBlock (TriggerAttackIn i)).

Lemma refresh_stable (j : Z) (o : t Filter) :
  SampleRate o = SampleRate op0 ->
  EnvelopeState o = FEnvelopeState.set_CurrentSampleIndex j es ->
  EnvelopeState (UpdateParams (set_In i o)) = FEnvelopeState.set_CurrentSampleIndex j es.
Proof.
  intros Hs He. unfold UpdateParams. cbn. rewrite He, Hs. reflexivity.
Qed.

Lemma quiet_block (j : Z) (o : t Filter) :
  quiet_inv op0 i j o ->
  let r := Envelope.GetNextEnvelopeOutput Pow
             (FEnvelopeState.set_CurrentSampleIndex j es) 0 N [] in
  EnvelopeState (Block Pow o i) = r.1.1
  /\ OutEnvelope (Block Pow o i) = r.2
  /\ SampleRate (Block Pow o i) = SampleRate op0
  /\ FTrigger.NumFramesPerBlock (OnDone (Block Pow o i))
     = FTrigger.NumFramesPerBlock (OnDone op0)
  /\ FTrigger.TriggeredFrames (OnDone (Block Pow o i)) = r.1.2.
Proof.
  intros (Href & Hs & Hn & Hz) r.
  unfold Block.
  destruct (Execute_dispatch (set_In i o) HM) as (He' & Ho' & Hd' & _ & Hs').
  rewrite He', Ho', Hd', Hs'.
  rewrite DispatchTriggers_quiet by assumption.
  cbn [In set_In].
  assert (Hclear : FTrigger.TriggeredFrames (FTrigger.AdvanceBlock (OnDone o)) = [])
    by (apply AdvanceBlock_clears; [rewrite Hn; exact HNd|exact Hz]).
  destruct (AdvanceAndForward_cases Pow 0 N (BlockStart (set_In i o)))
    as [[Hfin ->]|(Hfin & _ & ->)];
    change (EnvelopeState (BlockStart (set_In i o)))
      with (EnvelopeState (UpdateParams (set_In i o))) in *;
    rewrite Href in *; fold r in Hfin |- *;
    cbn [EnvelopeState OutEnvelope SampleRate OnDone set_OnDone set_OutEnvelope
         set_EnvelopeState];
    (split; [reflexivity|]); (split; [reflexivity|]); (split; [exact Hs|]).
  - cbn. split; [exact Hn|]. rewrite Hfin. exact Hclear.
  - cbn. split; [exact Hn|]. rewrite Hfin.
    change (FTrigger.insert_sorted 0
              (FTrigger.TriggeredFrames (FTrigger.AdvanceBlock (OnDone o))) = [0]).
    rewrite Hclear. reflexivity.
Qed.

Lemma quiet_inv_next (j j' : Z) (o : t Filter) (fin : list Z) (out : float) :
  quiet_inv op0 i j o ->
  Envelope.GetNextEnvelopeOutput Pow (FEnvelopeState.set_CurrentSampleIndex j es) 0 N []
  = (FEnvelopeState.set_CurrentSampleIndex j' es, fin, out) ->
  Forall (fun f => f = 0) fin ->
  quiet_inv op0 i j' (Block Pow o i)
  /\ EnvelopeState (Block Pow o i) = FEnvelopeState.set_CurrentSampleIndex j' es
  /\ FTrigger.TriggeredFrames (OnDone (Block Pow o i)) = fin
  /\ OutEnvelope (Block Pow o i) = out.
Proof.
  intros Hinv Hr Hfin.
  destruct (quiet_block j o Hinv) as (He & Ho & Hs & Hn & Hd).
  rewrite Hr in He, Ho, Hd. cbn [fst snd] in He, Ho, Hd.
  split; [|auto].
  split; [apply refresh_stable; assumption|].
  split; [exact Hs|]. split; [exact Hn|]. rewrite Hd. exact Hfin.
Qed.

Hypothesis Hz0 : Forall (fun f => f = 0) (FTrigger.TriggeredFrames (OnDone op0)).
Hypothesis Hsum :
  Int32.in_range (FEnvelopeState.AttackSampleCount es + FEnvelopeState.DecaySampleCount es).
Hypothesis Hidx :
  0 <= FEnvelopeState.CurrentSampleIndex (EnvelopeState op0)
    <= FEnvelopeState.AttackSampleCount es + FEnvelopeState.DecaySampleCount es.
Hypothesis Hdecay : 0 <= FEnvelopeState.DecaySampleCount es.

Local Abbreviation idx := (FEnvelopeState.CurrentSampleIndex (EnvelopeState op0)).
Local Abbreviation total := (FEnvelopeState.AttackSampleCount es + FEnvelopeState.DecaySampleCount es).

Lemma quiet_inv_start : quiet_inv op0 i idx op0.
Proof.
  split; [|split; [reflexivity|split; [reflexivity|exact Hz0]]].
  change idx with (FEnvelopeState.CurrentSampleIndex es).
  symmetry. apply set_index_same.
Qed.

Lemma quiet_fit (j : Z) :
  0 <= j <= total -> FEnvelopeState.counts_fit (FEnvelopeState.set_CurrentSampleIndex j es).
Proof.
  intros Hj. destruct (UpdateParams_counts_range (set_In i op0)) as [HA HD].
  unfold FEnvelopeState.counts_fit. cbn.
  split; [|split; [exact HA|split; [exact HD|exact Hsum]]].
  unfold Int32.in_range, Int32.min_int, Int32.max_int in *. cbn in *. lia.
Qed.

Lemma quiet_active (k : nat) :
  idx + Z.of_nat k <= total ->
  quiet_inv op0 i (idx + Z.of_nat k) (Blocks Pow op0 (replicate k i))
  /\ FEnvelopeState.CurrentSampleIndex (EnvelopeState (Blocks Pow op0 (replicate k i)))
     = idx + Z.of_nat k
  /\ ((1 <= k)%nat ->
      FTrigger.TriggeredFrames (OnDone (Blocks Pow op0 (replicate k i))) = []).
Proof.
  induction k as [|k IH]; intros Hk.
  - rewrite Z.add_0_r. split; [exact quiet_inv_start|]. split; [reflexivity|lia].
  - destruct IH as (Hinv & _ & _); [lia|].
    rewrite Blocks_replicate_S.
    destruct (advance_active Pow (FEnvelopeState.set_CurrentSampleIndex (idx + Z.of_nat k) es) N)
      as [out Hstep].
    { apply quiet_fit. lia. }
    { cbn [FEnvelopeState.CurrentSampleIndex FEnvelopeState.set_CurrentSampleIndex
           FEnvelopeState.AttackSampleCount FEnvelopeState.DecaySampleCount]. lia. }
    cbn [FEnvelopeState.CurrentSampleIndex FEnvelopeState.set_CurrentSampleIndex] in Hstep.
    rewrite set_index_twice in Hstep.
    replace (idx + Z.of_nat k + 1) with (idx + Z.of_nat (S k)) in Hstep by lia.
    destruct (quiet_inv_next _ _ _ _ _ Hinv Hstep ltac:(constructor))
      as (Hinv' & He & Hd & _).
    split; [exact Hinv'|]. split; [rewrite He; reflexivity|]. intros _. exact Hd.
Qed.

Lemma quiet_done :
  let n := Z.to_nat (total - idx) in
  quiet_inv op0 i INDEX_NONE (Blocks Pow op0 (replicate (S n) i))
  /\ FEnvelopeState.CurrentSampleIndex (EnvelopeState (Blocks Pow op0 (replicate (S n) i)))
     = INDEX_NONE
  /\ FTrigger.TriggeredFrames (OnDone (Blocks Pow op0 (replicate (S n) i))) = [0]
  /\ OutEnvelope (Blocks Pow op0 (replicate (S n) i)) = F32.zero.
Proof.
  intros n.
  destruct (quiet_active n) as (Hinv & _ & _); [subst n; lia|].
  replace (idx + Z.of_nat n) with total in Hinv by (subst n; lia).
  rewrite Blocks_replicate_S.
  assert (Hstep : Envelope.GetNextEnvelopeOutput Pow
                    (FEnvelopeState.set_CurrentSampleIndex total es) 0 N []
                  = (FEnvelopeState.set_CurrentSampleIndex INDEX_NONE es, [0], F32.zero)).
  { rewrite advance_done;
      cbn [FEnvelopeState.CurrentSampleIndex FEnvelopeState.set_CurrentSampleIndex
           FEnvelopeState.AttackSampleCount FEnvelopeState.DecaySampleCount].
    - rewrite set_index_twice. reflexivity.
    - unfold INDEX_NONE. lia.
    - lia.
    - rewrite Int32Facts.add_exact by exact Hsum. lia. }
  destruct (quiet_inv_next _ _ _ _ _ Hinv Hstep ltac:(repeat constructor))
    as (Hinv' & He & Hd & Ho).
  split; [exact Hinv'|]. split; [rewrite He; reflexivity|]. split; assumption.
Qed.

Lemma quiet_idle (later : nat) :
  let n := Z.to_nat (total - idx) in
  quiet_inv op0 i INDEX_NONE (Blocks Pow op0 (replicate (S (S n) + later) i))
  /\ FEnvelopeState.CurrentSampleIndex
       (EnvelopeState (Blocks Pow op0 (replicate (S (S n) + later) i))) = INDEX_NONE
  /\ FTrigger.TriggeredFrames (OnDone (Blocks Pow op0 (replicate (S (S n) + later) i))) = []
  /\ OutEnvelope (Blocks Pow op0 (replicate (S (S n) + later) i)) = F32.zero.
Proof.
  intros n.
  assert (Hstep : Envelope.GetNextEnvelopeOutput Pow
                    (FEnvelopeState.set_CurrentSampleIndex INDEX_NONE es) 0 N []
                  = (FEnvelopeState.set_CurrentSampleIndex INDEX_NONE es, [], F32.zero))
    by (apply advance_skipped; right; reflexivity).
  assert (Hnext : forall o, quiet_inv op0 i INDEX_NONE o ->
            quiet_inv op0 i INDEX_NONE (Block Pow o i)
            /\ FEnvelopeState.CurrentSampleIndex (EnvelopeState (Block Pow o i)) = INDEX_NONE
            /\ FTrigger.TriggeredFrames (OnDone (Block Pow o i)) = []
            /\ OutEnvelope (Block Pow o i) = F32.zero).
  { intros o Hinv.
    destruct (quiet_inv_next _ _ _ _ _ Hinv Hstep ltac:(constructor))
      as (Hinv' & He & Hd & Ho).
    split; [exact Hinv'|]. split; [rewrite He; reflexivity|]. split; assumption. }
  induction later as [|later IH].
  - rewrite Nat.add_0_r, Blocks_replicate_S. apply Hnext. apply quiet_done.
  - replace (S (S n) + S later)%nat with (S (S (S n) + later)) by lia.
    rewrite Blocks_replicate_S. apply Hnext. apply IH.
Qed.

End Quiet.

(** X6. An envelope lasts as many blocks as it has samples. Outside
    LowPass mode, over blocks without trigger and with the same inputs,
    an envelope at index [idx] of [total] samples (attack plus decay, as
    refreshed from these inputs) moves by one sample a block for
    [total - idx] blocks, during which the done trigger does not fire;
    the block after them fires the done trigger, at frame 0, sets the
    envelope idle and the envelope output to 0; and in every later block
    the done trigger is silent again. *)
Theorem X6_done_fires_after_as_many_blocks_as_samples op (i : Inputs) :
  Mode i <> LowPass ->
  0 < FTrigger.NumFramesPerBlock (TriggerAttackIn i) ->
  FTrigger.FramesInBlock (TriggerAttackIn i) = [] ->
  0 < FTrigger.NumFramesPerBlock (OnDone op) ->
  Forall (fun f => f = 0) (FTrigger.TriggeredFrames (OnDone op)) ->
  let es := EnvelopeState (UpdateParams (set_In i op)) in
  let total := FEnvelopeState.AttackSampleCount es + FEnvelopeState.DecaySampleCount es in
  let idx := FEnvelopeState.CurrentSampleIndex (EnvelopeState op) in
  Int32.in_range total ->
  0 <= FEnvelopeState.DecaySampleCount es ->
  0 <= idx <= total ->
  let n := Z.to_nat (total - idx) in
  let after (k : nat) := Blocks Pow op (replicate k i) in
  (forall k : nat, (k <= n)%nat ->
     FEnvelopeState.CurrentSampleIndex (EnvelopeState (after k)) = idx + Z.of_nat k
     /\ ((1 <= k)%nat -> FTrigger.TriggeredFrames (OnDone (after k)) = []))
  /\ (FEnvelopeState.CurrentSampleIndex (EnvelopeState (after (n + 1)%nat)) = INDEX_NONE
      /\ FTrigger.TriggeredFrames (OnDone (after (n + 1)%nat)) = [0]
      /\ OutEnvelope (after (n + 1)%nat) = F32.zero)
  /\ (forall later : nat,
        FEnvelopeState.CurrentSampleIndex (EnvelopeState (after (n + 2 + later)%nat)) = INDEX_NONE
        /\ FTrigger.TriggeredFrames (OnDone (after (n + 2 + later)%nat)) = []
        /\ OutEnvelope (after (n + 2 + later)%nat) = F32.zero).
Proof.
  intros HM HN Hq HNd Hz es total idx Hsum HD Hidx n after.
  split; [|split].
  - intros k Hk.
    destruct (quiet_active op i HM HN Hq HNd Hz Hsum Hidx k) as (_ & H1 & H2).
    + fold es total idx. subst n. lia.
    + split; assumption.
  - destruct (quiet_done op i HM HN Hq HNd Hz Hsum Hidx HD) as (_ & H1 & H2 & H3).
    fold es total idx n in H1, H2, H3. subst after. cbv beta.
    replace (n + 1)%nat with (S n) by lia. auto.
  - intros later.
    destruct (quiet_idle op i HM HN Hq HNd Hz Hsum Hidx HD later) as (_ & H1 & H2 & H3).
    fold es total idx n in H1, H2, H3. subst after. cbv beta.
    replace (n + 2 + later)%nat with (S (S n) + later)%nat by lia. auto.
Qed.

(** *** Operators that wait for their first trigger *)

Lemma AdvanceBlock_empty (tr : FTrigger.t) :
  FTrigger.TriggeredFrames tr = [] ->
  FTrigger.TriggeredFrames (FTrigger.AdvanceBlock tr) = [].
Proof. intros H. unfold FTrigger.AdvanceBlock. rewrite H. reflexivity. Qed.

Lemma SubRanges_no_frames (tr : FTrigger.t) :
  FTrigger.FramesInBlock tr = [] ->
  FTrigger.SubRanges tr = []
  \/ FTrigger.SubRanges tr = [(false, 0, FTrigger.NumFramesPerBlock tr)].
Proof.
  intros Hq. unfold FTrigger.SubRanges.
  destruct (_ <=? 0); [left; reflexivity|]. rewrite Hq. right; reflexivity.
Qed.

Lemma DispatchTriggers_waiting op :
  FTrigger.FramesInBlock (TriggerAttackIn (In op)) = [] ->
  waiting op -> waiting (DispatchTriggers Pow op).
Proof.
  intros Hq (Hi & Ho & Hd & Ha).
  assert (Hstart : waiting (BlockStart op)).
  { unfold waiting. split; [exact Hi|]. split; [exact Ho|].
    split; [exact (AdvanceBlock_empty _ Hd)|exact (AdvanceBlock_empty _ Ha)]. }
  rewrite DispatchTriggers_fold.
  destruct (SubRanges_no_frames _ Hq) as [-> | ->]; [exact Hstart|].
  cbn [foldl FTrigger.Dispatch]. unfold PreTriggerLambda.
  destruct Hstart as (Hi' & Ho' & Hd' & Ha').
  destruct (AdvanceAndForward_cases Pow 0
              (FTrigger.NumFramesPerBlock (TriggerAttackIn (In op))) (BlockStart op))
    as [[_ ->]|(Hfin & _ & _)].
  - rewrite advance_skipped by (right; exact Hi').
    unfold waiting. cbn [fst snd]. cbn. cbn in Hd', Ha'. auto.
  - rewrite advance_skipped in Hfin by (right; exact Hi'). discriminate.
Qed.

Lemma Execute_waiting op :
  FTrigger.FramesInBlock (TriggerAttackIn (In op)) = [] ->
  waiting op -> waiting (Execute Pow op).
Proof.
  intros Hq (Hi & Ho & Hd & Ha). unfold waiting.
  destruct (Mode (In op)) eqn:HM.
  - unfold Execute. rewrite HM.
    destruct (RunFilter_frame (AudioInput (In (HandleLowPassFilter op)))
                (HandleLowPassFilter op)) as (_ & Ha1 & Hd1 & Ho1 & _ & _ & He1 & _).
    destruct (HandleLowPassFilter_frame op) as (_ & Ha2 & Hd2 & Ho2 & _ & _ & _ & He2).
    rewrite He1, He2, Ho1, Ho2, Hd1, Hd2, Ha1, Ha2. auto.
  - destruct (Execute_dispatch op ltac:(rewrite HM; discriminate)) as (-> & -> & -> & -> & _).
    apply DispatchTriggers_waiting; [exact Hq|]. unfold waiting; auto.
  - destruct (Execute_dispatch op ltac:(rewrite HM; discriminate)) as (-> & -> & -> & -> & _).
    apply DispatchTriggers_waiting; [exact Hq|]. unfold waiting; auto.
Qed.

Lemma Blocks_waiting (l : list Inputs) op :
  Forall (fun i => FTrigger.FramesInBlock (TriggerAttackIn i) = []) l ->
  waiting op -> waiting (Blocks Pow op l).
Proof.
  intros Hl. revert op. induction Hl as [|i l Hi Hl IH]; intros op Hw; [exact Hw|].
  cbn [Blocks foldl]. apply IH. unfold Block. apply Execute_waiting; [exact Hi|exact Hw].
Qed.

Lemma Execute_VCA op :
  Mode (In op) = VCA ->
  Execute Pow op =
    set_AudioOutput
      (ScaleInto (AudioInput (In op)) (OutEnvelope (DispatchTriggers Pow op)) (AudioOutput op))
      (DispatchTriggers Pow op).
Proof.
  intros HM.
  pose proof (DispatchTriggers_frame Pow op) as Hfr.
  unfold dispatch_frame in Hfr. injection Hfr as HIn HOut _ _ _ _ _ _ _ _ _.
  unfold Execute. rewrite HM. unfold CalculateEnvelope. rewrite HIn, HOut. reflexivity.
Qed.

(** A finite sample times +0 is a zero. *)
Lemma mul_zero_finite (x : float) :
  F32.is_finite x = true -> exists s, F32.mul x F32.zero = S754_zero s.
Proof. destruct x as [s|s| |s m e]; try discriminate; intros _; eexists; reflexivity. Qed.

(** Every output sample of a VCA block whose envelope output is 0. *)
Lemma Execute_VCA_muted op :
  Mode (In op) = VCA ->
  (length (AudioInput (In op)) <= length (AudioOutput op))%nat ->
  OutEnvelope (DispatchTriggers Pow op) = F32.zero ->
  forall (k : nat) (x : float),
    AudioInput (In op) !! k = Some x ->
    AudioOutput (Execute Pow op) !! k = Some (F32.mul x F32.zero)
    /\ (F32.is_finite x = true -> exists s, F32.mul x F32.zero = S754_zero s).
Proof.
  intros HM Hlen Hout k x Hx. rewrite (Execute_VCA op HM), Hout.
  cbn [AudioOutput set_AudioOutput]. rewrite ScaleInto_lookup by exact Hlen.
  destruct (decide _) as [Hk|Hk].
  - rewrite Hx. split; [reflexivity|apply mul_zero_finite].
  - apply lookup_lt_Some in Hx. lia.
Qed.

(** X7. Without a trigger nothing starts. From its construction on, as
    long as no block carries a trigger frame, in any sequence of modes
    and for any inputs otherwise, the envelope is idle, the envelope
    output is 0 and neither output trigger holds a frame; and a further
    VCA block without trigger puts out every input sample times 0, which
    is a zero for a finite sample. *)
Theorem X7_idle_until_first_trigger
    (InSampleRate : float) (InNumFramesPerBlock : Z) (i0 : Inputs) (l : list Inputs) :
  Forall (fun i => FTrigger.FramesInBlock (TriggerAttackIn i) = []) l ->
  let op := Blocks Pow (Construct InSampleRate InNumFramesPerBlock i0) l in
  FEnvelopeState.CurrentSampleIndex (EnvelopeState op) = INDEX_NONE
  /\ OutEnvelope op = F32.zero
  /\ FTrigger.TriggeredFrames (OnDone op) = []
  /\ FTrigger.TriggeredFrames (OnAttackTrigger op) = []
  /\ (forall i : Inputs,
        Mode i = VCA ->
        FTrigger.FramesInBlock (TriggerAttackIn i) = [] ->
        (length (AudioInput i) <= length (AudioOutput op))%nat ->
        forall (k : nat) (x : float),
          AudioInput i !! k = Some x ->
          AudioOutput (Block Pow op i) !! k = Some (F32.mul x F32.zero)
          /\ (F32.is_finite x = true -> exists s, F32.mul x F32.zero = S754_zero s)).
Proof.
  intros Hl op.
  assert (Hw : waiting op).
  { apply Blocks_waiting; [exact Hl|]. unfold waiting. cbn. auto. }
  destruct Hw as (H1 & H2 & H3 & H4).
  split; [exact H1|]. split; [exact H2|]. split; [exact H3|]. split; [exact H4|].
  intros i HM Hq Hlen k x Hx. unfold Block.
  apply Execute_VCA_muted; try assumption.
  apply (DispatchTriggers_waiting (set_In i op)); [exact Hq|].
  unfold waiting. cbn. auto.
Qed.

(** *** A block whose last trigger is past frame 0 *)

Lemma TriggerRanges_snoc (EndOfBlock f g : Z) (rest : list Z) :
  exists ranges,
    FTrigger.TriggerRanges EndOfBlock f (rest ++ [g]) = ranges ++ [(true, g, EndOfBlock)].
Proof.
  revert f. induction rest as [|h rest IH]; intros f.
  - exists [(true, f, g)]. reflexivity.
  - destruct (IH h) as [ranges Hr]. exists ((true, f, h) :: ranges).
    cbn [app FTrigger.TriggerRanges]. rewrite Hr. reflexivity.
Qed.

Lemma SubRanges_last (tr : FTrigger.t) (pre : list Z) (f : Z) :
  0 < FTrigger.NumFramesPerBlock tr ->
  FTrigger.FramesInBlock tr = pre ++ [f] ->
  exists ranges,
    FTrigger.SubRanges tr = ranges ++ [(true, f, FTrigger.NumFramesPerBlock tr)].
Proof.
  intros HN Hf. unfold FTrigger.SubRanges.
  destruct (_ <=? 0) eqn:E; [apply Z.leb_le in E; lia|]. rewrite Hf.
  destruct pre as [|g pre]; cbn [app].
  - exists (if 0 <? f then [(false, 0, f)] else []). reflexivity.
  - destruct (TriggerRanges_snoc (FTrigger.NumFramesPerBlock tr) g f pre) as [ranges Hr].
    exists ((if 0 <? g then [(false, 0, g)] else []) ++ ranges).
    rewrite Hr, app_assoc. reflexivity.
Qed.

(** X8. A block whose last trigger is past frame 0 is muted. Outside
    LowPass mode, when the last trigger frame of the block is above 0,
    the envelope output of the block is 0 and the index is left at 0, the
    attack yet to start; in VCA mode every output sample of the block is
    the input sample times 0. *)
Theorem X8_late_trigger_mutes_the_block op (pre : list Z) (f : Z) :
  Mode (In op) <> LowPass ->
  0 < FTrigger.NumFramesPerBlock (TriggerAttackIn (In op)) ->
  FTrigger.FramesInBlock (TriggerAttackIn (In op)) = pre ++ [f] ->
  0 < f ->
  OutEnvelope (Execute Pow op) = F32.zero
  /\ FEnvelopeState.CurrentSampleIndex (EnvelopeState (Execute Pow op)) = 0
  /\ (Mode (In op) = VCA ->
      (length (AudioInput (In op)) <= length (AudioOutput op))%nat ->
      forall (k : nat) (x : float),
        AudioInput (In op) !! k = Some x ->
        AudioOutput (Execute Pow op) !! k = Some (F32.mul x F32.zero)
        /\ (F32.is_finite x = true -> exists s, F32.mul x F32.zero = S754_zero s)).
Proof.
  intros HM HN Hf Hpos.
  destruct (SubRanges_last _ pre f HN Hf) as [ranges Hr].
  assert (Hlast : exists o,
             DispatchTriggers Pow op
             = OnTriggerLambda Pow f (FTrigger.NumFramesPerBlock (TriggerAttackIn (In op))) o).
  { rewrite DispatchTriggers_fold, Hr, foldl_app. eexists. reflexivity. }
  destruct Hlast as [o Ho].
  assert (Hout : OutEnvelope (DispatchTriggers Pow op) = F32.zero
                 /\ FEnvelopeState.CurrentSampleIndex (EnvelopeState (DispatchTriggers Pow op)) = 0).
  { rewrite Ho, OnTriggerLambda_unfold. cbn zeta.
    cbn [OutEnvelope EnvelopeState set_OnAttackTrigger].
    destruct (AdvanceAndForward_output Pow f
                (FTrigger.NumFramesPerBlock (TriggerAttackIn (In op))) (ResetForTrigger o))
      as (-> & -> & _).
    rewrite advance_skipped by (left; exact Hpos). split; reflexivity. }
  destruct Hout as [Hout Hidx].
  destruct (Execute_dispatch op HM) as (He & Ho' & _).
  rewrite He, Ho'. split; [exact Hout|]. split; [exact Hidx|].
  intros HV Hlen. apply Execute_VCA_muted; assumption.
Qed.

(** *** The attack trigger *)

Lemma Dispatch_attack_trigger (IsTrigger : bool) (StartFrame EndFrame : Z) op :
  OnAttackTrigger (FTrigger.Dispatch (PreTriggerLambda Pow) (OnTriggerLambda Pow)
                     (IsTrigger, StartFrame, EndFrame) op)
  = if IsTrigger then FTrigger.TriggerFrame StartFrame (OnAttackTrigger op)
    else OnAttackTrigger op.
Proof.
  unfold FTrigger.Dispatch. destruct IsTrigger.
  - rewrite OnTriggerLambda_unfold. cbn zeta. cbn [OnAttackTrigger set_OnAttackTrigger].
    destruct (AdvanceAndForward_output Pow StartFrame EndFrame (ResetForTrigger op))
      as (_ & _ & ->). reflexivity.
  - apply AdvanceAndForward_output.
Qed.

Lemma foldl_Dispatch_attack_trigger (ranges : list (bool * Z * Z)) op :
  FTrigger.TriggeredFrames
    (OnAttackTrigger
       (foldl (fun s r => FTrigger.Dispatch (PreTriggerLambda Pow) (OnTriggerLambda Pow) r s)
              op ranges))
  = foldl (fun fr (r : bool * Z * Z) => if r.1.1 then FTrigger.insert_sorted r.1.2 fr else fr)
          (FTrigger.TriggeredFrames (OnAttackTrigger op)) ranges.
Proof.
  revert op. induction ranges as [|[[trig a] b] ranges IH]; intros op; [reflexivity|].
  cbn [foldl]. rewrite IH, Dispatch_attack_trigger. destruct trig; reflexivity.
Qed.

Lemma TriggerRanges_starts (EndOfBlock f : Z) (rest fr : list Z) :
  foldl (fun fr (r : bool * Z * Z) => if r.1.1 then FTrigger.insert_sorted r.1.2 fr else fr)
        fr (FTrigger.TriggerRanges EndOfBlock f rest)
  = foldl (fun fr g => FTrigger.insert_sorted g fr) fr (f :: rest).
Proof.
  revert f fr. induction rest as [|g rest IH]; intros f fr; [reflexivity|].
  cbn [FTrigger.TriggerRanges foldl fst snd]. rewrite IH. reflexivity.
Qed.

Lemma SubRanges_starts (tr : FTrigger.t) (fr : list Z) :
  0 < FTrigger.NumFramesPerBlock tr ->
  foldl (fun fr (r : bool * Z * Z) => if r.1.1 then FTrigger.insert_sorted r.1.2 fr else fr)
        fr (FTrigger.SubRanges tr)
  = foldl (fun fr g => FTrigger.insert_sorted g fr) fr (FTrigger.FramesInBlock tr).
Proof.
  intros HN. unfold FTrigger.SubRanges.
  destruct (_ <=? 0) eqn:E; [apply Z.leb_le in E; lia|].
  destruct (FTrigger.FramesInBlock tr) as [|f rest]; [reflexivity|].
  rewrite foldl_app, TriggerRanges_starts.
  destruct (0 <? f); reflexivity.
Qed.

Lemma all_equal_snoc (x : Z) (l : list Z) :
  Forall (fun g => g = x) l -> x :: l = l ++ [x].
Proof.
  induction 1 as [|g l Hg Hl IH]; [reflexivity|].
  subst g. cbn [app]. f_equal. exact IH.
Qed.

Lemma insert_sorted_last (x : Z) (l : list Z) :
  StronglySorted Z.le l -> Forall (fun g => g <= x) l ->
  FTrigger.insert_sorted x l = l ++ [x].
Proof.
  induction 1 as [|g l Hl IH Hg]; intros Hle; [reflexivity|].
  apply Forall_cons in Hle. destruct Hle as [Hgx Hle].
  cbn [FTrigger.insert_sorted app].
  destruct (g <? x) eqn:E.
  - rewrite IH by exact Hle. reflexivity.
  - apply Z.ltb_ge in E. assert (g = x) by lia. subst g.
    apply (all_equal_snoc x (x :: l)). constructor; [reflexivity|].
    clear -Hg Hle. induction l as [|h l IH]; [constructor|].
    apply Forall_cons in Hg, Hle. destruct Hg as [H1 Hg], Hle as [H2 Hle].
    constructor; [lia|]. apply IH; assumption.
Qed.

Lemma foldl_insert_sorted (acc l : list Z) :
  StronglySorted Z.le (acc ++ l) ->
  foldl (fun fr g => FTrigger.insert_sorted g fr) acc l = acc ++ l.
Proof.
  revert acc. induction l as [|x l IH]; intros acc Hs; [rewrite app_nil_r; reflexivity|].
  cbn [foldl]. rewrite insert_sorted_last.
  - rewrite IH by (rewrite <- app_assoc; exact Hs). rewrite <- app_assoc. reflexivity.
  - apply StronglySorted_app in Hs. apply Hs.
  - apply StronglySorted_app in Hs. destruct Hs as (H1 & _ & _).
    apply Forall_forall. intros g Hg. apply (H1 g x Hg). apply list_elem_of_here.
Qed.

Lemma StronglySorted_filter_lt (N : Z) (l : list Z) :
  StronglySorted Z.le l -> StronglySorted Z.le (filter (fun f => f < N) l).
Proof.
  induction 1 as [|g l Hl IH Hg]; [constructor|].
  rewrite filter_cons. destruct (decide _) as [Hd|Hd]; [|exact IH].
  constructor; [exact IH|].
  apply Forall_forall. intros h Hh. apply list_elem_of_filter in Hh.
  destruct Hh as [_ Hh]. rewrite Forall_forall in Hg. apply Hg. exact Hh.
Qed.

Lemma AdvanceBlock_drops (tr : FTrigger.t) :
  Forall (fun f => f < FTrigger.NumFramesPerBlock tr) (FTrigger.TriggeredFrames tr) ->
  FTrigger.TriggeredFrames (FTrigger.AdvanceBlock tr) = [].
Proof.
  unfold FTrigger.AdvanceBlock. cbn [FTrigger.TriggeredFrames].
  induction 1 as [|g r Hg Hr IH]; [reflexivity|].
  rewrite filter_cons. destruct (decide _) as [Hd|Hd]; [lia|exact IH].
Qed.

(** X9. The attack trigger repeats the input trigger. Outside LowPass
    mode, when the input trigger holds its frames in ascending order and
    the attack trigger holds no frame of a later block, the attack
    trigger holds after the block exactly the frames of the input
    trigger that lie in the block. *)
Theorem X9_attack_trigger_repeats_the_input op :
  Mode (In op) <> LowPass ->
  0 < FTrigger.NumFramesPerBlock (TriggerAttackIn (In op)) ->
  StronglySorted Z.le (FTrigger.TriggeredFrames (TriggerAttackIn (In op))) ->
  Forall (fun f => f < FTrigger.NumFramesPerBlock (OnAttackTrigger op))
         (FTrigger.TriggeredFrames (OnAttackTrigger op)) ->
  FTrigger.TriggeredFrames (OnAttackTrigger (Execute Pow op))
  = FTrigger.FramesInBlock (TriggerAttackIn (In op)).
Proof.
  intros HM HN Hs Hold.
  destruct (Execute_dispatch op HM) as (_ & _ & _ & -> & _).
  rewrite DispatchTriggers_fold, foldl_Dispatch_attack_trigger, SubRanges_starts by exact HN.
  change (FTrigger.TriggeredFrames (OnAttackTrigger (BlockStart op)))
    with (FTrigger.TriggeredFrames (FTrigger.AdvanceBlock (OnAttackTrigger op))).
  rewrite AdvanceBlock_drops by exact Hold.
  apply (foldl_insert_sorted []). apply StronglySorted_filter_lt. exact Hs.
Qed.

(** *** VCA mode and the filter *)

(** X10. VCA mode leaves the filter alone: the filter, the three cached
    filter parameters and the length of the output buffer are what they
    were before the block. *)
Theorem X10_vca_leaves_the_filter op :
  Mode (In op) = VCA ->
  VariableFilter (Execute Pow op) = VariableFilter op
  /\ PreviousFrequency (Execute Pow op) = PreviousFrequency op
  /\ PreviousResonance (Execute Pow op) = PreviousResonance op
  /\ PreviousBandStopControl (Execute Pow op) = PreviousBandStopControl op
  /\ length (AudioOutput (Execute Pow op)) = length (AudioOutput op).
Proof.
  intros HM. rewrite (Execute_VCA op HM).
  pose proof (DispatchTriggers_frame Pow op) as Hfr.
  unfold dispatch_frame in Hfr. injection Hfr as _ _ _ _ HF H1 H2 H3 _ _ _.
  cbn [VariableFilter PreviousFrequency PreviousResonance PreviousBandStopControl
       AudioOutput set_AudioOutput].
  rewrite ScaleInto_length. auto.
Qed.

End BlockDynamics.

(** ** The sample index *)

Section IndexInvariant.

Variable Pow : float -> float -> float.
Context {Filter : Type} `{!StateVariableFilter Filter}.

Import FLowPassGateOperator.

Implicit Types op : t Filter.

Lemma advance_index_safe (st : FEnvelopeState.t) (StartFrame EndFrame : Z) (Fin : list Z) :
  Int32.in_range (FEnvelopeState.AttackSampleCount st) ->
  Int32.in_range (FEnvelopeState.CurrentSampleIndex st) ->
  INDEX_NONE <= FEnvelopeState.CurrentSampleIndex st ->
  let st' := (Envelope.GetNextEnvelopeOutput Pow st StartFrame EndFrame Fin).1.1 in
  Int32.in_range (FEnvelopeState.CurrentSampleIndex st')
  /\ INDEX_NONE <= FEnvelopeState.CurrentSampleIndex st'
  /\ (FEnvelopeState.CurrentSampleIndex st' = INDEX_NONE
      \/ FEnvelopeState.CurrentSampleIndex st' = FEnvelopeState.CurrentSampleIndex st
      \/ FEnvelopeState.CurrentSampleIndex st' = FEnvelopeState.CurrentSampleIndex st + 1).
Proof.
  intros HA Hi Hlo st'. subst st'.
  unfold Envelope.GetNextEnvelopeOutput.
  destruct (_ || _) eqn:Eskip; cbn [fst snd].
  { split; [exact Hi|]. split; [exact Hlo|]. right; left; reflexivity. }
  apply orb_false_iff in Eskip. destruct Eskip as [_ En]. apply Z.eqb_neq in En.
  pose proof (Int32Facts.wrap_range
                (FEnvelopeState.AttackSampleCount st + FEnvelopeState.DecaySampleCount st))
    as Hsum.
  fold (Int32.add (FEnvelopeState.AttackSampleCount st) (FEnvelopeState.DecaySampleCount st))
    in Hsum.
  assert (Hstep : forall b, Int32.in_range b -> FEnvelopeState.CurrentSampleIndex st < b ->
            let j := Int32.incr (FEnvelopeState.CurrentSampleIndex st) in
            Int32.in_range j /\ INDEX_NONE <= j
            /\ (j = INDEX_NONE \/ j = FEnvelopeState.CurrentSampleIndex st
                \/ j = FEnvelopeState.CurrentSampleIndex st + 1)).
  { intros b Hb Hlt j. subst j. rewrite (Int32Facts.incr_exact _ b Hi Hb Hlt).
    unfold Int32.in_range, Int32.min_int, Int32.max_int, INDEX_NONE in *.
    repeat split; lia. }
  destruct (FEnvelopeState.CurrentSampleIndex st <? FEnvelopeState.AttackSampleCount st) eqn:E1.
  - apply Z.ltb_lt in E1.
    destruct (1 <? FEnvelopeState.AttackSampleCount st);
      cbn [fst snd FEnvelopeState.CurrentSampleIndex FEnvelopeState.set_CurrentSampleIndex];
      apply (Hstep _ HA E1).
  - destruct (FEnvelopeState.CurrentSampleIndex st <? Int32.add _ _) eqn:E2;
      cbn [fst snd FEnvelopeState.CurrentSampleIndex FEnvelopeState.set_CurrentSampleIndex].
    + apply Z.ltb_lt in E2. apply (Hstep _ Hsum E2).
    + unfold Int32.in_range, Int32.min_int, Int32.max_int, INDEX_NONE.
      repeat split; lia.
Qed.

Lemma AdvanceAndForward_index (StartFrame EndFrame : Z) op :
  index_safe op -> index_safe (AdvanceAndForward Pow StartFrame EndFrame op).
Proof.
  intros (HA & Hi & Hlo). unfold index_safe.
  destruct (AdvanceAndForward_output Pow StartFrame EndFrame op) as (_ & -> & _).
  destruct (advance_frame Pow (EnvelopeState op) StartFrame EndFrame [])
    as (_ & _ & _ & -> & _).
  destruct (advance_index_safe (EnvelopeState op) StartFrame EndFrame [] HA Hi Hlo)
    as (H1 & H2 & _).
  auto.
Qed.

Lemma OnTriggerLambda_index (StartFrame EndFrame : Z) op :
  index_safe (OnTriggerLambda Pow StartFrame EndFrame op).
Proof.
  rewrite OnTriggerLambda_unfold. cbn zeta.
  change (index_safe (AdvanceAndForward Pow StartFrame EndFrame (ResetForTrigger op))).
  apply AdvanceAndForward_index. unfold index_safe.
  destruct (UpdateParams_counts_range op) as [HA _].
  split; [exact HA|]. cbn. unfold Int32.in_range, Int32.min_int, Int32.max_int, INDEX_NONE.
  lia.
Qed.

Lemma Execute_index op : index_safe op -> index_safe (Execute Pow op).
Proof.
  intros Hs.
  assert (HD : index_safe (DispatchTriggers Pow op)).
  { unfold DispatchTriggers. apply (ExecuteBlock_invariant index_safe).
    - intros a b s. apply AdvanceAndForward_index.
    - intros a b s _. apply OnTriggerLambda_index.
    - destruct Hs as (_ & Hi & Hlo). unfold index_safe.
      destruct (UpdateParams_counts_range op) as [HA _].
      split; [exact HA|]. split; [exact Hi|exact Hlo]. }
  unfold Execute. destruct (Mode (In op)).
  - destruct (RunFilter_frame (AudioInput (In (HandleLowPassFilter op)))
                (HandleLowPassFilter op)) as (_ & _ & _ & _ & _ & _ & H1 & _).
    destruct (HandleLowPassFilter_frame op) as (_ & _ & _ & _ & _ & _ & _ & H2).
    unfold index_safe. rewrite H1, H2. exact Hs.
  - exact HD.
  - match goal with
    | |- index_safe (RunFilter ?i (HandleLowPassFilter ?o)) =>
        destruct (RunFilter_frame i (HandleLowPassFilter o))
          as (_ & _ & _ & _ & _ & _ & H1 & _);
        destruct (HandleLowPassFilter_frame o) as (_ & _ & _ & _ & _ & _ & _ & H2)
    end.
    unfold index_safe. rewrite H1, H2. exact HD.
Qed.

Lemma Blocks_index (l : list Inputs) op :
  index_safe op -> index_safe (Blocks Pow op l).
Proof.
  revert op. induction l as [|i l IH]; intros op Hs; [exact Hs|].
  cbn [Blocks foldl]. apply IH. unfold Block. apply Execute_index.
  exact Hs.
Qed.

(** The same within defined behaviour: the counts and their sum are
    [int32] values, so that no step of the engine wraps. *)
Lemma advance_index_fit (st : FEnvelopeState.t) (StartFrame EndFrame : Z) (Fin : list Z) :
  FEnvelopeState.counts_fit st ->
  INDEX_NONE <= FEnvelopeState.CurrentSampleIndex st ->
  let st' := (Envelope.GetNextEnvelopeOutput Pow st StartFrame EndFrame Fin).1.1 in
  Int32.in_range (FEnvelopeState.CurrentSampleIndex st')
  /\ INDEX_NONE <= FEnvelopeState.CurrentSampleIndex st'
  /\ (FEnvelopeState.CurrentSampleIndex st' = INDEX_NONE
      \/ FEnvelopeState.CurrentSampleIndex st' = FEnvelopeState.CurrentSampleIndex st
      \/ FEnvelopeState.CurrentSampleIndex st' = FEnvelopeState.CurrentSampleIndex st + 1).
Proof.
  intros (Hi & HA & HD & Hsum) Hlo st'. subst st'.
  unfold Envelope.GetNextEnvelopeOutput.
  destruct (_ || _) eqn:Eskip; cbn [fst snd].
  { split; [exact Hi|]. split; [exact Hlo|]. right; left; reflexivity. }
  rewrite (Int32Facts.add_exact _ _ Hsum).
  assert (Hstep : forall b, Int32.in_range b -> FEnvelopeState.CurrentSampleIndex st < b ->
            let j := Int32.incr (FEnvelopeState.CurrentSampleIndex st) in
            Int32.in_range j /\ INDEX_NONE <= j
            /\ (j = INDEX_NONE \/ j = FEnvelopeState.CurrentSampleIndex st
                \/ j = FEnvelopeState.CurrentSampleIndex st + 1)).
  { intros b Hb Hlt j. subst j. rewrite (Int32Facts.incr_exact _ b Hi Hb Hlt).
    unfold Int32.in_range, Int32.min_int, Int32.max_int, INDEX_NONE in *.
    repeat split; lia. }
  destruct (FEnvelopeState.CurrentSampleIndex st <? FEnvelopeState.AttackSampleCount st) eqn:E1.
  - apply Z.ltb_lt in E1.
    destruct (1 <? FEnvelopeState.AttackSampleCount st);
      cbn [fst snd FEnvelopeState.CurrentSampleIndex FEnvelopeState.set_CurrentSampleIndex];
      apply (Hstep _ HA E1).
  - destruct (FEnvelopeState.CurrentSampleIndex st
               <? FEnvelopeState.AttackSampleCount st + FEnvelopeState.DecaySampleCount st)
      eqn:E2;
      cbn [fst snd FEnvelopeState.CurrentSampleIndex FEnvelopeState.set_CurrentSampleIndex].
    + apply Z.ltb_lt in E2. apply (Hstep _ Hsum E2).
    + unfold Int32.in_range, Int32.min_int, Int32.max_int, INDEX_NONE.
      repeat split; lia.
Qed.

Lemma AdvanceAndForward_fitting (sr : float) (i : Inputs) (StartFrame EndFrame : Z) op :
  fitting sr i op -> fitting sr i (AdvanceAndForward Pow StartFrame EndFrame op).
Proof.
  intros (HIn & Hsr & Hfit & Hlo).
  pose proof (AdvanceAndForward_frame Pow StartFrame EndFrame op) as Hfr.
  unfold dispatch_frame in Hfr. injection Hfr as HIn' _ Hsr' _ _ _ _ _ _ _ _.
  destruct (AdvanceAndForward_output Pow StartFrame EndFrame op) as (_ & Hes & _).
  destruct (advance_frame Pow (EnvelopeState op) StartFrame EndFrame [])
    as (_ & _ & _ & HA & HD & _).
  destruct (advance_index_fit (EnvelopeState op) StartFrame EndFrame [] Hfit Hlo)
    as (Hi' & Hlo' & _).
  destruct Hfit as (_ & HfA & HfD & Hsum).
  split; [rewrite HIn'; exact HIn|]. split; [rewrite Hsr'; exact Hsr|].
  rewrite Hes. split; [|exact Hlo'].
  unfold FEnvelopeState.counts_fit. rewrite HA, HD. auto.
Qed.

Lemma refresh_fitting (sr : float) (j : Z) op :
  countable sr (In op) -> SampleRate op = sr ->
  Int32.in_range j -> INDEX_NONE <= j ->
  fitting sr (In op)
    (set_EnvelopeState
       (FEnvelopeState.set_CurrentSampleIndex j (EnvelopeState (UpdateParams op)))
       (UpdateParams op)).
Proof.
  intros Hc Hsr Hj Hlo. rewrite <- Hsr in Hc. destruct Hc as (HA & HD & Hsum).
  split; [reflexivity|]. split; [exact Hsr|]. split; [|exact Hlo].
  unfold FEnvelopeState.counts_fit.
  cbn [EnvelopeState set_EnvelopeState UpdateParams
       FEnvelopeState.CurrentSampleIndex FEnvelopeState.AttackSampleCount
       FEnvelopeState.DecaySampleCount FEnvelopeState.set_CurrentSampleIndex
       FEnvelopeState.set_AttackSampleCount FEnvelopeState.set_DecaySampleCount
       FEnvelopeState.set_AttackCurveFactor FEnvelopeState.set_DecayCurveFactor].
  split; [exact Hj|].
  unfold Int32.in_range, Int32.min_int, Int32.max_int in *. lia.
Qed.

Lemma OnTriggerLambda_fitting (sr : float) (i : Inputs) (StartFrame EndFrame : Z) op :
  countable sr i ->
  fitting sr i op -> fitting sr i (OnTriggerLambda Pow StartFrame EndFrame op).
Proof.
  intros Hc (HIn & Hsr & _ & _).
  rewrite OnTriggerLambda_unfold. cbn zeta.
  assert (Hr : fitting sr i (ResetForTrigger op)).
  { rewrite <- HIn in Hc |- *.
    assert (H0 : Int32.in_range 0)
      by (unfold Int32.in_range, Int32.min_int, Int32.max_int; lia).
    assert (H1 : INDEX_NONE <= 0) by (unfold INDEX_NONE; lia).
    destruct (refresh_fitting sr 0 op Hc Hsr H0 H1) as (_ & _ & Hfit & Hlo).
    split; [reflexivity|]. split; [exact Hsr|]. split; [exact Hfit|exact Hlo]. }
  apply (AdvanceAndForward_fitting sr i StartFrame EndFrame) in Hr.
  exact Hr.
Qed.

Lemma DispatchTriggers_fitting (sr : float) op :
  countable sr (In op) -> SampleRate op = sr ->
  Int32.in_range (FEnvelopeState.CurrentSampleIndex (EnvelopeState op)) ->
  INDEX_NONE <= FEnvelopeState.CurrentSampleIndex (EnvelopeState op) ->
  fitting sr (In op) (DispatchTriggers Pow op).
Proof.
  intros Hc Hsr Hi Hlo. unfold DispatchTriggers.
  apply (ExecuteBlock_invariant (fitting sr (In op))).
  - intros a b s. apply AdvanceAndForward_fitting.
  - intros a b s. apply OnTriggerLambda_fitting. exact Hc.
  - destruct (refresh_fitting sr _ op Hc Hsr Hi Hlo) as (_ & _ & Hfit & Hlo').
    split; [reflexivity|]. split; [exact Hsr|]. split; [exact Hfit|exact Hlo'].
Qed.

Lemma Execute_index_fit (sr : float) op :
  countable sr (In op) ->
  SampleRate op = sr
  /\ Int32.in_range (FEnvelopeState.CurrentSampleIndex (EnvelopeState op))
  /\ INDEX_NONE <= FEnvelopeState.CurrentSampleIndex (EnvelopeState op) ->
  SampleRate (Execute Pow op) = sr
  /\ Int32.in_range (FEnvelopeState.CurrentSampleIndex (EnvelopeState (Execute Pow op)))
  /\ INDEX_NONE <= FEnvelopeState.CurrentSampleIndex (EnvelopeState (Execute Pow op)).
Proof.
  intros Hc (Hsr & Hi & Hlo).
  destruct (Mode (In op)) eqn:HM.
  - unfold Execute. rewrite HM.
    destruct (RunFilter_frame (AudioInput (In (HandleLowPassFilter op)))
                (HandleLowPassFilter op)) as (_ & _ & _ & _ & -> & _ & -> & _).
    destruct (HandleLowPassFilter_frame op) as (_ & _ & _ & _ & _ & -> & _ & ->).
    auto.
  - assert (Hne : Mode (In op) <> LowPass) by (rewrite HM; discriminate).
    destruct (Execute_dispatch Pow op Hne) as (-> & _ & _ & _ & ->).
    destruct (DispatchTriggers_fitting sr op Hc Hsr Hi Hlo) as (_ & _ & (Hi' & _) & Hlo').
    auto.
  - assert (Hne : Mode (In op) <> LowPass) by (rewrite HM; discriminate).
    destruct (Execute_dispatch Pow op Hne) as (-> & _ & _ & _ & ->).
    destruct (DispatchTriggers_fitting sr op Hc Hsr Hi Hlo) as (_ & _ & (Hi' & _) & Hlo').
    auto.
Qed.

Lemma Blocks_index_fit (sr : float) (l : list Inputs) op :
  Forall (countable sr) l ->
  SampleRate op = sr
  /\ Int32.in_range (FEnvelopeState.CurrentSampleIndex (EnvelopeState op))
  /\ INDEX_NONE <= FEnvelopeState.CurrentSampleIndex (EnvelopeState op) ->
  SampleRate (Blocks Pow op l) = sr
  /\ Int32.in_range (FEnvelopeState.CurrentSampleIndex (EnvelopeState (Blocks Pow op l)))
  /\ INDEX_NONE <= FEnvelopeState.CurrentSampleIndex (EnvelopeState (Blocks Pow op l)).
Proof.
  revert op. induction l as [|i l IH]; intros op Hl Hinv; [exact Hinv|].
  apply Forall_cons in Hl. destruct Hl as [Hi Hl].
  cbn [Blocks foldl]. apply IH; [exact Hl|]. unfold Block.
  apply Execute_index_fit; [exact Hi|exact Hinv].
Qed.

(** X2. Within defined behaviour the sample index never overflows. A call
    of the engine on a state whose index, counts and sum of counts are
    [int32] values, the index at least [INDEX_NONE], leaves the index
    unchanged, sets it to [INDEX_NONE] or adds exactly 1 to it, and the
    result is an [int32] of at least [INDEX_NONE]. In every operator
    reached from its construction by blocks whose inputs give sample
    counts of at least 1 with a sum within [int32], the index lies
    between [INDEX_NONE] and the largest [int32]. *)
Theorem X2_index_never_overflows :
  (forall (st : FEnvelopeState.t) (StartFrame EndFrame : Z) (Fin : list Z),
      FEnvelopeState.counts_fit st ->
      INDEX_NONE <= FEnvelopeState.CurrentSampleIndex st ->
      let st' := (Envelope.GetNextEnvelopeOutput Pow st StartFrame EndFrame Fin).1.1 in
      Int32.in_range (FEnvelopeState.CurrentSampleIndex st')
      /\ INDEX_NONE <= FEnvelopeState.CurrentSampleIndex st'
      /\ (FEnvelopeState.CurrentSampleIndex st' = INDEX_NONE
          \/ FEnvelopeState.CurrentSampleIndex st' = FEnvelopeState.CurrentSampleIndex st
          \/ FEnvelopeState.CurrentSampleIndex st'
             = FEnvelopeState.CurrentSampleIndex st + 1))
  /\ (forall (InSampleRate : float) (InNumFramesPerBlock : Z) (i0 : Inputs)
             (l : list Inputs),
        Forall (countable InSampleRate) l ->
        let op := Blocks Pow (Construct InSampleRate InNumFramesPerBlock i0) l in
        INDEX_NONE <= FEnvelopeState.CurrentSampleIndex (EnvelopeState op)
          <= Int32.max_int).
Proof.
  split; [exact advance_index_fit|].
  intros sr N i0 l Hl op.
  destruct (Blocks_index_fit sr l (Construct sr N i0) Hl) as (_ & Hi & Hlo).
  { split; [reflexivity|].
    unfold Int32.in_range, Int32.min_int, Int32.max_int.
    cbn [EnvelopeState Construct FEnvelopeState.CurrentSampleIndex
         FEnvelopeState.set_EnvelopeEase FEnvelopeState.Default].
    unfold INDEX_NONE. lia. }
  fold op in Hi, Hlo. unfold Int32.in_range in Hi. lia.
Qed.

End IndexInvariant.

(** ** The refresh at the edges of its inputs *)

Section RefreshEdges.

Variable Pow : float -> float -> float.
Context {Filter : Type} `{!StateVariableFilter Filter}.

Import FLowPassGateOperator.

Implicit Types op : t Filter.

(** X4. A time of zero or below gives one sample. With a well-formed,
    finite sample rate above 0, an attack time that is zero, negative or
    minus infinity is refreshed to an attack count of exactly 1, an
    instant attack, and likewise a decay time to a decay count of 1. *)
Theorem X4_nonpositive_time_is_one_sample op :
  F32.valid (SampleRate op) = true ->
  F32.is_finite (SampleRate op) = true ->
  F32.ltb F32.zero (SampleRate op) = true ->
  (F32.valid (AttackTime (In op)) = true ->
   F32.leb (AttackTime (In op)) F32.zero = true ->
   FEnvelopeState.AttackSampleCount (EnvelopeState (UpdateParams op)) = 1)
  /\ (F32.valid (DecayTime (In op)) = true ->
      F32.leb (DecayTime (In op)) F32.zero = true ->
      FEnvelopeState.DecaySampleCount (EnvelopeState (UpdateParams op)) = 1).
Proof.
  intros Hv Hf Hp.
  assert (Hone : forall Seconds, F32.valid Seconds = true ->
            F32.leb Seconds F32.zero = true ->
            F32.to_int32 (FMath.Max F32.one (F32.mul (SampleRate op) Seconds)) = 1).
  { intros Seconds Hvs Hs. unfold FMath.Max.
    rewrite (F32Sign.mul_nonpositive_below_one _ _ Hv Hf Hp Hvs Hs). reflexivity. }
  split; intros Hvt Ht; cbn; apply Hone; assumption.
Qed.

End RefreshEdges.

(** ** The filter cache at the edges of its inputs *)

Section FilterCache.

Variable Pow : float -> float -> float.
Context {Filter : Type} `{!StateVariableFilter Filter}.

Import FLowPassGateOperator.

Implicit Types op : t Filter.

(** X11. The frequency handed to the filter lies between 0 and half the
    sample rate, whatever the cut off. When half the sample rate is at
    least 0, the clamped cut off is at least 0, at most half the sample
    rate and not a NaN, also for a cut off that is infinite or a NaN; a
    NaN cut off is clamped to half the sample rate itself; and a call
    either changes nothing or caches that clamped value and gives it to
    the filter with a resonance and a band stop control of 0. *)
Theorem X11_committed_frequency_within_range op :
  F32.leb F32.zero (F32.mul F32.half (SampleRate op)) = true ->
  let Nyquist := F32.mul F32.half (SampleRate op) in
  let f := FMath.Clamp (CutOffFrequency (In op)) F32.zero Nyquist in
  (F32.leb F32.zero f = true /\ F32.leb f Nyquist = true /\ F32.is_nan f = false)
  /\ (CutOffFrequency (In op) = S754_nan -> F32.ltb F32.zero Nyquist = true -> f = Nyquist)
  /\ (HandleLowPassFilter op = op
      \/ (PreviousFrequency (HandleLowPassFilter op) = f
          /\ VariableFilter (HandleLowPassFilter op)
             = Update (SetBandStopControl F32.zero
                         (SetFrequency f (SetQ F32.zero (VariableFilter op)))))).
Proof.
  intros Hle Nyquist f.
  destruct (F32Order.Clamp_between (CutOffFrequency (In op)) F32.zero Nyquist Hle)
    as [Hlo Hhi].
  fold f in Hlo, Hhi.
  split; [|split].
  - split; [exact Hlo|]. split; [exact Hhi|].
    apply (F32Order.leb_not_nan _ _ Hhi).
  - intros Hnan Hpos. subst f. rewrite Hnan. unfold FMath.Clamp, FMath.Min, FMath.Max.
    change (F32.ltb S754_nan Nyquist) with false. cbv iota. rewrite Hpos. reflexivity.
  - rewrite HandleLowPassFilter_cases.
    destruct (negb _ || negb _ || negb _); [right|left; reflexivity].
    split; reflexivity.
Qed.

(** X12. From 1/8 Hz on the cache comparison is exact. For a cached
    frequency and a clamped cut off that are well formed, finite and at
    least 0.125, being nearly equal is being equal: the tolerance of
    [IsNearlyEqual] is below the distance of any two such numbers. So a
    clamped cut off that differs at all from the cached frequency is
    committed. *)
Theorem X12_cache_comparison_is_exact op :
  let f := FMath.Clamp (CutOffFrequency (In op)) F32.zero (F32.mul F32.half (SampleRate op)) in
  let eighth := F32.div (F32.of_int 1) (F32.of_int 8) in
  F32.valid (PreviousFrequency op) = true ->
  F32.is_finite (PreviousFrequency op) = true ->
  F32.valid f = true ->
  F32.is_finite f = true ->
  F32.leb eighth (PreviousFrequency op) = true ->
  F32.leb eighth f = true ->
  (FMath.IsNearlyEqual (PreviousFrequency op) f = true <-> PreviousFrequency op = f)
  /\ (PreviousFrequency op <> f -> HandleLowPassFilter op = Commit op).
Proof.
  intros f eighth Hvp Hfp Hvf Hff Hp Hf.
  assert (Hiff : FMath.IsNearlyEqual (PreviousFrequency op) f = true
                 <-> PreviousFrequency op = f).
  { split.
    - apply F32Order.nearly_equal_exact; assumption.
    - intros ->. apply F32Facts.IsNearlyEqual_refl. exact Hff. }
  split; [exact Hiff|].
  intros Hne. rewrite HandleLowPassFilter_cases. fold f.
  destruct (FMath.IsNearlyEqual (PreviousFrequency op) f) eqn:E.
  - exfalso. apply Hne, Hiff. reflexivity.
  - reflexivity.
Qed.

End FilterCache.

(** ** The cut off as a gate control *)

Section GateEdges.

Variable Pow : float -> float -> float.
Context {Filter : Type} `{!StateVariableFilter Filter}.

Import FLowPassGateOperator.

Implicit Types op : t Filter.

(** X17. The cut off as a gate control, at its ends. In Both mode every
    input sample is multiplied by the envelope output times the mapped
    cut off before it is filtered. A cut off at or below 0 is mapped to
    0, which shuts the gate; a well-formed cut off of 20000 or more is
    mapped to 1, so that the gain is the envelope output itself; and a
    NaN cut off is mapped to 1 as well. *)
Theorem X17_cutoff_control_at_its_ends op :
  Mode (In op) = Both ->
  let CutOff := CutOffFrequency (In op) in
  let Mapped := FMath.GetMappedRangeValueClamped
                  F32.zero (F32.of_int 20000) F32.zero F32.one CutOff in
  let env := OutEnvelope (DispatchTriggers Pow op) in
  Execute Pow op
  = RunFilter ((fun x => F32.mul x (F32.mul env Mapped)) <$> AudioInput (In op))
      (HandleLowPassFilter (DispatchTriggers Pow op))
  /\ (F32.leb CutOff F32.zero = true -> Mapped = F32.zero)
  /\ (F32.valid CutOff = true -> F32.leb (F32.of_int 20000) CutOff = true ->
      Mapped = F32.one
      /\ (F32.valid env = true -> F32.is_finite env = true -> F32.mul env Mapped = env))
  /\ (CutOff = S754_nan -> Mapped = F32.one).
Proof.
  intros HM CutOff Mapped env.
  assert (HMap : Mapped =
                 FMath.Lerp F32.zero F32.one
                   (FMath.Clamp (F32.div (F32.sub CutOff F32.zero) (F32.of_int 20000))
                      F32.zero F32.one)) by reflexivity.
  split; [|split; [|split]].
  - pose proof (DispatchTriggers_frame Pow op) as Hfr.
    unfold dispatch_frame in Hfr. injection Hfr as HIn _ _ _ _ _ _ _ _ _ _.
    unfold Execute. rewrite HM, HIn. fold CutOff Mapped env.
    rewrite ScaleInto_fmap by apply length_replicate. reflexivity.
  - intros Hle. rewrite HMap.
    destruct (F32Quotient.fraction_nonpositive CutOff Hle) as [H0 H1].
    unfold FMath.Clamp, FMath.Min, FMath.Max. rewrite H1, H0. reflexivity.
  - intros Hv Hle.
    assert (H1 : Mapped = F32.one).
    { rewrite HMap.
      destruct (F32Quotient.fraction_at_least_one CutOff Hv Hle) as [H1 _].
      unfold FMath.Clamp, FMath.Min, FMath.Max. rewrite H1. reflexivity. }
    split; [exact H1|]. intros Hve Hfe. rewrite H1.
    apply RoundingFacts.SFmul_one_r; assumption.
  - intros Hnan. rewrite HMap, Hnan. reflexivity.
Qed.

End GateEdges.

(** ** The node interface *)

Section NodeFacts.

Context {Filter : Type} `{!StateVariableFilter Filter}.

Import Metasound FLowPassGateOperator FLowPassGateNode FLowPassGateNode.LowPassGate.

Implicit Types op : t Filter.

Ltac lookup_pin :=
  unfold GetInputs, GetOutputs, AddDataReadReference; cbv zeta;
  repeat (rewrite lookup_insert_ne by (intros ?; discriminate));
  rewrite lookup_insert_eq.

(** X14. The collections an operator publishes match the declared
    interface. [GetInputs] binds exactly the input pins that
    [GetVertexInterface] declares, each to a reference of the declared
    type, and [GetOutputs] exactly the declared output pins; no two
    input pins and no two output pins share a name, so no binding
    replaces another; and the four output pins are bound to the
    operator's attack trigger, done trigger, envelope output and audio
    output. *)
Theorem X14_collections_match_the_interface op :
  TypesOf (GetInputs op) = Declared (InputInterface GetVertexInterface)
  /\ TypesOf (GetOutputs op) = Declared (OutputInterface GetVertexInterface)
  /\ NoDup (VertexName <$> InputInterface GetVertexInterface)
  /\ NoDup (VertexName <$> OutputInterface GetVertexInterface)
  /\ GetOutputs op !! OutputTrigger = Some (TriggerRef (OnAttackTrigger op))
  /\ GetOutputs op !! OutputOnDone = Some (TriggerRef (OnDone op))
  /\ GetOutputs op !! OutputEnvelope = Some (FloatRef (OutEnvelope op))
  /\ GetOutputs op !! OutputAudio = Some (AudioRef (AudioOutput op)).
Proof.
  split; [|split; [|split; [|split]]].
  - unfold TypesOf, GetInputs, AddDataReadReference, Declared.
    cbv zeta. rewrite !fmap_insert, fmap_empty. reflexivity.
  - unfold TypesOf, GetOutputs, AddDataReadReference, Declared.
    cbv zeta. rewrite !fmap_insert, fmap_empty. reflexivity.
  - apply (bool_decide_unpack _). vm_compute. exact I.
  - apply (bool_decide_unpack _). vm_compute. exact I.
  - repeat split; lookup_pin; reflexivity.
Qed.

Lemma GetInputs_lookup op :
  GetInputs op !! InputTrigger = Some (TriggerRef (TriggerAttackIn (In op)))
  /\ GetInputs op !! InputAttackTime = Some (TimeRef (AttackTime (In op)))
  /\ GetInputs op !! InputDecayTime = Some (TimeRef (DecayTime (In op)))
  /\ GetInputs op !! InputAttackCurve = Some (FloatRef (AttackCurveFactor (In op)))
  /\ GetInputs op !! InputDecayCurve = Some (FloatRef (DecayCurveFactor (In op)))
  /\ GetInputs op !! InputAudio = Some (AudioRef (AudioInput (In op)))
  /\ GetInputs op !! InputCutOff = Some (FloatRef (CutOffFrequency (In op)))
  /\ GetInputs op !! InputMode = Some (ModeRef (Mode (In op))).
Proof. repeat split; lookup_pin; reflexivity. Qed.

Ltac input_pin Hv :=
  cbn [InputInterface GetVertexInterface] in Hv;
  repeat (apply elem_of_cons in Hv; destruct Hv as [->|Hv]);
  [..|apply elem_of_nil in Hv; contradiction];
  cbn [VertexName VertexType] in *; lookup_pin;
  unfold CreateOperator;
  cbn [In Construct TriggerAttackIn AttackTime DecayTime AttackCurveFactor
       DecayCurveFactor AudioInput CutOffFrequency Mode].

Lemma CreateOperator_bound (s : FOperatorSettings) (refs : FDataReferenceCollection)
    (v : Vertex) (r : DataRef) :
  v ∈ InputInterface GetVertexInterface ->
  refs !! VertexName v = Some r ->
  TypeOf r = VertexType v ->
  GetInputs (CreateOperator s refs) !! VertexName v = Some r.
Proof.
  intros Hv Hr Ht.
  input_pin Hv; rewrite Hr; destruct r; try discriminate Ht; reflexivity.
Qed.

Lemma CreateOperator_unbound (s : FOperatorSettings) (refs : FDataReferenceCollection)
    (v : Vertex) :
  v ∈ InputInterface GetVertexInterface ->
  (forall r, refs !! VertexName v = Some r -> TypeOf r <> VertexType v) ->
  GetInputs (CreateOperator s refs) !! VertexName v = Some (NewReference s v).
Proof.
  intros Hv Hr.
  input_pin Hv;
    (destruct (refs !! _) as [r|] eqn:E; [|reflexivity]);
    destruct r; try reflexivity; exfalso; apply (Hr _ eq_refl); reflexivity.
Qed.

Lemma CreateOperator_round_trip (s : FOperatorSettings) op :
  In (CreateOperator s (GetInputs op)) = In op.
Proof.
  unfold CreateOperator. cbn [In Construct].
  destruct (GetInputs_lookup op) as (-> & -> & -> & -> & -> & -> & -> & ->).
  destruct (In op); reflexivity.
Qed.

(** X15. [CreateOperator] takes over the inputs that are bound. An input
    pin that the given collection binds to a reference of the pin's type
    is bound to that very reference in the created operator; so an
    operator created from the input collection of another has the same
    inputs, and publishes the same input collection. *)
Theorem X15_create_operator_takes_the_bound_inputs
    (s : FOperatorSettings) (refs : FDataReferenceCollection) :
  (forall (v : Vertex) (r : DataRef),
      v ∈ InputInterface GetVertexInterface ->
      refs !! VertexName v = Some r ->
      TypeOf r = VertexType v ->
      GetInputs (CreateOperator s refs) !! VertexName v = Some r)
  /\ (forall op, In (CreateOperator s (GetInputs op)) = In op)
  /\ (forall op, GetInputs (CreateOperator s (GetInputs op)) = GetInputs op).
Proof.
  split; [|split].
  - intros v r. apply CreateOperator_bound.
  - intros op. apply CreateOperator_round_trip.
  - intros op. unfold GetInputs at 1. rewrite CreateOperator_round_trip. reflexivity.
Qed.

(** X16. [CreateOperator] gives an unbound input its default. An input
    pin that the collection does not bind, or binds to a reference of
    another type, gets a new reference: an empty trigger, a silent
    buffer of one block, the mode [LowPass], or the pin's default
    literal. From the empty collection the inputs are an attack of 0.01 s,
    a decay of 1 s, curves of 1.0 and a cut off of 1000. A binding under
    a name that is no input pin makes no difference. *)
Theorem X16_unbound_inputs_take_the_pin_defaults
    (s : FOperatorSettings) (refs : FDataReferenceCollection) :
  (forall v : Vertex,
      v ∈ InputInterface GetVertexInterface ->
      (forall r, refs !! VertexName v = Some r -> TypeOf r <> VertexType v) ->
      GetInputs (CreateOperator s refs) !! VertexName v = Some (NewReference s v))
  /\ In (CreateOperator s ∅)
     = BuildInputs (FTrigger.Empty (GetNumFramesPerBlock s))
                   (F32.div (F32.of_int 1) (F32.of_int 100)) F32.one F32.one F32.one
                   (replicate (Z.to_nat (GetNumFramesPerBlock s)) F32.zero)
                   (F32.of_int 1000) LowPass
  /\ (forall (InName : string) (r : DataRef),
        InName ∉ VertexName <$> InputInterface GetVertexInterface ->
        CreateOperator s (<[InName := r]> refs) = CreateOperator s refs).
Proof.
  split; [|split].
  - intros v. apply CreateOperator_unbound.
  - reflexivity.
  - intros InName r Hn. unfold CreateOperator.
    cbn [InputInterface GetVertexInterface fmap list_fmap VertexName] in Hn.
    repeat (apply not_elem_of_cons in Hn; destruct Hn as [? Hn]).
    rewrite !lookup_insert_ne by (intros ?; congruence). reflexivity.
Qed.

End NodeFacts.

(** ** The block of a trigger *)

Section TriggerBlock.

Variable Pow : float -> float -> float.
Context {Filter : Type} `{!StateVariableFilter Filter}.

Import FLowPassGateOperator.

Implicit Types op : t Filter.

Lemma trigger_block_state op :
  let es := EnvelopeState (ResetForTrigger (BlockStart op)) in
  FEnvelopeState.CurrentSampleIndex es = 0
  /\ FEnvelopeState.AttackSampleCount es
     = FEnvelopeState.AttackSampleCount (EnvelopeState (UpdateParams op))
  /\ FEnvelopeState.AttackCurveFactor es
     = FMath.Max FMath.KINDA_SMALL_NUMBER (AttackCurveFactor (In op))
  /\ FEnvelopeState.StartingEnvelopeValue es
     = (if FEnvelopeState.bHardReset (EnvelopeState op) then F32.zero
        else FEnvelopeState.CurrentEnvelopeValue (EnvelopeState op)).
Proof. cbn. auto. Qed.

Lemma zero_attack :
  F32.add F32.zero (F32.mul (F32.sub F32.one F32.zero) F32.zero) = F32.zero.
Proof. vm_compute. reflexivity. Qed.

Lemma Dispatch_state (IsTrigger : bool) (StartFrame EndFrame : Z) op :
  EnvelopeState (FTrigger.Dispatch (PreTriggerLambda Pow) (OnTriggerLambda Pow)
                   (IsTrigger, StartFrame, EndFrame) op)
  = (Envelope.GetNextEnvelopeOutput Pow (SubRangeStart IsTrigger op)
       StartFrame EndFrame []).1.1.
Proof.
  unfold FTrigger.Dispatch, SubRangeStart. destruct IsTrigger.
  - rewrite OnTriggerLambda_unfold. cbn zeta.
    change (EnvelopeState (set_OnAttackTrigger ?a ?o)) with (EnvelopeState o).
    apply AdvanceAndForward_output.
  - apply AdvanceAndForward_output.
Qed.

Lemma SubRanges_at_zero (tr : FTrigger.t) :
  0 < FTrigger.NumFramesPerBlock tr ->
  FTrigger.FramesInBlock tr = [0] ->
  FTrigger.SubRanges tr = [(true, 0, FTrigger.NumFramesPerBlock tr)].
Proof.
  intros HN Hf. unfold FTrigger.SubRanges.
  destruct (_ <=? 0) eqn:E; [apply Z.leb_le in E; lia|]. rewrite Hf. reflexivity.
Qed.

Lemma trigger_block_dispatch op :
  0 < FTrigger.NumFramesPerBlock (TriggerAttackIn (In op)) ->
  FTrigger.FramesInBlock (TriggerAttackIn (In op)) = [0] ->
  let r := Envelope.GetNextEnvelopeOutput Pow
             (EnvelopeState (ResetForTrigger (BlockStart op))) 0
             (FTrigger.NumFramesPerBlock (TriggerAttackIn (In op))) [] in
  OutEnvelope (DispatchTriggers Pow op) = r.2
  /\ EnvelopeState (DispatchTriggers Pow op) = r.1.1.
Proof.
  intros HN Hf r. subst r.
  rewrite DispatchTriggers_fold, SubRanges_at_zero by assumption.
  cbn [foldl]. split; [apply Dispatch_output|apply Dispatch_state].
Qed.

Lemma Execute_VCA_samples op (g : float) :
  Mode (In op) = VCA ->
  (length (AudioInput (In op)) <= length (AudioOutput op))%nat ->
  OutEnvelope (DispatchTriggers Pow op) = g ->
  OutEnvelope (Execute Pow op) = g
  /\ EnvelopeState (Execute Pow op) = EnvelopeState (DispatchTriggers Pow op)
  /\ forall (k : nat) (x : float),
       AudioInput (In op) !! k = Some x ->
       AudioOutput (Execute Pow op) !! k = Some (F32.mul x g).
Proof.
  intros HM Hlen Hg. rewrite (Execute_VCA Pow op HM), Hg.
  cbn [OutEnvelope EnvelopeState AudioOutput set_AudioOutput].
  split; [exact Hg|]. split; [reflexivity|].
  intros k x Hx. rewrite ScaleInto_lookup by exact Hlen.
  destruct (decide _) as [Hk|Hk]; [rewrite Hx; reflexivity|].
  apply lookup_lt_Some in Hx. lia.
Qed.

Lemma trigger_block_instant op :
  0 < FTrigger.NumFramesPerBlock (TriggerAttackIn (In op)) ->
  FTrigger.FramesInBlock (TriggerAttackIn (In op)) = [0] ->
  FEnvelopeState.AttackSampleCount (EnvelopeState (UpdateParams op)) = 1 ->
  OutEnvelope (DispatchTriggers Pow op) = F32.one
  /\ FEnvelopeState.CurrentSampleIndex (EnvelopeState (DispatchTriggers Pow op)) = 1.
Proof.
  intros HN Hf HA1.
  destruct (trigger_block_state op) as (Hidx & HA & HC & HS).
  destruct (trigger_block_dispatch op HN Hf) as [Hout Hes].
  rewrite Hout, Hes.
  rewrite advance_instant.
  - cbn [fst snd FEnvelopeState.CurrentSampleIndex FEnvelopeState.set_CurrentSampleIndex].
    rewrite Hidx. split; reflexivity.
  - rewrite Hidx. discriminate.
  - rewrite Hidx, HA, HA1. lia.
  - rewrite HA, HA1. lia.
Qed.

Lemma trigger_block_attack op :
  0 < FTrigger.NumFramesPerBlock (TriggerAttackIn (In op)) ->
  FTrigger.FramesInBlock (TriggerAttackIn (In op)) = [0] ->
  FEnvelopeState.CurrentEnvelopeValue (EnvelopeState op) = F32.zero ->
  1 < FEnvelopeState.AttackSampleCount (EnvelopeState (UpdateParams op)) ->
  (forall y, F32.ltb F32.zero y = true -> Pow F32.zero y = F32.zero) ->
  F32.is_nan (AttackCurveFactor (In op)) = false ->
  OutEnvelope (DispatchTriggers Pow op) = F32.zero
  /\ FEnvelopeState.CurrentSampleIndex (EnvelopeState (DispatchTriggers Pow op)) = 1.
Proof.
  intros HN Hf Hcur HA1 HPow Hnan.
  destruct (trigger_block_state op) as (Hidx & HA & HC & HS).
  destruct (trigger_block_dispatch op HN Hf) as [Hout Hes].
  rewrite Hout, Hes.
  rewrite advance_attack.
  - cbn [fst snd FEnvelopeState.CurrentSampleIndex FEnvelopeState.set_CurrentSampleIndex].
    rewrite Hidx, HA, HC, HS, Hcur.
    rewrite F32Arith.zero_fraction.
    + rewrite HPow by (apply F32Arith.Max_epsilon_positive; exact Hnan).
      split; [|reflexivity].
      destruct (FEnvelopeState.bHardReset _); apply zero_attack.
    + destruct (UpdateParams_counts_range op) as [Hr _].
      unfold Int32.in_range in Hr. lia.
  - rewrite Hidx. discriminate.
  - rewrite Hidx, HA. lia.
  - rewrite HA. exact HA1.
Qed.

(** X18. The block of a trigger, in VCA mode. When the only trigger of
    the block is at frame 0 and the retrigger baseline is 0, as it is in
    every operator reached from its construction: with an attack count
    of 1 the envelope output of the block is 1.0, so that the block puts
    out its input, a well-formed finite sample unchanged; with a longer
    attack, a curve input that is not a NaN and a [Pow] that maps a zero
    base with a positive exponent to 0, the envelope output is 0 and the
    block puts out every sample times 0. In both cases the index is at 1
    after the block. *)
Theorem X18_trigger_block_of_a_vca op :
  Mode (In op) = VCA ->
  0 < FTrigger.NumFramesPerBlock (TriggerAttackIn (In op)) ->
  FTrigger.FramesInBlock (TriggerAttackIn (In op)) = [0] ->
  FEnvelopeState.CurrentEnvelopeValue (EnvelopeState op) = F32.zero ->
  (length (AudioInput (In op)) <= length (AudioOutput op))%nat ->
  let A := FEnvelopeState.AttackSampleCount (EnvelopeState (UpdateParams op)) in
  (A = 1 ->
   OutEnvelope (Execute Pow op) = F32.one
   /\ FEnvelopeState.CurrentSampleIndex (EnvelopeState (Execute Pow op)) = 1
   /\ forall (k : nat) (x : float),
        AudioInput (In op) !! k = Some x ->
        AudioOutput (Execute Pow op) !! k = Some (F32.mul x F32.one)
        /\ (F32.valid x = true -> F32.is_finite x = true -> F32.mul x F32.one = x))
  /\ (1 < A ->
      (forall y, F32.ltb F32.zero y = true -> Pow F32.zero y = F32.zero) ->
      F32.is_nan (AttackCurveFactor (In op)) = false ->
      OutEnvelope (Execute Pow op) = F32.zero
      /\ FEnvelopeState.CurrentSampleIndex (EnvelopeState (Execute Pow op)) = 1
      /\ forall (k : nat) (x : float),
           AudioInput (In op) !! k = Some x ->
           AudioOutput (Execute Pow op) !! k = Some (F32.mul x F32.zero)).
Proof.
  intros HM HN Hf Hcur Hlen A.
  split.
  - intros HA1.
    destruct (trigger_block_instant op HN Hf HA1) as [Hout Hidx].
    destruct (Execute_VCA_samples op F32.one HM Hlen Hout) as (H1 & H2 & H3).
    split; [exact H1|]. split; [rewrite H2; exact Hidx|].
    intros k x Hx. split; [apply (H3 k x Hx)|].
    intros Hv Hxf. apply RoundingFacts.SFmul_one_r; assumption.
  - intros HA1 HPow Hnan.
    destruct (trigger_block_attack op HN Hf Hcur HA1 HPow Hnan) as [Hout Hidx].
    destruct (Execute_VCA_samples op F32.zero HM Hlen Hout) as (H1 & H2 & H3).
    split; [exact H1|]. split; [rewrite H2; exact Hidx|exact H3].
Qed.

End TriggerBlock.

(** ** State that nothing reads *)

Section DeadState.

Variable Pow : float -> float -> float.
Context {Filter : Type} `{!StateVariableFilter Filter}.

Import FLowPassGateOperator.

Implicit Types op : t Filter.

Lemma forget_idem op : forget (forget op) = forget op.
Proof. reflexivity. Qed.

Lemma advance_forget (st : FEnvelopeState.t) (StartFrame EndFrame : Z) (Fin : list Z) :
  Envelope.GetNextEnvelopeOutput Pow (forget_state st) StartFrame EndFrame Fin
  = let r := Envelope.GetNextEnvelopeOutput Pow st StartFrame EndFrame Fin in
    (forget_state r.1.1, r.1.2, r.2).
Proof.
  unfold Envelope.GetNextEnvelopeOutput.
  cbn [forget_state FEnvelopeState.CurrentSampleIndex FEnvelopeState.AttackSampleCount
       FEnvelopeState.DecaySampleCount FEnvelopeState.AttackCurveFactor
       FEnvelopeState.DecayCurveFactor FEnvelopeState.StartingEnvelopeValue].
  repeat match goal with
         | |- context [if ?c then _ else _] => destruct c
         end; reflexivity.
Qed.

Lemma UpdateParams_forget op : forget (UpdateParams op) = forget (UpdateParams (forget op)).
Proof. reflexivity. Qed.

Lemma forget_congruence (f : t Filter -> t Filter) :
  (forall op, forget (f op) = forget (f (forget op))) ->
  forall op1 op2, forget op1 = forget op2 -> forget (f op1) = forget (f op2).
Proof. intros Hf op1 op2 H. rewrite (Hf op1), (Hf op2), H. reflexivity. Qed.

Lemma forget_done (fin : list Z) op :
  forget (foldl (fun o FrameFinished =>
                   set_OnDone (FTrigger.TriggerFrame FrameFinished (OnDone o)) o) op fin)
  = foldl (fun o FrameFinished =>
             set_OnDone (FTrigger.TriggerFrame FrameFinished (OnDone o)) o) (forget op) fin.
Proof.
  revert op. induction fin as [|f fin IH]; intros op; [reflexivity|].
  cbn [foldl]. rewrite IH. reflexivity.
Qed.

Lemma AdvanceAndForward_forget (StartFrame EndFrame : Z) op :
  forget (AdvanceAndForward Pow StartFrame EndFrame op)
  = forget (AdvanceAndForward Pow StartFrame EndFrame (forget op)).
Proof.
  unfold AdvanceAndForward.
  change (EnvelopeState (forget op)) with (forget_state (EnvelopeState op)).
  rewrite advance_forget.
  destruct (Envelope.GetNextEnvelopeOutput Pow (EnvelopeState op) StartFrame EndFrame [])
    as [[es fin] env].
  cbn [fst snd]. rewrite !forget_done. reflexivity.
Qed.

Lemma ResetForTrigger_forget op :
  forget (ResetForTrigger op) = forget (ResetForTrigger (forget op)).
Proof. reflexivity. Qed.

Lemma OnTriggerLambda_forget (StartFrame EndFrame : Z) op :
  forget (OnTriggerLambda Pow StartFrame EndFrame op)
  = forget (OnTriggerLambda Pow StartFrame EndFrame (forget op)).
Proof.
  rewrite !OnTriggerLambda_unfold. cbn zeta.
  pose proof (forget_congruence _ (AdvanceAndForward_forget StartFrame EndFrame)
                _ _ (ResetForTrigger_forget op)) as H.
  destruct (AdvanceAndForward_output Pow StartFrame EndFrame (ResetForTrigger op))
    as (_ & _ & ->).
  destruct (AdvanceAndForward_output Pow StartFrame EndFrame (ResetForTrigger (forget op)))
    as (_ & _ & ->).
  change (OnAttackTrigger (ResetForTrigger (forget op)))
    with (OnAttackTrigger (ResetForTrigger op)).
  change (forget (set_OnAttackTrigger ?a ?o)) with (set_OnAttackTrigger a (forget o)).
  rewrite H. reflexivity.
Qed.

Lemma foldl_forget {R : Type} (g : t Filter -> R -> t Filter) :
  (forall r op, forget (g op r) = forget (g (forget op) r)) ->
  forall (l : list R) op, forget (foldl g op l) = forget (foldl g (forget op) l).
Proof.
  intros Hg l. induction l as [|r l IH]; intros op; [reflexivity|].
  cbn [foldl]. rewrite IH, Hg, <- IH. reflexivity.
Qed.

Lemma DispatchTriggers_forget op :
  forget (DispatchTriggers Pow op) = forget (DispatchTriggers Pow (forget op)).
Proof.
  rewrite !DispatchTriggers_fold.
  change (TriggerAttackIn (In (forget op))) with (TriggerAttackIn (In op)).
  rewrite foldl_forget.
  - reflexivity.
  - intros [[trig a] b] o. unfold FTrigger.Dispatch. destruct trig.
    + apply OnTriggerLambda_forget.
    + apply AdvanceAndForward_forget.
Qed.

Lemma HandleLowPassFilter_forget op :
  forget (HandleLowPassFilter op) = forget (HandleLowPassFilter (forget op)).
Proof.
  unfold HandleLowPassFilter.
  cbn [forget In SampleRate PreviousFrequency PreviousResonance PreviousBandStopControl
       set_EnvelopeState VariableFilter].
  match goal with |- context [if ?c then _ else _] => destruct c end; reflexivity.
Qed.

Lemma RunFilter_forget (Input : list float) op :
  forget (RunFilter Input op) = forget (RunFilter Input (forget op)).
Proof.
  unfold RunFilter.
  cbn [forget In AudioOutput VariableFilter set_EnvelopeState].
  destruct (ProcessAudio _ _ _ _) as [f out]. reflexivity.
Qed.

Lemma Execute_forget op : forget (Execute Pow op) = forget (Execute Pow (forget op)).
Proof.
  pose proof (DispatchTriggers_forget op) as HD.
  assert (HIn : forall o : t Filter, In (forget o) = In o) by reflexivity.
  unfold Execute. rewrite HIn.
  destruct (Mode (In op)).
  - destruct (HandleLowPassFilter_frame op) as (-> & _).
    destruct (HandleLowPassFilter_frame (forget op)) as (-> & _). rewrite HIn.
    rewrite RunFilter_forget, HandleLowPassFilter_forget, <- RunFilter_forget. reflexivity.
  - unfold CalculateEnvelope.
    change (forget (set_AudioOutput ?a ?o)) with (set_AudioOutput a (forget o)).
    pose proof (f_equal (fun o : t Filter => In o) HD) as H1. pose proof (f_equal (fun o : t Filter => OutEnvelope o) HD) as H2.
    pose proof (f_equal (fun o : t Filter => AudioOutput o) HD) as H3.
    cbn [forget In OutEnvelope AudioOutput set_EnvelopeState] in H1, H2, H3.
    rewrite H1, H2, H3, HD. reflexivity.
  - pose proof (f_equal (fun o : t Filter => In o) HD) as H1. pose proof (f_equal (fun o : t Filter => OutEnvelope o) HD) as H2.
    cbn [forget In OutEnvelope set_EnvelopeState] in H1, H2.
    rewrite H1, H2.
    rewrite RunFilter_forget, HandleLowPassFilter_forget, HD,
      <- HandleLowPassFilter_forget, <- RunFilter_forget.
    reflexivity.
Qed.

Lemma Blocks_forget (l : list Inputs) op1 op2 :
  forget op1 = forget op2 -> forget (Blocks Pow op1 l) = forget (Blocks Pow op2 l).
Proof.
  revert op1 op2. induction l as [|i l IH]; intros op1 op2 H; [exact H|].
  cbn [Blocks foldl]. apply IH. unfold Block.
  apply (forget_congruence _ Execute_forget).
  change (forget (set_In i ?o)) with (set_In i (forget o)). rewrite H. reflexivity.
Qed.

(** X19. The ease and the looping flag are dead state. Two operators
    that differ in nothing but the ease of their envelope and its looping
    flag stay so over any run of blocks, in any modes: they put out the
    same audio, the same envelope output and the same triggers, and hold
    the same filter and the same sample index. *)
Theorem X19_ease_and_looping_are_dead_state op1 op2 (l : list Inputs) :
  forget op1 = forget op2 ->
  let r1 := Blocks Pow op1 l in
  let r2 := Blocks Pow op2 l in
  forget r1 = forget r2
  /\ AudioOutput r1 = AudioOutput r2
  /\ OutEnvelope r1 = OutEnvelope r2
  /\ OnAttackTrigger r1 = OnAttackTrigger r2
  /\ OnDone r1 = OnDone r2
  /\ VariableFilter r1 = VariableFilter r2
  /\ FEnvelopeState.CurrentSampleIndex (EnvelopeState r1)
     = FEnvelopeState.CurrentSampleIndex (EnvelopeState r2).
Proof.
  intros H r1 r2.
  pose proof (Blocks_forget l op1 op2 H) as Hr. fold r1 r2 in Hr.
  split; [exact Hr|].
  split; [exact (f_equal (fun o : t Filter => AudioOutput o) Hr)|].
  split; [exact (f_equal (fun o : t Filter => OutEnvelope o) Hr)|].
  split; [exact (f_equal (fun o : t Filter => OnAttackTrigger o) Hr)|].
  split; [exact (f_equal (fun o : t Filter => OnDone o) Hr)|].
  split; [exact (f_equal (fun o : t Filter => VariableFilter o) Hr)|].
  exact (f_equal (fun o : t Filter => FEnvelopeState.CurrentSampleIndex (EnvelopeState o)) Hr).
Qed.

End DeadState.

(** ** The range of the envelope *)

Module F32Unit.

Import F32 Rounding RoundingFacts F32Arith F32Quotient.

(** A rounding of a magnitude below [2 ^ 0] is at most 1. *)
Lemma binary_round_aux_le_one (M E : Z) (l : location) :
  0 < M ->
  E <= Z.max (Zdigits2 M + E - 24) (-149) ->
  Zdigits2 M + E <= 0 ->
  F32.leb (binary_round_aux prec emax false M E l) F32.one = true.
Proof.
  intros HM Hpre Hk0.
  destruct (binary_round_aux_shape false M E l ltac:(lia)) as (m1 & Hm1 & ->).
  pose proof (Zdigits2_bounds M HM) as [HMlo HMhi].
  pose proof (Zdigits2_pos M HM) as Hd.
  set (d := Zdigits2 M) in *. set (k := d + E) in *.
  assert (Ht1 : target M E = Z.max (k - 24) (-149)) by (unfold target; fold d; lia).
  rewrite Ht1 in *. set (f := Z.max (k - 24) (-149)) in *.
  assert (Hsmall : forall g, g <= f + 1 -> (g <=? 104) = true)
    by (intros g Hg; apply Z.leb_le; lia).
  destruct (Z.le_gt_cases (-149) (k - 24)) as [Hnorm|Hsub].
  - assert (Hf : f = k - 24) by lia.
    assert (Hn : f - E = d - 24) by lia.
    assert (Hlo : 2 ^ 23 <= M / 2 ^ (f - E)).
    { apply div_pow2_lower; [lia|lia|].
      replace (f - E + 23) with (d - 1) by lia. assumption. }
    assert (Hhi : M / 2 ^ (f - E) < 2 ^ 24).
    { apply div_pow2_upper; [lia|lia|].
      replace (f - E + 24) with d by lia. assumption. }
    assert (Hcase : (2 ^ 23 <= m1 < 2 ^ 24) \/ m1 = 2 ^ 24) by lia.
    destruct Hcase as [Hin|Hcarry].
    + assert (Hd1 : Zdigits2 m1 = 24) by (apply Zdigits2_unique; [lia|exact Hin]).
      assert (Ht2 : target m1 f = f) by (unfold target; lia).
      rewrite Ht2. replace (f - f) with 0 by lia. rewrite Z.div_1_r.
      destruct m1 as [|p|p]; try (cbn in Hin; lia).
      rewrite Hsmall by lia. apply leb_finite. lia.
    + assert (Hd1 : Zdigits2 m1 = 25) by (subst m1; reflexivity).
      assert (Ht2 : target m1 f = f + 1) by (unfold target; lia).
      rewrite Ht2. replace (f + 1 - f) with 1 by lia. subst m1.
      change (2 ^ 24 / 2 ^ 1) with (Zpos 8388608).
      rewrite Hsmall by lia. apply leb_finite. lia.
  - assert (Hf : f = -149) by lia.
    assert (Hhi : M / 2 ^ (f - E) < 2 ^ 23).
    { apply div_pow2_upper; [lia|lia|].
      apply Z.lt_le_trans with (1 := HMhi). apply Z.pow_le_mono_r; lia. }
    assert (Hnn : 0 <= M / 2 ^ (f - E)) by (apply Z.div_pos; [lia|apply pow2_pos; lia]).
    assert (H1 : 0 <= m1 <= 2 ^ 23) by lia.
    destruct (Z.eq_dec m1 0) as [->|Hne].
    + rewrite Z.div_0_l by (apply Z.pow_nonzero; unfold target; lia). reflexivity.
    + assert (Hd1 : Zdigits2 m1 <= 24)
        by (apply Zdigits2_le; [lia|change (2 ^ 24) with (2 * 2 ^ 23); lia]).
      assert (Ht2 : target m1 f = f) by (unfold target; lia).
      rewrite Ht2. replace (f - f) with 0 by lia. rewrite Z.div_1_r.
      destruct m1 as [|p|p]; try lia.
      rewrite Hsmall by lia. apply leb_finite. lia.
Qed.

Lemma binary_round_le_one (m : positive) (e : Z) :
  Zdigits2 (Zpos m) + e <= 0 ->
  F32.leb (binary_round prec emax false m e) F32.one = true.
Proof.
  intros Hk. unfold binary_round. rewrite fexp_def.
  change (Z.pos (digits2_pos m)) with (Zdigits2 (Zpos m)).
  set (f := Z.max (Zdigits2 (Z.pos m) + e - 24) (-149)).
  destruct (shl_align_spec m e f) as [Hez Hmz].
  destruct (shl_align m e f) as [mz ez]. cbn [fst snd] in Hez, Hmz.
  assert (Hdig : Zdigits2 (Zpos mz) + ez = Zdigits2 (Zpos m) + e).
  { rewrite Hmz, Zdigits2_shift by lia. lia. }
  apply binary_round_aux_le_one; [lia| |lia].
  rewrite Hdig. fold f. lia.
Qed.

(** A rounding of a positive magnitude with the sign of +0 is +0 or a
    well-formed number above 0. *)
Lemma rounded_unit (k : Z) (r : float) :
  rounded false k r -> k <= 0 -> F32.leb r F32.one = true -> F32.unit_value r.
Proof.
  intros (Hv & Hshape & Hinf & _) Hk Hle.
  destruct Hshape as [->|[->|(m & e & -> & _)]].
  - left. reflexivity.
  - discriminate.
  - right. split; [exact Hv|]. split; [reflexivity|exact Hle].
Qed.

(** The quotient of a positive number by a larger one. *)
Lemma div_below (m1 m2 : positive) (e1 e2 : Z) :
  bounded F32.prec F32.emax m1 e1 = true ->
  bounded F32.prec F32.emax m2 e2 = true ->
  F32.ltb (S754_finite false m1 e1) (S754_finite false m2 e2) = true ->
  F32.unit_value (F32.div (S754_finite false m1 e1) (S754_finite false m2 e2)).
Proof.
  intros Hb1 Hb2 Hlt.
  pose proof (SFdiv_rounded false false m1 m2 e1 e2) as Hr. cbv zeta in Hr.
  cbn [xorb] in Hr.
  apply ltb_finite in Hlt.
  pose proof (valid_mantissa _ _ Hb1) as (Hm1 & He1 & Hn1).
  pose proof (valid_mantissa _ _ Hb2) as (Hm2 & He2 & Hn2).
  apply bounded_inv in Hb1, Hb2. destruct Hb1 as [Hc1 _], Hb2 as [Hc2 _].
  set (e' := Z.min (Z.max (Zdigits2 (Zpos m1) + e1 - (Zdigits2 (Zpos m2) + e2) - 24) (-149))
                   (e1 - e2)) in *.
  set (s := e1 - e2 - e') in *.
  set (q := Zpos m1 * 2 ^ s / Zpos m2) in *.
  assert (Hs : 0 <= s) by (unfold s, e'; lia).
  assert (He' : e' <= 0) by (unfold e'; lia).
  pose proof (pow2_pos s Hs) as Hp.
  assert (Hq0 : 0 <= q) by (apply Z.div_pos; lia).
  assert (Hval : Zpos m1 * 2 ^ s < Zpos m2 * 2 ^ (- e')).
  { replace (- e') with (s + (e2 - e1)) by (unfold s; lia).
    rewrite Z.pow_add_r by lia.
    assert (Zpos m1 < Zpos m2 * 2 ^ (e2 - e1)).
    { destruct Hlt as [He|[He Hm]].
      - assert (2 ^ 1 <= 2 ^ (e2 - e1)) by (apply Z.pow_le_mono_r; lia).
        assert (2 ^ 23 <= Zpos m2) by (apply Hn2; lia).
        change (2 ^ 24) with (2 ^ 23 * 2 ^ 1) in Hm1. nia.
      - replace (e2 - e1) with 0 by lia. change (2 ^ 0) with 1. lia. }
    nia. }
  assert (Hq : q < 2 ^ (- e')).
  { unfold q. apply Z.div_lt_upper_bound; [lia|]. lia. }
  assert (Hk : Zdigits2 q + e' <= 0).
  { destruct (Z.eq_dec q 0) as [->|Hne]; [cbn [Zdigits2]; lia|].
    pose proof (Zdigits2_le q (- e') ltac:(lia) Hq). lia. }
  apply (rounded_unit _ _ Hr Hk).
  unfold F32.div. cbn [SFdiv].
  destruct (SFdiv_core_binary_spec m1 m2 e1 e2) as [l Hcore].
  cbv zeta in Hcore. rewrite Hcore. fold e'. fold s. fold q.
  destruct (Z.eq_dec q 0) as [Hz|Hne].
  - assert (Hd1 : Zdigits2 (Zpos m1) <= 24) by lia.
    pose proof (Zdigits2_pos (Zpos m2) ltac:(lia)) as Hd2.
    assert (He1' : e' <= -1) by (unfold e'; lia).
    unfold F32.div in Hr. cbn [SFdiv] in Hr. rewrite Hcore in Hr.
    fold e' in Hr. fold s in Hr. fold q in Hr.
    rewrite Hz in Hr |- *. cbn [Zdigits2] in Hr.
    destruct Hr as (_ & Hshape & Hinf & _).
    destruct Hshape as [->|[Hi|(m & e & -> & Hex)]]; [reflexivity| |].
    + exfalso. apply Hinf; [lia|exact Hi].
    + apply leb_finite. lia.
  - apply binary_round_aux_le_one; [lia| |exact Hk].
    destruct (Z.le_gt_cases e' (-149)) as [Hlow|Hhigh]; [lia|].
    assert (Hdq : Zdigits2 (Z.pos m1) + s - Zdigits2 (Z.pos m2) <= Zdigits2 q).
    { unfold q. rewrite <- (Zdigits2_shift (Zpos m1) s) by lia.
      apply Zdigits2_div; lia. }
    unfold s, e' in *. lia.
Qed.

(** A positive integer below [2 ^ 24] converts without rounding. *)
Lemma of_int_exact (n : Z) :
  0 < n < 2 ^ 24 ->
  exists m, F32.of_int n = S754_finite false m (Zdigits2 n - 24)
            /\ Zpos m = n * 2 ^ (24 - Zdigits2 n)
            /\ bounded F32.prec F32.emax m (Zdigits2 n - 24) = true.
Proof.
  intros [H0 Hhi]. destruct n as [|p|p]; try lia.
  pose proof (Zdigits2_pos (Zpos p) ltac:(lia)) as Hd1.
  pose proof (Zdigits2_le (Zpos p) 24 ltac:(lia) Hhi) as Hd24.
  unfold F32.of_int. cbn [binary_normalize].
  unfold binary_round. rewrite fexp_def.
  change (Z.pos (digits2_pos p)) with (Zdigits2 (Zpos p)).
  set (d := Zdigits2 (Zpos p)) in *.
  replace (Z.max (d + 0 - 24) (-149)) with (d - 24) by lia.
  destruct (shl_align_spec p 0 (d - 24)) as [Hez Hmz].
  destruct (shl_align p 0 (d - 24)) as [mz ez]. cbn [fst snd] in Hez, Hmz.
  replace (Z.min 0 (d - 24)) with (d - 24) in Hez, Hmz by lia.
  replace (0 - (d - 24)) with (24 - d) in Hmz by lia.
  subst ez.
  assert (Hdz : Zdigits2 (Zpos mz) = 24).
  { rewrite Hmz, Zdigits2_shift by lia. fold d. lia. }
  assert (Hcan : Z.max (Zdigits2 (Zpos mz) + (d - 24) - 24) (-149) = d - 24) by lia.
  pose proof (shr_fexp_exact mz (d - 24) 0 ltac:(lia) Hcan) as Hx.
  change (2 ^ 0) with 1 in Hx. rewrite Z.mul_1_r, Z.sub_0_r in Hx.
  unfold binary_round_aux. rewrite Hx.
  cbn [shr_m loc_of_shr_record round_nearest_even]. rewrite Hx. cbn [shr_m].
  replace (d - 24 <=? F32.emax - F32.prec) with true
    by (symmetry; apply Z.leb_le; change (F32.emax - F32.prec) with 104; lia).
  exists mz. split; [reflexivity|]. split; [exact Hmz|].
  unfold bounded, canonical_mantissa. rewrite fexp_def.
  change (Z.pos (digits2_pos mz)) with (Zdigits2 (Zpos mz)).
  apply andb_true_intro.
  split; [apply Z.eqb_eq; lia|apply Z.leb_le; change (F32.emax - F32.prec) with 104; lia].
Qed.

(** The fraction of a count: an index below a count converts, together
    with the count, to a quotient that is +0 or above 0 and at most 1. *)
Lemma fraction_unit (i A : Z) :
  0 <= i < A -> A < 2 ^ 24 ->
  F32.unit_value (F32.div (F32.of_int i) (F32.of_int A)).
Proof.
  intros [Hi HiA] HA.
  destruct (Z.eq_dec i 0) as [->|Hne].
  { left. apply zero_fraction. unfold Int32.max_int.
    change (2 ^ 24) with 16777216 in HA. lia. }
  destruct (of_int_exact i ltac:(lia)) as (m1 & -> & Hm1 & Hb1).
  destruct (of_int_exact A ltac:(lia)) as (m2 & -> & Hm2 & Hb2).
  apply div_below; [exact Hb1|exact Hb2|].
  apply ltb_finite.
  pose proof (Zdigits2_bounds i ltac:(lia)) as [Hilo Hihi].
  pose proof (Zdigits2_bounds A ltac:(lia)) as [HAlo HAhi].
  pose proof (Zdigits2_pos i ltac:(lia)) as Hdi.
  assert (Hmono : Zdigits2 i <= Zdigits2 A) by (apply Zdigits2_le; lia).
  assert (Hd24 : Zdigits2 A <= 24) by (apply Zdigits2_le; lia).
  destruct (Z.eq_dec (Zdigits2 i) (Zdigits2 A)) as [He|He]; [right|left; lia].
  split; [lia|]. rewrite Hm1, Hm2, He.
  apply Z.mul_lt_mono_pos_r; [apply pow2_pos; lia|exact HiA].
Qed.

(** [1 - p] for [p] between 0 and 1. *)
Lemma sub_one_unit (p : float) :
  F32.unit_value p -> F32.unit_value (F32.sub F32.one p).
Proof.
  intros [->|(Hv & Hpos & Hle)].
  { right. repeat split; reflexivity. }
  destruct p as [s|s| |s m e]; try discriminate.
  { destruct s; discriminate. }
  destruct s; [discriminate|].
  cbn [F32.valid valid_binary] in Hv.
  apply valid_mantissa in Hv. destruct Hv as (Hm & He & _).
  apply leb_finite in Hle.
  assert (He23 : e <= -23) by lia.
  unfold F32.sub, F32.one, SFsub. cbn [cond_Zopp].
  replace (Z.min (-23) e) with e by lia.
  destruct (shl_align_spec 8388608 (-23) e) as [_ Ha].
  destruct (shl_align_spec m e e) as [_ Hb].
  rewrite Z.min_id, Z.sub_diag in Hb. change (2 ^ 0) with 1 in Hb.
  replace (Z.min (-23) e) with e in Ha by lia.
  assert (Ha' : Z.pos (fst (shl_align 8388608 (-23) e)) = 2 ^ (- e)).
  { rewrite Ha. change (Z.pos 8388608) with (2 ^ 23).
    rewrite <- Z.pow_add_r by lia. f_equal. lia. }
  assert (Hb' : Z.pos (fst (shl_align m e e)) = Zpos m) by lia.
  rewrite Ha', Hb'. clear Ha Hb Ha' Hb'.
  pose proof (pow2_pos (- e) ltac:(lia)) as Hp.
  assert (Hmle : Zpos m <= 2 ^ (- e)).
  { destruct Hle as [Hlt|[Heq Hmm]].
    - assert (2 ^ 24 <= 2 ^ (- e)) by (apply Z.pow_le_mono_r; lia). lia.
    - subst e. exact Hmm. }
  destruct (2 ^ (- e) - Zpos m) as [|q|q] eqn:Ed; cbn [binary_normalize]; [| |lia].
  - left. reflexivity.
  - assert (Hk : Zdigits2 (Zpos q) + e <= 0).
    { assert (Zdigits2 (Zpos q) <= - e) by (apply Zdigits2_le; lia). lia. }
    apply (rounded_unit _ _ (binary_round_rounded false q e) Hk).
    apply binary_round_le_one. exact Hk.
Qed.

Lemma SFmul_one_l (x : float) :
  F32.valid x = true -> F32.is_finite x = true -> F32.mul F32.one x = x.
Proof.
  destruct x as [s|s| |s m e]; try discriminate; intros Hv _.
  - reflexivity.
  - cbn [F32.valid valid_binary] in Hv. apply bounded_inv in Hv. destruct Hv as [Hcan He].
    unfold F32.mul, F32.one. cbn [SFmul xorb].
    replace (Z.pos (8388608 * m)) with (Zpos m * 2 ^ 23)
      by (change (2 ^ 23) with (Zpos 8388608); lia).
    replace (-23 + e) with (e - 23) by lia.
    unfold binary_round_aux.
    rewrite (shr_fexp_exact m e 23) by (lia || assumption).
    cbn [shr_m loc_of_shr_record round_nearest_even].
    pose proof (shr_fexp_exact m e 0 ltac:(lia) Hcan) as H0.
    change (2 ^ 0) with 1 in H0. rewrite Z.mul_1_r, Z.sub_0_r in H0.
    rewrite H0. cbn [shr_m].
    replace (e <=? F32.emax - F32.prec) with true; [reflexivity|].
    symmetry. apply Z.leb_le. change (F32.emax - F32.prec) with 104. lia.
Qed.

(** The attack value when the starting value is 0: the power term. *)
Lemma attack_from_zero (p : float) :
  F32.unit_value p ->
  F32.unit_value (F32.add F32.zero (F32.mul (F32.sub F32.one F32.zero) p)).
Proof.
  intros Hp. change (F32.sub F32.one F32.zero) with F32.one.
  destruct Hp as [->|(Hv & Hpos & Hle)]; [left; reflexivity|].
  destruct p as [s|s| |s m e]; try discriminate.
  { destruct s; discriminate. }
  destruct s; [discriminate|].
  rewrite SFmul_one_l by (assumption || reflexivity).
  right. auto.
Qed.

End F32Unit.

Section EnvelopeRange.

Variable Pow : float -> float -> float.
Context {Filter : Type} `{!StateVariableFilter Filter}.

Import FLowPassGateOperator F32Unit.

Implicit Types op : t Filter.

Lemma advance_unit (st : FEnvelopeState.t) (StartFrame EndFrame : Z) (Fin : list Z) :
  FEnvelopeState.StartingEnvelopeValue st = F32.zero ->
  INDEX_NONE <= FEnvelopeState.CurrentSampleIndex st ->
  scaled Pow st ->
  F32.unit_value (Envelope.GetNextEnvelopeOutput Pow st StartFrame EndFrame Fin).2.
Proof.
  intros Hstart Hlo (HA & HD & HcA & HcD).
  unfold Envelope.GetNextEnvelopeOutput.
  destruct (_ || _) eqn:Eskip; cbn [snd]; [left; reflexivity|].
  apply orb_false_iff in Eskip. destruct Eskip as [_ En]. apply Z.eqb_neq in En.
  unfold INDEX_NONE in *.
  destruct (FEnvelopeState.CurrentSampleIndex st <? FEnvelopeState.AttackSampleCount st) eqn:E1.
  - apply Z.ltb_lt in E1.
    destruct (1 <? FEnvelopeState.AttackSampleCount st); cbn [snd].
    + rewrite Hstart. apply attack_from_zero, HcA, fraction_unit;
        [lia|change (2 ^ 24) with 16777216; lia].
    + right. repeat split; reflexivity.
  - apply Z.ltb_ge in E1.
    rewrite Int32Facts.add_exact
      by (unfold Int32.in_range, Int32.min_int, Int32.max_int; lia).
    destruct (FEnvelopeState.CurrentSampleIndex st <? _) eqn:E2; cbn [snd];
      [|left; reflexivity].
    apply Z.ltb_lt in E2.
    rewrite Int32Facts.sub_exact
      by (unfold Int32.in_range, Int32.min_int, Int32.max_int; lia).
    apply sub_one_unit, HcD, fraction_unit; [lia|change (2 ^ 24) with 16777216; lia].
Qed.

(** The engine writes nothing but the index. *)
Lemma advance_index_only (st : FEnvelopeState.t) (StartFrame EndFrame : Z) (Fin : list Z) :
  exists j,
    (Envelope.GetNextEnvelopeOutput Pow st StartFrame EndFrame Fin).1.1
    = FEnvelopeState.set_CurrentSampleIndex j st.
Proof.
  unfold Envelope.GetNextEnvelopeOutput.
  repeat match goal with
         | |- context [if ?c then _ else _] => destruct c
         end; cbn [fst snd]; eauto.
  exists (FEnvelopeState.CurrentSampleIndex st). symmetry. apply set_index_same.
Qed.

Lemma AdvanceAndForward_block_inv (sr : float) (i : Inputs) (StartFrame EndFrame : Z) op :
  block_inv Pow sr i op -> block_inv Pow sr i (AdvanceAndForward Pow StartFrame EndFrame op).
Proof.
  intros (HIn & (Hsr & Hb & Hs & Ho) & Ht).
  pose proof (AdvanceAndForward_frame Pow StartFrame EndFrame op) as Hfr.
  unfold dispatch_frame in Hfr. injection Hfr as HIn' _ Hsr' _ _ _ _ _ _ _ _.
  destruct (AdvanceAndForward_output Pow StartFrame EndFrame op) as (Hout & Hes & _).
  split; [rewrite HIn'; exact HIn|]. split; [split; [|split; [|split]]|].
  - rewrite Hsr'. exact Hsr.
  - apply AdvanceAndForward_baseline. exact Hb.
  - apply AdvanceAndForward_index. exact Hs.
  - rewrite Hout. destruct Hb as (_ & _ & Hstart). destruct Hs as (_ & _ & Hlo).
    apply advance_unit; assumption.
  - rewrite Hes.
    destruct (advance_index_only (EnvelopeState op) StartFrame EndFrame []) as [j ->].
    exact Ht.
Qed.

Lemma OnTriggerLambda_block_inv (sr : float) (i : Inputs) (StartFrame EndFrame : Z) op :
  tame Pow sr i ->
  block_inv Pow sr i op -> block_inv Pow sr i (OnTriggerLambda Pow StartFrame EndFrame op).
Proof.
  intros Htame (HIn & (Hsr & Hb & Hs & Ho) & Ht).
  rewrite OnTriggerLambda_unfold. cbn zeta.
  assert (Hr : block_inv Pow sr i (ResetForTrigger op)).
  { split; [exact HIn|]. split; [split; [exact Hsr|split; [|split; [|exact Ho]]]|].
    - destruct Hb as (Hcur & Hhard & Hstart).
      unfold baseline_stuck. cbn. rewrite Hcur, Hhard. auto.
    - destruct (UpdateParams_counts_range op) as [HA _].
      split; [exact HA|]. cbn.
      unfold Int32.in_range, Int32.min_int, Int32.max_int, INDEX_NONE. lia.
    - rewrite <- HIn, <- Hsr in Htame. exact Htame. }
  apply (AdvanceAndForward_block_inv sr i StartFrame EndFrame) in Hr.
  exact Hr.
Qed.

Lemma DispatchTriggers_block_inv (sr : float) op :
  tame Pow sr (In op) -> run_inv sr op ->
  block_inv Pow sr (In op) (DispatchTriggers Pow op).
Proof.
  intros Htame (Hsr & Hb & Hs & Ho).
  unfold DispatchTriggers.
  apply (ExecuteBlock_invariant (block_inv Pow sr (In op))).
  - intros a b s. apply AdvanceAndForward_block_inv.
  - intros a b s. apply OnTriggerLambda_block_inv. exact Htame.
  - split; [reflexivity|]. split; [split; [exact Hsr|split; [exact Hb|split; [|exact Ho]]]|].
    + destruct Hs as (_ & Hi & Hlo).
      destruct (UpdateParams_counts_range op) as [HA _].
      split; [exact HA|]. split; [exact Hi|exact Hlo].
    + rewrite <- Hsr in Htame. exact Htame.
Qed.

Lemma Execute_run_inv (sr : float) op :
  tame Pow sr (In op) -> run_inv sr op -> run_inv sr (Execute Pow op).
Proof.
  intros Htame Hinv.
  pose proof Hinv as (Hsr & Hb & Hs & Ho).
  destruct (Mode (In op)) eqn:HM.
  - unfold run_inv, baseline_stuck, index_safe, Execute. rewrite HM.
    destruct (RunFilter_frame (AudioInput (In (HandleLowPassFilter op)))
                (HandleLowPassFilter op)) as (_ & _ & _ & -> & -> & _ & -> & _).
    destruct (HandleLowPassFilter_frame op) as (_ & _ & _ & -> & _ & -> & _ & ->).
    exact Hinv.
  - assert (Hne : Mode (In op) <> LowPass) by (rewrite HM; discriminate).
    destruct (DispatchTriggers_block_inv sr op Htame Hinv) as (_ & (_ & _ & _ & Hd) & _).
    destruct (Execute_dispatch Pow op Hne) as (_ & Hout & _ & _ & Hrate).
    split; [rewrite Hrate; exact Hsr|].
    split; [apply Execute_baseline; exact Hb|].
    split; [apply Execute_index; exact Hs|].
    rewrite Hout. exact Hd.
  - assert (Hne : Mode (In op) <> LowPass) by (rewrite HM; discriminate).
    destruct (DispatchTriggers_block_inv sr op Htame Hinv) as (_ & (_ & _ & _ & Hd) & _).
    destruct (Execute_dispatch Pow op Hne) as (_ & Hout & _ & _ & Hrate).
    split; [rewrite Hrate; exact Hsr|].
    split; [apply Execute_baseline; exact Hb|].
    split; [apply Execute_index; exact Hs|].
    rewrite Hout. exact Hd.
Qed.

Lemma Blocks_run_inv (sr : float) (l : list Inputs) op :
  Forall (tame Pow sr) l -> run_inv sr op -> run_inv sr (Blocks Pow op l).
Proof.
  revert op. induction l as [|i l IH]; intros op Hl Hinv; [exact Hinv|].
  apply Forall_cons in Hl. destruct Hl as [Hi Hl].
  cbn [Blocks foldl]. apply IH; [exact Hl|]. unfold Block.
  apply Execute_run_inv; [exact Hi|exact Hinv].
Qed.

(** X20. The envelope output stays between 0 and 1. With a starting
    value of 0, an index of at least [INDEX_NONE], attack and decay
    counts from 1 to below [2 ^ 24] and curve factors at which [Pow]
    maps a base between 0 and 1 to a value between 0 and 1, every call
    of the engine reports +0 or a well-formed number above 0 and at most
    1. So does the envelope output of every operator reached from its
    construction by blocks, in any modes, whose inputs a refresh turns
    into such counts and curve factors. *)
Theorem X20_envelope_stays_between_0_and_1 :
  (forall (st : FEnvelopeState.t) (StartFrame EndFrame : Z) (Fin : list Z),
      FEnvelopeState.StartingEnvelopeValue st = F32.zero ->
      INDEX_NONE <= FEnvelopeState.CurrentSampleIndex st ->
      scaled Pow st ->
      F32.unit_value (Envelope.GetNextEnvelopeOutput Pow st StartFrame EndFrame Fin).2)
  /\ (forall (InSampleRate : float) (InNumFramesPerBlock : Z) (i0 : Inputs)
             (l : list Inputs),
        Forall (tame Pow InSampleRate) l ->
        F32.unit_value
          (OutEnvelope (Blocks Pow (Construct InSampleRate InNumFramesPerBlock i0) l))).
Proof.
  split; [exact advance_unit|].
  intros sr N i0 l Hl.
  apply (Blocks_run_inv sr l (Construct sr N i0) Hl).
  split; [reflexivity|]. split; [apply Construct_baseline|].
  split; [|left; reflexivity].
  unfold index_safe, Int32.in_range, Int32.min_int, Int32.max_int.
  cbn [EnvelopeState Construct FEnvelopeState.AttackSampleCount
       FEnvelopeState.CurrentSampleIndex FEnvelopeState.set_EnvelopeEase
       FEnvelopeState.Default].
  unfold INDEX_NONE. lia.
Qed.

End EnvelopeRange.

(** ** Concrete runs of the further properties *)

Section FurtherConcrete.

Import FLowPassGateOperator Examples.

(** Witness of X1: one attack and one decay sample, and three calls
    past the end. *)
Lemma X1_witness :
  (1 <= FEnvelopeState.AttackSampleCount one_one
   /\ 1 <= FEnvelopeState.DecaySampleCount one_one
   /\ Int32.in_range (FEnvelopeState.AttackSampleCount one_one
                      + FEnvelopeState.DecaySampleCount one_one)
   /\ FEnvelopeState.CurrentSampleIndex one_one = 0)
  /\ concat (fst <$> (Envelope.Run PowSpecial 4 (2 + 1 + 3) one_one).2) = [0].
Proof.
  assert (H1 : 1 <= FEnvelopeState.AttackSampleCount one_one) by (cbn; lia).
  assert (H2 : 1 <= FEnvelopeState.DecaySampleCount one_one) by (cbn; lia).
  assert (H3 : Int32.in_range (FEnvelopeState.AttackSampleCount one_one
                               + FEnvelopeState.DecaySampleCount one_one))
    by (vm_compute; split; discriminate).
  assert (H4 : FEnvelopeState.CurrentSampleIndex one_one = 0) by reflexivity.
  split; [auto|].
  destruct (X1_envelope_finishes_once PowSpecial one_one 4 3 H1 H2 H3 H4)
    as (outs & _ & _ & H).
  exact H.
Defined.

(** Witness of X2: a call in the attack of 48 samples, and the run of
    a block with a trigger and one without at 48000 Hz, with counts of 48
    and 48000 samples. *)
Lemma X2_witness :
  (FEnvelopeState.counts_fit attacking
   /\ INDEX_NONE <= FEnvelopeState.CurrentSampleIndex attacking
   /\ Forall (countable SampleRate48k) [inputs [0] VCA; inputs [] Both])
  /\ FEnvelopeState.CurrentSampleIndex
       (Envelope.GetNextEnvelopeOutput PowSpecial attacking 0 4 []).1.1 = 2
  /\ INDEX_NONE
     <= FEnvelopeState.CurrentSampleIndex
          (EnvelopeState
             (Blocks PowSpecial (Construct (Filter := CopyFilter.t) SampleRate48k 4
                                   (inputs [] VCA))
                [inputs [0] VCA; inputs [] Both]))
     <= Int32.max_int.
Proof.
  assert (H1 : FEnvelopeState.counts_fit attacking)
    by (repeat split; vm_compute; discriminate).
  assert (H2 : INDEX_NONE <= FEnvelopeState.CurrentSampleIndex attacking)
    by (vm_compute; discriminate).
  assert (Hc : forall tr m, countable SampleRate48k (inputs tr m))
    by (intros tr m; split; [|split]; vm_compute; discriminate).
  assert (H3 : Forall (countable SampleRate48k) [inputs [0] VCA; inputs [] Both])
    by (constructor; [apply Hc|constructor; [apply Hc|constructor]]).
  split; [auto|].
  destruct (X2_index_never_overflows PowSpecial (Filter := CopyFilter.t)) as [Ha Hb].
  split; [|exact (Hb SampleRate48k 4 (inputs [] VCA) _ H3)].
  destruct (Ha attacking 0 4 [] H1 H2) as (_ & _ & [H|[H|H]]).
  - vm_compute in H. discriminate H.
  - vm_compute in H. discriminate H.
  - exact H.
Defined.

(** Witness of X3: the first decay sample after an attack of one
    sample. *)
Lemma X3_witness :
  (forall y, F32.ltb F32.zero y = true -> PowSpecial F32.zero y = F32.zero)
  /\ Envelope.GetNextEnvelopeOutput PowSpecial decaying 0 4 []
     = (FEnvelopeState.set_CurrentSampleIndex 2 decaying, [], F32.one).
Proof.
  assert (HP : forall y, F32.ltb F32.zero y = true -> PowSpecial F32.zero y = F32.zero).
  { intros y Hy.
    change (PowSpecial F32.zero y) with (if F32.ltb F32.zero y then F32.zero else S754_nan).
    rewrite Hy. reflexivity. }
  split; [exact HP|].
  apply (X3_decay_starts_at_one PowSpecial decaying 4 [] HP).
  - vm_compute. repeat split; discriminate.
  - cbn. lia.
  - cbn. lia.
  - reflexivity.
  - reflexivity.
Defined.

(** Witness of X4: attack and decay times of 0 at 48000 Hz. *)
Lemma X4_witness :
  (F32.valid (SampleRate (set_In (click [] VCA) (fresh VCA))) = true
   /\ F32.is_finite (SampleRate (set_In (click [] VCA) (fresh VCA))) = true
   /\ F32.ltb F32.zero (SampleRate (set_In (click [] VCA) (fresh VCA))) = true)
  /\ FEnvelopeState.AttackSampleCount
       (EnvelopeState (UpdateParams (set_In (click [] VCA) (fresh VCA)))) = 1
  /\ FEnvelopeState.DecaySampleCount
       (EnvelopeState (UpdateParams (set_In (click [] VCA) (fresh VCA)))) = 1.
Proof.
  assert (H1 : F32.valid (SampleRate (set_In (click [] VCA) (fresh VCA))) = true)
    by (vm_compute; reflexivity).
  assert (H2 : F32.is_finite (SampleRate (set_In (click [] VCA) (fresh VCA))) = true)
    by (vm_compute; reflexivity).
  assert (H3 : F32.ltb F32.zero (SampleRate (set_In (click [] VCA) (fresh VCA))) = true)
    by (vm_compute; reflexivity).
  split; [auto|].
  destruct (X4_nonpositive_time_is_one_sample (set_In (click [] VCA) (fresh VCA)) H1 H2 H3)
    as [Ha Hd].
  split; [apply Ha|apply Hd]; vm_compute; reflexivity.
Defined.

(** Witness of X5: a block without trigger in mid attack, from index 2
    to index 3. *)
Lemma X5_witness :
  (Mode (In (set_In (inputs [] VCA) mid_attack)) <> LowPass
   /\ 0 < FTrigger.NumFramesPerBlock (TriggerAttackIn (In (set_In (inputs [] VCA) mid_attack)))
   /\ FTrigger.FramesInBlock (TriggerAttackIn (In (set_In (inputs [] VCA) mid_attack))) = [])
  /\ FEnvelopeState.CurrentSampleIndex
       (EnvelopeState (Execute PowSpecial (set_In (inputs [] VCA) mid_attack)))
     = FEnvelopeState.CurrentSampleIndex (EnvelopeState (set_In (inputs [] VCA) mid_attack)) + 1.
Proof.
  assert (H1 : Mode (In (set_In (inputs [] VCA) mid_attack)) <> LowPass) by discriminate.
  assert (H2 : 0 < FTrigger.NumFramesPerBlock
                     (TriggerAttackIn (In (set_In (inputs [] VCA) mid_attack))))
    by reflexivity.
  assert (H3 : FTrigger.FramesInBlock
                 (TriggerAttackIn (In (set_In (inputs [] VCA) mid_attack))) = [])
    by reflexivity.
  split; [auto|].
  destruct (X5_quiet_block_is_one_sample PowSpecial (set_In (inputs [] VCA) mid_attack)
              H1 H2 H3) as (_ & _ & Hidx & _).
  apply Hidx.
  - vm_compute. repeat split; discriminate.
  - vm_compute. split; [discriminate|reflexivity].
Defined.

(** Witness of X6: one attack and one decay sample; the trigger block
    yields the first sample, the next block the second, and the block
    after it fires the done trigger. *)
Lemma X6_witness :
  (Mode (click [] VCA) <> LowPass
   /\ 0 < FTrigger.NumFramesPerBlock (TriggerAttackIn (click [] VCA))
   /\ FTrigger.FramesInBlock (TriggerAttackIn (click [] VCA)) = []
   /\ 0 < FTrigger.NumFramesPerBlock (OnDone clicked)
   /\ Forall (fun f => f = 0) (FTrigger.TriggeredFrames (OnDone clicked)))
  /\ FTrigger.TriggeredFrames
       (OnDone (Blocks PowSpecial clicked (replicate 2 (click [] VCA)))) = [0].
Proof.
  assert (H1 : Mode (click [] VCA) <> LowPass) by discriminate.
  assert (H2 : 0 < FTrigger.NumFramesPerBlock (TriggerAttackIn (click [] VCA)))
    by reflexivity.
  assert (H3 : FTrigger.FramesInBlock (TriggerAttackIn (click [] VCA)) = []) by reflexivity.
  assert (H4 : 0 < FTrigger.NumFramesPerBlock (OnDone clicked)) by reflexivity.
  assert (H5 : Forall (fun f => f = 0) (FTrigger.TriggeredFrames (OnDone clicked)))
    by (vm_compute; constructor).
  split; [auto 6|].
  destruct (X6_done_fires_after_as_many_blocks_as_samples PowSpecial clicked (click [] VCA)
              H1 H2 H3 H4 H5) as (_ & (_ & H & _) & _).
  - vm_compute. split; discriminate.
  - vm_compute. discriminate.
  - vm_compute. split; discriminate.
  - exact H.
Defined.

(** Witness of X7: three blocks without trigger, one in each mode. *)
Lemma X7_witness :
  Forall (fun i => FTrigger.FramesInBlock (TriggerAttackIn i) = [])
         [inputs [] VCA; inputs [] LowPass; inputs [] Both]
  /\ FEnvelopeState.CurrentSampleIndex
       (EnvelopeState
          (Blocks PowSpecial (fresh VCA) [inputs [] VCA; inputs [] LowPass; inputs [] Both]))
     = INDEX_NONE.
Proof.
  assert (H : Forall (fun i => FTrigger.FramesInBlock (TriggerAttackIn i) = [])
                     [inputs [] VCA; inputs [] LowPass; inputs [] Both])
    by (repeat constructor).
  split; [exact H|].
  apply (X7_idle_until_first_trigger PowSpecial SampleRate48k 4 (inputs [] VCA)
           [inputs [] VCA; inputs [] LowPass; inputs [] Both] H).
Defined.

(** Witness of X8: a single trigger at frame 2 of a block of four. *)
Lemma X8_witness :
  (Mode (In (set_In (instant [2] VCA) (fresh VCA))) <> LowPass
   /\ 0 < FTrigger.NumFramesPerBlock
            (TriggerAttackIn (In (set_In (instant [2] VCA) (fresh VCA))))
   /\ FTrigger.FramesInBlock (TriggerAttackIn (In (set_In (instant [2] VCA) (fresh VCA))))
      = [] ++ [2]
   /\ 0 < 2)
  /\ OutEnvelope (Execute PowSpecial (set_In (instant [2] VCA) (fresh VCA))) = F32.zero.
Proof.
  assert (H1 : Mode (In (set_In (instant [2] VCA) (fresh VCA))) <> LowPass) by discriminate.
  assert (H2 : 0 < FTrigger.NumFramesPerBlock
                     (TriggerAttackIn (In (set_In (instant [2] VCA) (fresh VCA)))))
    by reflexivity.
  assert (H3 : FTrigger.FramesInBlock
                 (TriggerAttackIn (In (set_In (instant [2] VCA) (fresh VCA)))) = [] ++ [2])
    by reflexivity.
  assert (H4 : 0 < 2) by lia.
  split; [auto|].
  apply (X8_late_trigger_mutes_the_block PowSpecial (set_In (instant [2] VCA) (fresh VCA))
           [] 2 H1 H2 H3 H4).
Defined.

(** Witness of X9: triggers at frames 0 and 2 of a block of four. *)
Lemma X9_witness :
  (Mode (In (set_In (inputs [0; 2] VCA) (fresh VCA))) <> LowPass
   /\ 0 < FTrigger.NumFramesPerBlock
            (TriggerAttackIn (In (set_In (inputs [0; 2] VCA) (fresh VCA))))
   /\ StronglySorted Z.le
        (FTrigger.TriggeredFrames
           (TriggerAttackIn (In (set_In (inputs [0; 2] VCA) (fresh VCA)))))
   /\ Forall (fun f => f < FTrigger.NumFramesPerBlock
                             (OnAttackTrigger (set_In (inputs [0; 2] VCA) (fresh VCA))))
        (FTrigger.TriggeredFrames
           (OnAttackTrigger (set_In (inputs [0; 2] VCA) (fresh VCA)))))
  /\ FTrigger.TriggeredFrames
       (OnAttackTrigger (Execute PowSpecial (set_In (inputs [0; 2] VCA) (fresh VCA))))
     = [0; 2].
Proof.
  assert (H1 : Mode (In (set_In (inputs [0; 2] VCA) (fresh VCA))) <> LowPass)
    by discriminate.
  assert (H2 : 0 < FTrigger.NumFramesPerBlock
                     (TriggerAttackIn (In (set_In (inputs [0; 2] VCA) (fresh VCA)))))
    by reflexivity.
  assert (H3 : StronglySorted Z.le
                 (FTrigger.TriggeredFrames
                    (TriggerAttackIn (In (set_In (inputs [0; 2] VCA) (fresh VCA)))))).
  { cbn. repeat constructor. lia. }
  assert (H4 : Forall (fun f => f < FTrigger.NumFramesPerBlock
                             (OnAttackTrigger (set_In (inputs [0; 2] VCA) (fresh VCA))))
                 (FTrigger.TriggeredFrames
                    (OnAttackTrigger (set_In (inputs [0; 2] VCA) (fresh VCA)))))
    by constructor.
  split; [auto|].
  apply (X9_attack_trigger_repeats_the_input PowSpecial
           (set_In (inputs [0; 2] VCA) (fresh VCA)) H1 H2 H3 H4).
Defined.

(** Witness of X10: a VCA block with a trigger on a fresh operator. *)
Lemma X10_witness :
  Mode (In (set_In (inputs [0] VCA) (fresh VCA))) = VCA
  /\ VariableFilter (Execute PowSpecial (set_In (inputs [0] VCA) (fresh VCA)))
     = VariableFilter (set_In (inputs [0] VCA) (fresh VCA)).
Proof.
  split; [reflexivity|].
  apply (X10_vca_leaves_the_filter PowSpecial (set_In (inputs [0] VCA) (fresh VCA))).
  reflexivity.
Defined.

(** Witness of X11: a cut off of 1000 at 48000 Hz. *)
Lemma X11_witness :
  F32.leb F32.zero (F32.mul F32.half (SampleRate (fresh LowPass))) = true
  /\ F32.leb (FMath.Clamp (CutOffFrequency (In (fresh LowPass))) F32.zero
                (F32.mul F32.half (SampleRate (fresh LowPass))))
             (F32.mul F32.half (SampleRate (fresh LowPass))) = true.
Proof.
  assert (H : F32.leb F32.zero (F32.mul F32.half (SampleRate (fresh LowPass))) = true)
    by (vm_compute; reflexivity).
  split; [exact H|].
  apply (X11_committed_frequency_within_range (fresh LowPass) H).
Defined.

(** Witness of X12: the cache holds 1000, the cut off is 2000. *)
Lemma X12_witness :
  (F32.valid (PreviousFrequency retuned) = true
   /\ F32.is_finite (PreviousFrequency retuned) = true
   /\ F32.leb (F32.div (F32.of_int 1) (F32.of_int 8)) (PreviousFrequency retuned) = true)
  /\ HandleLowPassFilter retuned = Commit retuned.
Proof.
  assert (H1 : F32.valid (PreviousFrequency retuned) = true) by (vm_compute; reflexivity).
  assert (H2 : F32.is_finite (PreviousFrequency retuned) = true)
    by (vm_compute; reflexivity).
  assert (H3 : F32.leb (F32.div (F32.of_int 1) (F32.of_int 8)) (PreviousFrequency retuned)
               = true)
    by (vm_compute; reflexivity).
  split; [auto|].
  apply (X12_cache_comparison_is_exact retuned H1 H2); try (vm_compute; reflexivity).
  vm_compute. discriminate.
Defined.

(** Witness of X17: a cut off of 20000 in Both mode. *)
Lemma X17_witness :
  Mode (In (set_In (tuned (F32.of_int 20000) Both) (fresh Both))) = Both
  /\ FMath.GetMappedRangeValueClamped F32.zero (F32.of_int 20000) F32.zero F32.one
       (CutOffFrequency (In (set_In (tuned (F32.of_int 20000) Both) (fresh Both))))
     = F32.one.
Proof.
  assert (H : Mode (In (set_In (tuned (F32.of_int 20000) Both) (fresh Both))) = Both)
    by reflexivity.
  split; [exact H|].
  destruct (X17_cutoff_control_at_its_ends PowSpecial
              (set_In (tuned (F32.of_int 20000) Both) (fresh Both)) H)
    as (_ & _ & Hopen & _).
  apply Hopen; vm_compute; reflexivity.
Defined.

(** Witness of X18: an instant attack triggered at frame 0. *)
Lemma X18_witness :
  (Mode (In (set_In (instant [0] VCA) (fresh VCA))) = VCA
   /\ 0 < FTrigger.NumFramesPerBlock
            (TriggerAttackIn (In (set_In (instant [0] VCA) (fresh VCA))))
   /\ FTrigger.FramesInBlock (TriggerAttackIn (In (set_In (instant [0] VCA) (fresh VCA))))
      = [0]
   /\ FEnvelopeState.CurrentEnvelopeValue
        (EnvelopeState (set_In (instant [0] VCA) (fresh VCA))) = F32.zero
   /\ (length (AudioInput (In (set_In (instant [0%Z] VCA) (fresh VCA))))
       <= length (AudioOutput (set_In (instant [0%Z] VCA) (fresh VCA))))%nat)
  /\ OutEnvelope (Execute PowSpecial (set_In (instant [0] VCA) (fresh VCA))) = F32.one.
Proof.
  assert (H1 : Mode (In (set_In (instant [0] VCA) (fresh VCA))) = VCA) by reflexivity.
  assert (H2 : 0 < FTrigger.NumFramesPerBlock
                     (TriggerAttackIn (In (set_In (instant [0] VCA) (fresh VCA)))))
    by reflexivity.
  assert (H3 : FTrigger.FramesInBlock
                 (TriggerAttackIn (In (set_In (instant [0] VCA) (fresh VCA)))) = [0])
    by reflexivity.
  assert (H4 : FEnvelopeState.CurrentEnvelopeValue
                 (EnvelopeState (set_In (instant [0] VCA) (fresh VCA))) = F32.zero)
    by reflexivity.
  assert (H5 : (length (AudioInput (In (set_In (instant [0%Z] VCA) (fresh VCA))))
                <= length (AudioOutput (set_In (instant [0%Z] VCA) (fresh VCA))))%nat)
    by (vm_compute; lia).
  split; [auto 6|].
  destruct (X18_trigger_block_of_a_vca PowSpecial (set_In (instant [0] VCA) (fresh VCA))
              H1 H2 H3 H4 H5) as [Hinstant _].
  apply Hinstant. vm_compute. reflexivity.
Defined.

(** Witness of X19: the fresh operator and the one with another ease,
    over a block with a trigger and one without. *)
Lemma X19_witness :
  forget (fresh VCA) = forget eased
  /\ AudioOutput (Blocks PowSpecial (fresh VCA) [inputs [0] VCA; inputs [] VCA])
     = AudioOutput (Blocks PowSpecial eased [inputs [0] VCA; inputs [] VCA]).
Proof.
  assert (H : forget (fresh VCA) = forget eased) by reflexivity.
  split; [exact H|].
  apply (X19_ease_and_looping_are_dead_state PowSpecial (fresh VCA) eased
           [inputs [0] VCA; inputs [] VCA] H).
Defined.

(** [PowSpecial] at the exponent 1 keeps the range. *)
Lemma PowSpecial_linear : unit_curve PowSpecial F32.one.
Proof.
  intros x [->|(Hv & Hpos & Hle)]; [left; reflexivity|].
  destruct x as [s|s| |s m e]; try discriminate.
  { destruct s; discriminate. }
  right. auto.
Qed.

(** Witness of X20: a call in the attack of 48 samples, and the run of a
    block with a trigger, in VCA mode, and one without, in Both mode. *)
Lemma X20_witness :
  (FEnvelopeState.StartingEnvelopeValue attacking = F32.zero
   /\ INDEX_NONE <= FEnvelopeState.CurrentSampleIndex attacking
   /\ scaled PowSpecial attacking
   /\ Forall (tame PowSpecial SampleRate48k) [inputs [0] VCA; inputs [] Both])
  /\ F32.unit_value (Envelope.GetNextEnvelopeOutput PowSpecial attacking 0 4 []).2
  /\ F32.unit_value
       (OutEnvelope (Blocks PowSpecial (Construct (Filter := CopyFilter.t) SampleRate48k 4
                                          (inputs [] VCA))
                       [inputs [0] VCA; inputs [] Both])).
Proof.
  assert (H1 : FEnvelopeState.StartingEnvelopeValue attacking = F32.zero) by reflexivity.
  assert (H2 : INDEX_NONE <= FEnvelopeState.CurrentSampleIndex attacking)
    by (vm_compute; discriminate).
  assert (H3 : scaled PowSpecial attacking).
  { split; [|split; [|split]]; try exact PowSpecial_linear; vm_compute; split; congruence. }
  assert (Ht : forall tr m, tame PowSpecial SampleRate48k (inputs tr m)).
  { intros tr m.
    split; [|split; [|split]]; try exact PowSpecial_linear; vm_compute; split; congruence. }
  assert (H4 : Forall (tame PowSpecial SampleRate48k) [inputs [0] VCA; inputs [] Both])
    by (constructor; [apply Ht|constructor; [apply Ht|constructor]]).
  split; [auto|].
  destruct (X20_envelope_stays_between_0_and_1 PowSpecial (Filter := CopyFilter.t))
    as [Ha Hb].
  split; [exact (Ha attacking 0 4 [] H1 H2 H3)|].
  exact (Hb SampleRate48k 4 (inputs [] VCA) _ H4).
Defined.

End FurtherConcrete.
